(** * Codefy: analysis orchestration and session state

    A shallow embedding of the request classifier, the parallel analysis
    dispatcher and the per-session durable store of the Codefy worker,
    together with the properties its specification states about them.

    Conventions of the embedding.
    - JavaScript strings are modelled by their ASCII content: [list ascii]
      where the code inspects characters (classifier, code extraction),
      [string] for messages. [toLowerCase] and the [i] flag fold the letters
      A-Z only.
    - JavaScript numbers are modelled by [Z]: scores, counters and
      millisecond timestamps are integers far below 2^53, where double
      arithmetic is exact. [Math.round (a / b)] on such operands is
      [(2a + b) / 2b] rounded down.
    - A call that may throw returns an [outcome]; the in-memory state is
      threaded through explicitly and survives a throw, as it does in the
      running worker. *)

From Stdlib Require Import ZArith Ascii String Lia.
From stdpp Require Import gmap strings list fin_maps pretty.

Local Open Scope Z_scope.

(** ** Text primitives *)

Module Text.

Definition text := list ascii.

(** Literal text. *)
Definition lit (s : string) : text := list_ascii_of_string s.

(** [String.prototype.toLowerCase], one code unit. *)
Definition toLowerChar (c : ascii) : ascii :=
  let n := nat_of_ascii c in
  if ((65 <=? n) && (n <=? 90))%nat then ascii_of_nat (n + 32) else c.

Definition toLowerCase (s : text) : text := List.map toLowerChar s.

(** [s.startsWith k]. *)
Fixpoint startsWith (k s : text) : bool :=
  match k, s with
  | [], _ => true
  | _ :: _, [] => false
  | a :: k', b :: s' => Ascii.eqb a b && startsWith k' s'
  end.

(** [s.includes k]: [k] occurs at some position of [s]. *)
Fixpoint includes (s k : text) : bool :=
  startsWith k s ||
  match s with
  | [] => false
  | _ :: s' => includes s' k
  end.

(** The declarative reading of "contains". *)
Definition contains (s k : text) : Prop :=
  ∃ pre post, s = pre ++ k ++ post.

End Text.

(** ** Regular expressions

    The fragment of JavaScript regular expressions the worker uses:
    literals, character classes, concatenation, alternation and repetition.
    [test] is [RegExp.prototype.test] for a pattern without anchors: some
    substring of the input matches. Greedy and lazy repetition accept the
    same inputs, so [*] and [*?] share one constructor. *)

Module RegExp.
Import Text.

Inductive regex : Type :=
| Never
| Empty
| Class (p : ascii → bool)
| Cat (r1 r2 : regex)
| Or (r1 r2 : regex)
| Many (r : regex).

(** The language of a pattern. *)
Inductive matches : regex → text → Prop :=
| m_empty : matches Empty []
| m_class p c : p c = true → matches (Class p) [c]
| m_cat r1 r2 s1 s2 :
    matches r1 s1 → matches r2 s2 → matches (Cat r1 r2) (s1 ++ s2)
| m_or_l r1 r2 s : matches r1 s → matches (Or r1 r2) s
| m_or_r r1 r2 s : matches r2 s → matches (Or r1 r2) s
| m_many_nil r : matches (Many r) []
| m_many_app r s1 s2 :
    matches r s1 → matches (Many r) s2 → matches (Many r) (s1 ++ s2).

(** Matching by derivatives. *)
Fixpoint nullable (r : regex) : bool :=
  match r with
  | Never => false
  | Empty => true
  | Class _ => false
  | Cat r1 r2 => nullable r1 && nullable r2
  | Or r1 r2 => nullable r1 || nullable r2
  | Many _ => true
  end.

Fixpoint deriv (c : ascii) (r : regex) : regex :=
  match r with
  | Never => Never
  | Empty => Never
  | Class p => if p c then Empty else Never
  | Cat r1 r2 =>
      if nullable r1
      then Or (Cat (deriv c r1) r2) (deriv c r2)
      else Cat (deriv c r1) r2
  | Or r1 r2 => Or (deriv c r1) (deriv c r2)
  | Many r1 => Cat (deriv c r1) (Many r1)
  end.

Fixpoint accepts (r : regex) (s : text) : bool :=
  match s with
  | [] => nullable r
  | c :: s' => accepts (deriv c r) s'
  end.

(** Pattern atoms as the source writes them. *)
Definition chr (c : ascii) : regex := Class (Ascii.eqb c).        (* c *)
Definition any : regex := Class (λ _, true).                      (* [\s\S] *)
Definition notchr (c : ascii) : regex :=                           (* [^c] *)
  Class (λ x, negb (Ascii.eqb c x)).
Definition chr_i (c : ascii) : regex :=                            (* c, flag i *)
  Class (λ x, Ascii.eqb (toLowerChar c) (toLowerChar x)).
Definition plus (r : regex) : regex := Cat r (Many r).             (* r+ *)
Definition opt (r : regex) : regex := Or r Empty.                  (* r? *)

Fixpoint word (k : text) : regex :=
  match k with
  | [] => Empty
  | c :: k' => Cat (chr c) (word k')
  end.

Fixpoint word_i (k : text) : regex :=
  match k with
  | [] => Empty
  | c :: k' => Cat (chr_i c) (word_i k')
  end.

(** [a|b|c]. *)
Definition oneOf (rs : list regex) : regex := foldr Or Never rs.

Definition test (r : regex) (s : text) : bool :=
  accepts (Cat (Many any) (Cat r (Many any))) s.

End RegExp.


(** ** Content classifier

    Two classifiers live in the repository. [Router.isCodeAnalysisRequest]
    is the helper of the worker entry point (src/index.ts); 
    [Utils.isCodeAnalysisRequest] is the exported utility, repeated verbatim
    as a private method of both chat agents. *)

Module Router.
Import Text RegExp.

Definition backtick : ascii := "`"%char.
Definition fence : text := [backtick; backtick; backtick].

(* /```[\s\S]*?```/ *)
Definition codeBlockPattern : regex :=
  Cat (word fence) (Cat (Many any) (word fence)).

(* /`[^`]+`/ *)
Definition inlineCodePattern : regex :=
  Cat (chr backtick) (Cat (plus (notchr backtick)) (chr backtick)).

Definition keywords : list text :=
  lit <$> ["analyze"; "review"; "check"; "security"; "performance"; "quality"]%string.

(* /analyze|review|check|security|performance|quality/i *)
Definition keywordPattern : regex := oneOf (word_i <$> keywords).

Definition structuralTokens : list text :=
  lit <$> ["function"; "class"; "def"; "const"; "let"; "var"; "import"; "export"]%string.

(* /function|class|def|const|let|var|import|export/ *)
Definition structuralPattern : regex := oneOf (word <$> structuralTokens).

Definition codePatterns : list regex :=
  [codeBlockPattern; inlineCodePattern; keywordPattern; structuralPattern].

Definition isCodeAnalysisRequest (content : text) : bool :=
  existsb (λ pattern, test pattern content) codePatterns.

End Router.

Module Utils.
Import Text RegExp.

Definition codeAnalysisKeywords : list text :=
  lit <$> ["analyze"; "review"; "check"; "audit"; "security"; "performance";
           "quality"; "vulnerability"; "optimize"; "improve"; "bug"; "issue"]%string.

(* /```[\s\S]*```/ *)
Definition codeBlockPattern : regex :=
  Cat (word Router.fence) (Cat (Many any) (word Router.fence)).

Definition isCodeAnalysisRequest (content : text) : bool :=
  let hasCode :=
    test codeBlockPattern content
    || includes content (lit "function")
    || includes content (lit "class") in
  let hasAnalysisKeyword :=
    existsb (λ keyword, includes (toLowerCase content) keyword)
            codeAnalysisKeywords in
  hasCode || hasAnalysisKeyword.

End Utils.

(** The classification rule in declarative form. *)
Module ClassifierSpec.
Import Text.

(** A fenced block: an opening fence and a later closing fence. *)
Definition hasFencedBlock (s : text) : Prop :=
  ∃ a b c, s = a ++ Router.fence ++ b ++ Router.fence ++ c.

(** An inline span: two backticks around a non-empty backtick-free run. *)
Definition hasInlineSpan (s : text) : Prop :=
  ∃ a b c, s = a ++ Router.backtick :: b ++ Router.backtick :: c
           ∧ b ≠ [] ∧ Forall (λ x, x ≠ Router.backtick) b.

(** [k] occurs in [s] up to the case of letters. *)
Definition containsIgnoringCase (s k : text) : Prop :=
  ∃ pre m post, s = pre ++ m ++ post ∧ toLowerCase m = toLowerCase k.

Definition containsAnyIgnoringCase (s : text) (ks : list text) : Prop :=
  ∃ k, k ∈ ks ∧ containsIgnoringCase s k.

Definition containsAny (s : text) (ks : list text) : Prop :=
  ∃ k, k ∈ ks ∧ contains s k.

(** The rule as the specification words it: twelve keywords, eight
    structural tokens, code blocks and inline spans. *)
Definition specifiedRule (s : text) : Prop :=
  hasFencedBlock s ∨ hasInlineSpan s
  ∨ containsAnyIgnoringCase s Utils.codeAnalysisKeywords
  ∨ containsAny s Router.structuralTokens.

(** What src/index.ts decides. *)
Definition routerRule (s : text) : Prop :=
  hasFencedBlock s ∨ hasInlineSpan s
  ∨ containsAnyIgnoringCase s Router.keywords
  ∨ containsAny s Router.structuralTokens.

(** What the utility and the agents decide. *)
Definition utilsRule (s : text) : Prop :=
  hasFencedBlock s
  ∨ contains s (lit "function") ∨ contains s (lit "class")
  ∨ containsAnyIgnoringCase s Utils.codeAnalysisKeywords.

End ClassifierSpec.

(** ** Effects

    A computation runs on a state [S] and either returns a value or throws
    an [Error], identified with its message. The state reached is returned
    in both cases: what was mutated before a throw stays mutated. *)

Inductive outcome (A : Type) : Type :=
| Return (a : A)
| Throw (message : string).
Arguments Return {A} a.
Arguments Throw {A} message.

Definition M (S A : Type) : Type := S → outcome A * S.

Definition ret {S A} (a : A) : M S A := λ st, (Return a, st).

Definition throw {S A} (message : string) : M S A := λ st, (Throw message, st).

Definition bind {S A B} (c : M S A) (k : A → M S B) : M S B :=
  λ st, match c st with
        | (Return a, st') => k a st'
        | (Throw message, st') => (Throw message, st')
        end.

(** [try { c } catch (error) { handler error.message }]. *)
Definition tryCatch {S A} (c : M S A) (handler : string → M S A) : M S A :=
  λ st, match c st with
        | (Return a, st') => (Return a, st')
        | (Throw message, st') => handler message st'
        end.

Definition gets {S A} (f : S → A) : M S A := λ st, (Return (f st), st).

Definition modify {S} (f : S → S) : M S unit := λ st, (Return tt, f st).

Notation "'let*' x ':=' c 'in' k" := (bind c (λ x, k))
  (at level 10, x name, c at level 200, k at level 200).
Notation "c '>>' k" := (bind c (λ _, k))
  (at level 100, k at level 200, right associativity).

Definition when {S} (b : bool) (c : M S unit) : M S unit :=
  if b then c else ret tt.

(** [for (const x of xs) { body x }]. *)
Fixpoint forEach {S A} (xs : list A) (body : A → M S unit) : M S unit :=
  match xs with
  | [] => ret tt
  | x :: xs' => body x >> forEach xs' body
  end.

(** Console output, kept as a list of lines in order of emission. *)
Inductive LogLevel : Type := LevelLog | LevelWarn | LevelError.

Definition LogLine : Type := LogLevel * string.

(** ** Numbers

    A value of type [number] that a computation can keep: an integer, or
    NaN. *)
Inductive JsNum : Type :=
| Finite (z : Z)
| NaN.

(** ** Session store (Durable Object [QualityAnalysisState]) *)

Module QualityAnalysisState.

(** A value in the position of [overallScore], as a caller passes it. The
    values of type [number] are the integers, NaN and the two infinities;
    a JSON body carries none of the last three, a direct call may. *)
Inductive JsValue : Type :=
| JsUndefined
| JsNull
| JsBoolean (b : bool)
| JsNumber (z : Z)
| JsNaN
| JsInfinity (negative : bool)
| JsString (s : string).

Record Issue : Type := {
  severity : string;
  issue : string;
  line : option Z;
  suggestion : string;
}.

(** An analysis as it arrives, before its score has been looked at. *)
Record UncheckedAnalysis : Type := {
  receivedSecurityIssues : list Issue;
  receivedPerformanceIssues : list Issue;
  receivedQualityIssues : list Issue;
  receivedOverallScore : JsValue;
  receivedSummary : string;
}.

(** [CodeAnalysisResult]: an analysis whose [overallScore] is a number,
    NaN included. *)
Record CodeAnalysisResult : Type := {
  securityIssues : list Issue;
  performanceIssues : list Issue;
  qualityIssues : list Issue;
  overallScore : JsNum;
  summary : string;
}.

Record AnalysisSession : Type := {
  id : string;
  userId : option string;
  createdAt : Z;
  lastActivity : Z;
  analyses : list CodeAnalysisResult;
  totalAnalyses : Z;
  averageScore : Z;
}.

(** The object's state: the in-memory map [this.sessions], the value
    held by durable storage under the key [sessions], the number of
    [storage.put] calls and [Date.now] reads issued so far, and the
    console. *)
Record Store : Type := {
  sessions : gmap string AnalysisSession;
  storage : option (gmap string AnalysisSession);
  puts : nat;
  ticks : nat;
  console : list LogLine;
}.

(** The collaborators: the clock, and for each [storage.put] call in turn
    whether it fails and with which message. *)
Record Host : Type := {
  clock : nat → Z;
  putFault : nat → option string;
}.

Definition emptyStore : Store :=
  {| sessions := ∅; storage := None; puts := 0; ticks := 0; console := [] |}.

Definition withSessions (m : gmap string AnalysisSession) (st : Store) : Store :=
  {| sessions := m; storage := storage st; puts := puts st;
     ticks := ticks st; console := console st |}.

Definition withLine (l : LogLine) (st : Store) : Store :=
  {| sessions := sessions st; storage := storage st; puts := puts st;
     ticks := ticks st; console := console st ++ [l] |}.

Definition consoleLog (s : string) : M Store unit := modify (withLine (LevelLog, s)).
Definition consoleWarn (s : string) : M Store unit := modify (withLine (LevelWarn, s)).
Definition consoleError (s : string) : M Store unit := modify (withLine (LevelError, s)).

Section Operations.
Variable host : Host.

(** [Date.now()]. *)
Definition dateNow : M Store Z :=
  λ st, (Return (clock host (ticks st)),
         {| sessions := sessions st; storage := storage st; puts := puts st;
            ticks := S (ticks st); console := console st |}).

(** [this.ctx.storage.put("sessions", value)]. *)
Definition storagePut (value : gmap string AnalysisSession) : M Store unit :=
  λ st, match putFault host (puts st) with
        | None =>
            (Return tt,
             {| sessions := sessions st; storage := Some value;
                puts := S (puts st); ticks := ticks st; console := console st |})
        | Some message =>
            (Throw message,
             {| sessions := sessions st; storage := storage st;
                puts := S (puts st); ticks := ticks st; console := console st |})
        end.

Definition saveState : M Store unit :=
  tryCatch
    (let* current := gets sessions in
     storagePut current >>
     consoleLog ("State saved successfully, " +:+ pretty (size current) +:+ " sessions"))
    (λ error,
       consoleError ("Error saving state to persistent storage: " +:+ error) >>
       throw ("Failed to save state: " +:+ error)).

Definition setSession (sessionId : string) (session : AnalysisSession) : M Store unit :=
  modify (λ st, withSessions (<[sessionId := session]> (sessions st)) st).

Definition touch (t : Z) (s : AnalysisSession) : AnalysisSession :=
  {| id := id s; userId := userId s; createdAt := createdAt s;
     lastActivity := t; analyses := analyses s;
     totalAnalyses := totalAnalyses s; averageScore := averageScore s |}.

Definition getSession (sessionId : string) (user : option string)
  : M Store AnalysisSession :=
  let* found := gets (λ st, sessions st !! sessionId) in
  match found with
  | None =>
      let* created := dateNow in
      let* active := dateNow in
      let session :=
        {| id := sessionId; userId := user; createdAt := created;
           lastActivity := active; analyses := [];
           totalAnalyses := 0; averageScore := 0 |} in
      setSession sessionId session >>
      saveState >>
      ret session
  | Some session =>
      let* active := dateNow in
      let session := touch active session in
      setSession sessionId session >>
      saveState >>
      ret session
  end.

(** [typeof v !== 'number' || v < 0 || v > 100]. NaN is of type number
    and both comparisons with it are false; an infinity fails one of
    them. *)
Definition invalidScore (v : JsValue) : bool :=
  match v with
  | JsNumber z => (z <? 0) || (z >? 100)
  | JsNaN => false
  | _ => true
  end.

(** The score kept after validation: the default 50 replaces an invalid
    one, and a valid one stays as it came. *)
Definition checkedScore (v : JsValue) : JsNum :=
  if invalidScore v then Finite 50
  else match v with
       | JsNumber z => Finite z
       | JsNaN => NaN
       | _ => Finite 50
       end.

Definition checked (a : UncheckedAnalysis) : CodeAnalysisResult :=
  {| securityIssues := receivedSecurityIssues a;
     performanceIssues := receivedPerformanceIssues a;
     qualityIssues := receivedQualityIssues a;
     overallScore := checkedScore (receivedOverallScore a);
     summary := receivedSummary a |}.

(** [a.overallScore || 50]: zero and NaN are falsy. *)
Definition scoreOrDefault (a : CodeAnalysisResult) : Z :=
  match overallScore a with
  | Finite z => if z =? 0 then 50 else z
  | NaN => 50
  end.

(** [analyses.reduce((sum, a) => sum + (a.overallScore || 50), 0)]. *)
Definition totalScore (l : list CodeAnalysisResult) : Z :=
  foldl (λ sum a, sum + scoreOrDefault a) 0 l.

(** [Math.round(a / b)] for integers [a] and [b > 0]. *)
Definition roundDiv (a b : Z) : Z := (2 * a + b) / (2 * b).

(** [l.slice(-n)]: the last [n] elements. *)
Definition sliceLast {A} (n : nat) (l : list A) : list A :=
  drop (length l - n) l.

(** The in-memory update of [saveAnalysis], lines 359-371: push, count,
    stamp, recompute the average, truncate. *)
Definition recordAnalysis (analysis : CodeAnalysisResult) (now : Z)
    (s : AnalysisSession) : AnalysisSession :=
  let pushed := analyses s ++ [analysis] in
  let total := totalAnalyses s + 1 in
  {| id := id s; userId := userId s; createdAt := createdAt s;
     lastActivity := now;
     analyses := if (50 <? length pushed)%nat then sliceLast 50 pushed else pushed;
     totalAnalyses := total;
     averageScore := roundDiv (totalScore pushed) total |}.

Definition isEmptyString (s : string) : bool :=
  match s with
  | EmptyString => true
  | _ => false
  end.

Definition saveAnalysis (sessionId : string) (analysis : option UncheckedAnalysis)
  : M Store unit :=
  tryCatch
    (match analysis with
     | Some analysis =>
         if isEmptyString sessionId
         then throw "Session ID and analysis result are required"
         else
           let* session := getSession sessionId None in
           when (invalidScore (receivedOverallScore analysis))
                (consoleWarn "Invalid analysis score, using default value") >>
           let* now := dateNow in
           let session := recordAnalysis (checked analysis) now session in
           setSession sessionId session >>
           saveState >>
           consoleLog ("Analysis saved for session " +:+ sessionId
                       +:+ ", total analyses: " +:+ pretty (totalAnalyses session))
     | None => throw "Session ID and analysis result are required"
     end)
    (λ error,
       consoleError ("Error saving analysis for session " +:+ sessionId
                     +:+ ": " +:+ error) >>
       throw ("Failed to save analysis: " +:+ error)).

(** [Math.max(1, Math.min(limit, 100))]. *)
Definition validLimit (limit : Z) : Z := Z.max 1 (Z.min limit 100).

Definition getAnalysisHistory (sessionId : string) (limit : Z)
  : M Store (list CodeAnalysisResult) :=
  if isEmptyString sessionId
  then consoleWarn "getAnalysisHistory called without sessionId" >> ret []
  else
    let* found := gets (λ st, sessions st !! sessionId) in
    match found with
    | None =>
        consoleLog ("No session found for " +:+ sessionId
                    +:+ ", returning empty history") >>
        ret []
    | Some session =>
        let history := sliceLast (Z.to_nat (validLimit limit)) (analyses session) in
        consoleLog ("Retrieved " +:+ pretty (length history)
                    +:+ " analyses from session " +:+ sessionId) >>
        ret history
    end.

(** The expiry test of [cleanupOldSessions]. *)
Definition expired (now maxAgeMs : Z) (session : AnalysisSession) : bool :=
  now - lastActivity session >? maxAgeMs.

(** One turn of the loop over [this.sessions.entries()]. *)
Definition cleanupStep (now maxAgeMs : Z) (entry : string * AnalysisSession)
    (acc : gmap string AnalysisSession * Z) : gmap string AnalysisSession * Z :=
  if expired now maxAgeMs entry.2
  then (delete entry.1 acc.1, acc.2 + 1)
  else acc.

Definition cleanupOldSessions (maxAgeMs : Z) : M Store Z :=
  let* now := dateNow in
  let* all := gets sessions in
  let swept := foldr (cleanupStep now maxAgeMs) (all, 0) (map_to_list all) in
  modify (withSessions swept.1) >>
  when (swept.2 >? 0) saveState >>
  ret swept.2.

Record SessionStats : Type := {
  statsTotalAnalyses : Z;
  statsAverageScore : Z;
  statsLastActivity : Z;
  statsCreatedAt : Z;
  securityIssuesFound : Z;
  performanceIssuesFound : Z;
  qualityIssuesFound : Z;
}.

(** [analyses.reduce((sum, a) => sum + field(a).length, 0)]. *)
Definition countIssues (field : CodeAnalysisResult → list Issue)
    (l : list CodeAnalysisResult) : Z :=
  foldl (λ sum a, sum + Z.of_nat (length (field a))) 0 l.

Definition getSessionStats (sessionId : string) : M Store SessionStats :=
  let* found := gets (λ st, sessions st !! sessionId) in
  match found with
  | None =>
      ret {| statsTotalAnalyses := 0; statsAverageScore := 0;
             statsLastActivity := 0; statsCreatedAt := 0;
             securityIssuesFound := 0; performanceIssuesFound := 0;
             qualityIssuesFound := 0 |}
  | Some session =>
      ret {| statsTotalAnalyses := totalAnalyses session;
             statsAverageScore := averageScore session;
             statsLastActivity := lastActivity session;
             statsCreatedAt := createdAt session;
             securityIssuesFound := countIssues securityIssues (analyses session);
             performanceIssuesFound := countIssues performanceIssues (analyses session);
             qualityIssuesFound := countIssues qualityIssues (analyses session) |}
  end.

(** *** The HTTP face of the object *)

(** The parsed body of a request: [request.json()] throws on text that
    is not JSON, and may yield [null]. *)
Inductive JsonBody : Type :=
| Malformed
| JsonNull
| JsonAnalysis (a : UncheckedAnalysis).

(** A request: path, method, the query parameters [sessionId], [limit]
    and [maxAge] (the last two already read as integers), and the body. *)
Record Request : Type := {
  pathname : string;
  method : string;
  sessionIdParam : option string;
  limitParam : option Z;
  maxAgeParam : option Z;
  body : JsonBody;
}.

Inductive Payload : Type :=
| SessionJson (s : AnalysisSession)
| SuccessJson
| HistoryJson (history : list CodeAnalysisResult)
| StatsJson (stats : SessionStats)
| RemovedJson (removedSessions : Z)
| PlainText (s : string).

Record Response : Type := {
  status : Z;
  payload : Payload;
}.

(** [response.ok]. *)
Definition ok (r : Response) : bool := (200 <=? status r) && (status r <=? 299).

(** [await request.json()]. *)
Definition requestJson (r : Request) : M Store (option UncheckedAnalysis) :=
  match body r with
  | Malformed => throw "Unexpected token in JSON"
  | JsonNull => ret None
  | JsonAnalysis a => ret (Some a)
  end.

Definition fetch (request : Request) : M Store Response :=
  let sessionId :=
    match sessionIdParam request with
    | Some s => if isEmptyString s then "default"%string else s
    | None => "default"%string
    end in
  let methodNotAllowed := {| status := 405; payload := PlainText "Method Not Allowed" |} in
  tryCatch
    (if String.eqb (pathname request) "/session" then
       if String.eqb (method request) "GET" then
         let* session := getSession sessionId None in
         ret {| status := 200; payload := SessionJson session |}
       else ret methodNotAllowed
     else if String.eqb (pathname request) "/analysis" then
       if String.eqb (method request) "POST" then
         let* analysis := requestJson request in
         saveAnalysis sessionId analysis >>
         ret {| status := 200; payload := SuccessJson |}
       else if String.eqb (method request) "GET" then
         let limit := default 10 (limitParam request) in
         let* history := getAnalysisHistory sessionId limit in
         ret {| status := 200; payload := HistoryJson history |}
       else ret methodNotAllowed
     else if String.eqb (pathname request) "/stats" then
       if String.eqb (method request) "GET" then
         let* stats := getSessionStats sessionId in
         ret {| status := 200; payload := StatsJson stats |}
       else ret methodNotAllowed
     else if String.eqb (pathname request) "/cleanup" then
       if String.eqb (method request) "POST" then
         let maxAge := default 604800000 (maxAgeParam request) in
         let* removedCount := cleanupOldSessions maxAge in
         ret {| status := 200; payload := RemovedJson removedCount |}
       else ret methodNotAllowed
     else ret {| status := 404; payload := PlainText "Not Found" |})
    (λ error,
       consoleError ("Durable Object error: " +:+ error) >>
       ret {| status := 500;
              payload := PlainText ("Internal Server Error: " +:+ error) |}).

End Operations.

End QualityAnalysisState.

(** ** Views of the store used to state its properties *)

Module StoreViews.
Import QualityAnalysisState.

(** The session [getSession] hands back when called in state [st]: a
    fresh one stamped by two clock reads, or the stored one with its
    activity stamp renewed. *)
Definition loadedSession (host : Host) (sessionId : string) (user : option string)
    (st : Store) : AnalysisSession :=
  match sessions st !! sessionId with
  | None =>
      {| id := sessionId; userId := user;
         createdAt := clock host (ticks st);
         lastActivity := clock host (S (ticks st));
         analyses := []; totalAnalyses := 0; averageScore := 0 |}
  | Some s => touch (clock host (ticks st)) s
  end.

(** The number of clock reads [getSession] makes. *)
Definition loadTicks (sessionId : string) (st : Store) : nat :=
  match sessions st !! sessionId with
  | None => 2
  | Some _ => 1
  end.

(** The session a successful [saveAnalysis] leaves in memory. *)
Definition savedSession (host : Host) (sessionId : string) (a : UncheckedAnalysis)
    (st : Store) : AnalysisSession :=
  recordAnalysis (checked a)
    (clock host (ticks st + loadTicks sessionId st)%nat)
    (loadedSession host sessionId None st).

(** History and counters of a session, empty for an unknown id. *)
Definition historyOf (st : Store) (sessionId : string) : list CodeAnalysisResult :=
  match sessions st !! sessionId with
  | Some s => analyses s
  | None => []
  end.

Definition totalOf (st : Store) (sessionId : string) : Z :=
  match sessions st !! sessionId with
  | Some s => totalAnalyses s
  | None => 0
  end.

Definition averageOf (st : Store) (sessionId : string) : Z :=
  match sessions st !! sessionId with
  | Some s => averageScore s
  | None => 0
  end.

(** What a session holds once the analyses [l] have been saved to it,
    in this order, since its creation. *)
Definition holds (l : list UncheckedAnalysis) (o : option AnalysisSession) : Prop :=
  match o with
  | None => l = []
  | Some s =>
      l ≠ []
      ∧ totalAnalyses s = Z.of_nat (length l)
      ∧ analyses s = sliceLast 50 (checked <$> l)
      ∧ averageScore s
        = roundDiv (totalScore (sliceLast 51 (checked <$> l))) (Z.of_nat (length l))
  end.

(** [n] successive calls of [saveAnalysis] on one session. *)
Definition saveAll (host : Host) (sessionId : string) (l : list UncheckedAnalysis)
  : M Store unit :=
  forEach l (λ a, saveAnalysis host sessionId (Some a)).

(** An analysis carrying the given score and nothing else. *)
Definition scored (v : JsValue) : UncheckedAnalysis :=
  {| receivedSecurityIssues := []; receivedPerformanceIssues := [];
     receivedQualityIssues := []; receivedOverallScore := v;
     receivedSummary := EmptyString |}.

(** A score that is an integer from [lo] to [hi]. *)
Definition between (lo hi : Z) (n : JsNum) : Prop :=
  match n with
  | Finite z => lo ≤ z ≤ hi
  | NaN => False
  end.

(** The sum of the scores of a list of stored analyses, NaN left out, and
    the rounded mean of the scores when none of them is NaN. *)
Definition sumScores (l : list CodeAnalysisResult) : Z :=
  foldr (λ a sum, match overallScore a with
                  | Finite z => z + sum
                  | NaN => sum
                  end) 0 l.

Definition roundedMean (l : list CodeAnalysisResult) : Z :=
  roundDiv (sumScores l) (Z.of_nat (length l)).

(** A host whose storage never fails and whose clock shows the number of
    reads made so far. *)
Definition reliableHost : Host :=
  {| clock := λ n, Z.of_nat n; putFault := λ _, None |}.

(** A host whose storage rejects every write. *)
Definition brokenHost : Host :=
  {| clock := λ n, Z.of_nat n; putFault := λ _, Some "disk unavailable"%string |}.

(** A host whose storage rejects the write numbered [n] only. *)
Definition failingAt (n : nat) : Host :=
  {| clock := λ k, Z.of_nat k;
     putFault := λ k, if (k =? n)%nat then Some "disk unavailable"%string else None |}.

(** A store with one session idle since time 0 and one active at time
    1000, read when the clock of [reliableHost] shows 1000. *)
Definition idleSession (sessionId : string) (active : Z) : AnalysisSession :=
  {| id := sessionId; userId := None; createdAt := 0; lastActivity := active;
     analyses := []; totalAnalyses := 0; averageScore := 0 |}.

Definition twoSessions : Store :=
  {| sessions := <["old" := idleSession "old" 0]>
                   (<["new" := idleSession "new" 1000]> ∅);
     storage := None; puts := 0; ticks := 1000; console := [] |}.

End StoreViews.

(** ** Promises

    A task is a computation; awaiting it yields its outcome. Tasks handed
    to [Promise.allSettled] or [Promise.all] are run in the order of the
    array, every one of them to its end. *)

Inductive Settled (A : Type) : Type :=
| Fulfilled (value : A)
| Rejected (reason : string).
Arguments Fulfilled {A} value.
Arguments Rejected {A} reason.

(** A promise already settled with the given outcome. *)
Definition await {S A} (o : outcome A) : M S A := λ st, (o, st).

(** Run a task and capture how it ended. *)
Definition settle {S A} (task : M S A) : M S (Settled A) :=
  λ st, match task st with
        | (Return a, st') => (Return (Fulfilled a), st')
        | (Throw message, st') => (Return (Rejected message), st')
        end.

(** [Promise.allSettled(tasks)]. *)
Fixpoint promiseAllSettled {S A} (tasks : list (M S A)) : M S (list (Settled A)) :=
  match tasks with
  | [] => ret []
  | task :: rest =>
      let* r := settle task in
      let* rs := promiseAllSettled rest in
      ret (r :: rs)
  end.

(** [const [a, b, c] = await Promise.all([t1, t2, t3])]: all three tasks
    run; the first rejection in array order, if any, is thrown. *)
Definition promiseAll3 {S A} (t1 t2 t3 : M S A) : M S (A * A * A) :=
  let* r1 := settle t1 in
  let* r2 := settle t2 in
  let* r3 := settle t3 in
  match r1, r2, r3 with
  | Fulfilled a, Fulfilled b, Fulfilled c => ret (a, b, c)
  | Rejected reason, _, _ => throw reason
  | _, Rejected reason, _ => throw reason
  | _, _, Rejected reason => throw reason
  end.

(** ** Analysis workflow (src/workflows/analysis-workflow.ts) *)

Module AnalysisWorkflow.

Inductive AnalysisType : Type := security | performance | quality.

Definition sameType (a b : AnalysisType) : bool :=
  match a, b with
  | security, security | performance, performance | quality, quality => true
  | _, _ => false
  end.

(** [analysisTypes.includes(t)]. *)
Definition includes (analysisTypes : list AnalysisType) (t : AnalysisType) : bool :=
  existsb (sameType t) analysisTypes.

Record AnalysisWorkflowInput : Type := {
  code : string;
  language : option string;
  analysisTypes : list AnalysisType;
  sessionId : string;
  userId : option string;
}.

Record Finding : Type := {
  findingType : string;
  severity : string;
  line : Z;
  description : string;
  recommendation : string;
}.

(** The value an analysis call fulfils with. *)
Record Report : Type := {
  vulnerabilities : option (list Finding);
  issues : option (list Finding);
  score : Z;
  summary : string;
}.

(** What a field of [results] holds: the fulfilled value of the call, or
    the object [{ error: message }]. *)
Inductive AspectResult : Type :=
| Analysed (report : Report)
| ErrorObject (error : string).

(** [results]: a field is absent until it is assigned. *)
Record Results : Type := {
  securityResult : option AspectResult;
  performanceResult : option AspectResult;
  qualityResult : option AspectResult;
}.

(** The three analysis calls, each with the outcome of its promise. *)
Record Analyzers : Type := {
  analyzeSecurity : string → outcome Report;
  analyzePerformance : string → outcome Report;
  analyzeQuality : string → outcome Report;
}.

(** The calls as the source has them: fixed reports, never rejected. *)
Definition simulated : Analyzers :=
  {| analyzeSecurity := λ _,
       Return {| vulnerabilities :=
                   Some [ {| findingType := "SQL Injection"; severity := "high";
                             line := 15;
                             description := "Potential SQL injection vulnerability detected";
                             recommendation := "Use parameterized queries" |} ];
                 issues := None; score := 75;
                 summary := "Found 1 high-severity security issue" |};
     analyzePerformance := λ _,
       Return {| vulnerabilities := None;
                 issues :=
                   Some [ {| findingType := "N+1 Query Problem"; severity := "medium";
                             line := 23;
                             description := "Potential N+1 query issue in loop";
                             recommendation := "Use eager loading or batch queries" |} ];
                 score := 80;
                 summary := "Found 1 performance optimization opportunity" |};
     analyzeQuality := λ _,
       Return {| vulnerabilities := None;
                 issues :=
                   Some [ {| findingType := "Code Complexity"; severity := "low";
                             line := 8;
                             description := "Function complexity is high";
                             recommendation := "Consider breaking into smaller functions" |} ];
                 score := 85;
                 summary := "Code quality is good with minor improvements needed" |} |}.

(** [analysisResults[index]], whose [status] is then read: an index past
    the end yields [undefined] and the read throws. *)
Definition settledAt {A} (analysisResults : list (Settled A)) (index : nat)
  : M unit (Settled A) :=
  match analysisResults !! index with
  | Some r => ret r
  | None => throw "Cannot read properties of undefined (reading 'status')"
  end.

(** [r.status === 'fulfilled' ? r.value : { error: message }]. *)
Definition valueOr (message : string) (r : Settled Report) : AspectResult :=
  match r with
  | Fulfilled value => Analysed value
  | Rejected _ => ErrorObject message
  end.

Definition performParallelAnalysis (this : Analyzers) (input : AnalysisWorkflowInput)
  : M unit Results :=
  let code := code input in
  let analysisTypes := analysisTypes input in
  let tasks : list (M unit Report) := [] in
  let tasks :=
    if includes analysisTypes security
    then tasks ++ [await (analyzeSecurity this code)] else tasks in
  let tasks :=
    if includes analysisTypes performance
    then tasks ++ [await (analyzePerformance this code)] else tasks in
  let tasks :=
    if includes analysisTypes quality
    then tasks ++ [await (analyzeQuality this code)] else tasks in
  let* analysisResults := promiseAllSettled tasks in
  let index := 0%nat in
  let* afterSecurity :=
    if includes analysisTypes security then
      let* r := settledAt analysisResults index in
      ret (Some (valueOr "Security analysis failed" r), S index)
    else ret (None, index) in
  let index := afterSecurity.2 in
  let* afterPerformance :=
    if includes analysisTypes performance then
      let* r := settledAt analysisResults index in
      ret (Some (valueOr "Performance analysis failed" r), S index)
    else ret (None, index) in
  let index := afterPerformance.2 in
  let* afterQuality :=
    if includes analysisTypes quality then
      let* r := settledAt analysisResults index in
      ret (Some (valueOr "Quality analysis failed" r))
    else ret None in
  ret {| securityResult := afterSecurity.1;
         performanceResult := afterPerformance.1;
         qualityResult := afterQuality |}.

(** The field expected for an aspect: absent when not requested, else the
    report of its call or its error object. *)
Definition expectedField (requested : bool) (message : string)
    (o : outcome Report) : option AspectResult :=
  if requested then
    Some match o with
         | Return report => Analysed report
         | Throw _ => ErrorObject message
         end
  else None.

End AnalysisWorkflow.

(** ** Chat agents *)

(** Text operations of the agents. *)
Module TextOps.
Import Text.

Definition newline : ascii := ascii_of_nat 10.

(** JavaScript white space, ASCII part: tab, line feed, vertical tab,
    form feed, carriage return, space. *)
Definition isSpace (c : ascii) : bool :=
  let n := nat_of_ascii c in
  ((9 <=? n) && (n <=? 13))%nat || (n =? 32)%nat.

(** [\w]. *)
Definition isWordChar (c : ascii) : bool :=
  let n := nat_of_ascii c in
  (((48 <=? n) && (n <=? 57)) || ((65 <=? n) && (n <=? 90))
   || ((97 <=? n) && (n <=? 122)) || (n =? 95))%nat.

Fixpoint dropWhile (p : ascii → bool) (s : text) : text :=
  match s with
  | [] => []
  | c :: s' => if p c then dropWhile p s' else s
  end.

(** [s.trim()]. *)
Definition trim (s : text) : text :=
  reverse (dropWhile isSpace (reverse (dropWhile isSpace s))).

(** [!code?.trim()] for a string [code]. *)
Definition isBlank (code : string) : bool :=
  match trim (lit code) with
  | [] => true
  | _ => false
  end.

(** The text after the first occurrence of [k]. *)
Fixpoint afterFirst (k s : text) : option text :=
  if startsWith k s then Some (drop (length k) s)
  else match s with
       | [] => None
       | _ :: s' => afterFirst k s'
       end.

(** The text before the first occurrence of [k]. *)
Fixpoint beforeFirst (k s : text) : option text :=
  if startsWith k s then Some []
  else match s with
       | [] => None
       | c :: s' => (c ::.) <$> beforeFirst k s'
       end.

(** The inside of [content.match(/```[\s\S]*?```/)[0]]: what stands
    between the first fence and the nearest fence after it. *)
Definition fencedInner (content : text) : option text :=
  rest ← afterFirst Router.fence content;
  beforeFirst Router.fence rest.

(** [m.replace(/```[\w]*\n?/, '').replace(/```$/, '')] applied to a
    match [m] with the given inside: the opening fence goes with the
    language tag and one line feed after it, and the closing fence goes. *)
Definition stripFences (inner : text) : text :=
  match dropWhile isWordChar inner with
  | c :: rest => if Ascii.eqb c newline then rest else c :: rest
  | [] => []
  end.

(** [codeMatch ? codeMatch[0].replace(...).replace(...) : content]. *)
Definition extractCode (content : string) : string :=
  match fencedInner (lit content) with
  | Some inner => string_of_list_ascii (stripFences inner)
  | None => content
  end.

(** [s.split('\n')]. *)
Fixpoint splitLines (s : text) : list text :=
  match s with
  | [] => [[]]
  | c :: s' =>
      if Ascii.eqb c newline then [] :: splitLines s'
      else match splitLines s' with
           | first :: others => (c :: first) :: others
           | [] => [[c]]
           end
  end.

Definition lines (s : string) : list string :=
  string_of_list_ascii <$> splitLines (lit s).

Definition toLowerString (s : string) : string :=
  string_of_list_ascii (toLowerCase (lit s)).

(** [s.charAt(0).toUpperCase() + s.slice(1)]. *)
Definition toUpperChar (c : ascii) : ascii :=
  let n := nat_of_ascii c in
  if ((97 <=? n) && (n <=? 122))%nat then ascii_of_nat (n - 32) else c.

Definition capitalize (s : string) : string :=
  match s with
  | EmptyString => EmptyString
  | String c rest => String (toUpperChar c) rest
  end.

End TextOps.

(** What the two agents share: their state, the Workers AI binding, the
    report template and the streaming of the response. *)
Module Agent.
Import TextOps.

(** The answer of [env.AI.run]: a reply whose [response] field may be
    absent, or a thrown error. *)
Inductive AiOutcome : Type :=
| AiReply (response : option string)
| AiFailure (message : string).

(** The environment of an agent: the Workers AI binding, absent or
    answering each call (numbered in order) from the system prompt and the
    user message; the host of the session store; the status text the
    runtime gives a response of a given status. *)
Record AgentHost : Type := {
  ai : option (nat → string → string → AiOutcome);
  storeHost : QualityAnalysisState.Host;
  reasonPhrase : Z → string;
}.

(** The state an agent acts on: the session store it reaches through
    its stub, the number of AI calls made, the text written to the
    response stream, the number of [onFinish] calls, and its console. *)
Record AgentState : Type := {
  durable : QualityAnalysisState.Store;
  aiCalls : nat;
  stream : list string;
  finishCalls : nat;
  agentConsole : list LogLine;
}.

Definition initialState : AgentState :=
  {| durable := QualityAnalysisState.emptyStore; aiCalls := 0; stream := [];
     finishCalls := 0; agentConsole := [] |}.

Definition consoleLog (s : string) : M AgentState unit :=
  modify (λ st, {| durable := durable st; aiCalls := aiCalls st; stream := stream st;
                   finishCalls := finishCalls st;
                   agentConsole := agentConsole st ++ [(LevelLog, s)] |}).

Definition consoleError (s : string) : M AgentState unit :=
  modify (λ st, {| durable := durable st; aiCalls := aiCalls st; stream := stream st;
                   finishCalls := finishCalls st;
                   agentConsole := agentConsole st ++ [(LevelError, s)] |}).

(** [dataStream.writeText(s)]. *)
Definition writeText (s : string) : M AgentState unit :=
  modify (λ st, {| durable := durable st; aiCalls := aiCalls st;
                   stream := stream st ++ [s];
                   finishCalls := finishCalls st; agentConsole := agentConsole st |}).

(** [if (onFinish) { onFinish(); }]. *)
Definition finish (onFinish : bool) : M AgentState unit :=
  when onFinish
    (modify (λ st, {| durable := durable st; aiCalls := aiCalls st; stream := stream st;
                      finishCalls := S (finishCalls st);
                      agentConsole := agentConsole st |})).

(** A computation of the session store, run on the agent's store. *)
Definition onDurable {A} (c : M QualityAnalysisState.Store A) : M AgentState A :=
  λ st, match c (durable st) with
        | (r, d) => (r, {| durable := d; aiCalls := aiCalls st; stream := stream st;
                           finishCalls := finishCalls st;
                           agentConsole := agentConsole st |})
        end.

(** [await run("@cf/meta/llama-3.3-70b-instruct-fp8-fast", { messages })]
    on a binding that is present. *)
Definition aiRun (run : nat → string → string → AiOutcome)
    (systemPrompt userMessage : string) : M AgentState (option string) :=
  λ st, let st' := {| durable := durable st; aiCalls := S (aiCalls st);
                      stream := stream st; finishCalls := finishCalls st;
                      agentConsole := agentConsole st |} in
        match run (aiCalls st) systemPrompt userMessage with
        | AiReply response => (Return response, st')
        | AiFailure message => (Throw message, st')
        end.

Definition systemPrompt (analysisType : string) : string :=
  "You are an expert code quality analyst. Analyze the following code for "
  +:+ analysisType +:+ " and provide detailed feedback in a structured format.

Focus on:
- Specific issues with line numbers when possible
- Severity levels (low, medium, high, critical)
- Actionable suggestions for improvement
- Best practices recommendations

Respond in a clear, structured format that a developer can easily understand and act upon.".

Definition userMessage (code : string) : string :=
  "Please analyze this code:

" +:+ code.

Definition securityFocus : string := "security vulnerabilities and potential exploits".
Definition performanceFocus : string := "performance issues and optimization opportunities".
Definition qualityFocus : string := "code quality, maintainability, and best practices".

Definition combinedAnalysis (securityAnalysis performanceAnalysis qualityAnalysis : string)
  : string :=
  "# 🔍 Code Quality Analysis Report

## 🛡️ Security Analysis
" +:+ securityAnalysis +:+ "

## ⚡ Performance Analysis  
" +:+ performanceAnalysis +:+ "

## 📋 Quality Analysis
" +:+ qualityAnalysis +:+ "

## 📊 Summary
Your code has been analyzed for security vulnerabilities, performance issues, and quality concerns. Review the specific recommendations above to improve your code.

*Analysis powered by Cloudflare Workers AI (Llama 3.3)*".

Definition newlineString : string := String newline EmptyString.

(** The chunks written for a report: each line followed by a line feed. *)
Definition chunksOf (report : string) : list string :=
  (λ chunk, chunk +:+ newlineString) <$> lines report.

(** [for (const chunk of report.split('\n')) dataStream.writeText(chunk + '\n')]. *)
Definition streamReport (report : string) : M AgentState unit :=
  forEach (lines report) (λ chunk, writeText (chunk +:+ newlineString)).

Definition analysisErrorText (error : string) : string :=
  "❌ Analysis Error: " +:+ error +:+ "

Please try again or contact support if the issue persists.".

(** An operation that leaves the response stream and the [onFinish]
    count as they were. *)
Definition sameOutput (st st' : AgentState) : Prop :=
  stream st' = stream st ∧ finishCalls st' = finishCalls st.

End Agent.

(** *** [SimpleCodeAgent] *)

Module SimpleCodeAgent.
Import TextOps Agent.

Definition getAnalysisGuidelines (analysisType : string) : string :=
  let lowered := toLowerString analysisType in
  if String.eqb lowered "security" then
    "
• **Input Validation**: Always validate and sanitize user inputs
• **SQL Injection**: Use parameterized queries, never concatenate SQL
• **XSS Prevention**: Escape output, use Content Security Policy
• **Authentication**: Implement proper session management
• **Authorization**: Check permissions for all sensitive operations
• **Data Encryption**: Encrypt sensitive data at rest and in transit"
  else if String.eqb lowered "performance" then
    "
• **Algorithm Efficiency**: Choose appropriate data structures and algorithms
• **Database Queries**: Avoid N+1 queries, use indexing properly
• **Memory Management**: Prevent memory leaks, use efficient data structures
• **Caching**: Implement appropriate caching strategies
• **Async Operations**: Use asynchronous programming for I/O operations
• **Resource Optimization**: Minimize CPU and memory usage"
  else if String.eqb lowered "quality" then
    "
• **Code Readability**: Use clear variable names and consistent formatting
• **Function Design**: Keep functions small and focused on single responsibilities
• **Error Handling**: Implement comprehensive error handling
• **Testing**: Write unit tests and integration tests
• **Documentation**: Add comments and documentation where needed
• **Code Duplication**: Eliminate duplicate code through refactoring"
  else
    "
• **Best Practices**: Follow language-specific coding standards
• **Maintainability**: Write code that's easy to understand and modify
• **Error Handling**: Implement proper error handling and logging
• **Testing**: Ensure adequate test coverage
• **Documentation**: Document complex logic and APIs".

Definition getFallbackAnalysis (analysisType error : string) : string :=
  "🔧 **Analysis Service Temporarily Unavailable**

I'm currently unable to connect to the AI analysis service. Here's what I can tell you about "
  +:+ analysisType +:+ " analysis:

**" +:+ capitalize analysisType +:+ " Analysis Guidelines:**

" +:+ getAnalysisGuidelines analysisType +:+ "

**Error Details:** " +:+ error +:+ "

**What you can do:**
- Check your code against the guidelines above
- Try again in a few moments
- If the issue persists, please contact support

I'll be back to full functionality soon!".

Definition analyzeWithWorkersAI (host : AgentHost) (code analysisType : string)
  : M AgentState string :=
  if isBlank code then throw "Code input is required for analysis"
  else
    tryCatch
      (match ai host with
       | None => throw "Workers AI binding not available"
       | Some run =>
           let* response := aiRun run (systemPrompt analysisType) (userMessage code) in
           match response with
           | Some result =>
               if QualityAnalysisState.isEmptyString result
               then throw "No response received from Workers AI"
               else ret result
           | None => throw "No response received from Workers AI"
           end
       end)
      (λ error,
         consoleError ("Workers AI analysis error: " +:+ error) >>
         ret (getFallbackAnalysis analysisType error)).

Definition performCodeAnalysis (host : AgentHost) (content : string) (onFinish : bool)
  : M AgentState unit :=
  tryCatch
    (let code := extractCode content in
     let* analyses :=
       promiseAll3 (analyzeWithWorkersAI host code securityFocus)
                   (analyzeWithWorkersAI host code performanceFocus)
                   (analyzeWithWorkersAI host code qualityFocus) in
     let '(securityAnalysis, performanceAnalysis, qualityAnalysis) := analyses in
     streamReport (combinedAnalysis securityAnalysis performanceAnalysis qualityAnalysis) >>
     finish onFinish)
    (λ error,
       consoleError ("Code analysis error: " +:+ error) >>
       writeText (analysisErrorText error) >>
       finish onFinish).

End SimpleCodeAgent.

(** *** [CodeQualityAgent] *)

Module CodeQualityAgent.
Import TextOps Agent.

(** The message of reading [run] off an absent binding. *)
Definition missingBinding : string :=
  "Cannot read properties of undefined (reading 'run')".

Definition analyzeWithWorkersAI (host : AgentHost) (code analysisType : string)
  : M AgentState string :=
  tryCatch
    (match ai host with
     | None => throw missingBinding
     | Some run =>
         let* response := aiRun run (systemPrompt analysisType) (userMessage code) in
         match response with
         | Some result =>
             if QualityAnalysisState.isEmptyString result
             then ret "Analysis completed but no response received."%string
             else ret result
         | None => ret "Analysis completed but no response received."%string
         end
     end)
    (λ error,
       consoleError ("Workers AI analysis error: " +:+ error) >>
       ret ("Analysis error: " +:+ error)).

Definition getSessionId : string := "default-session".

(** [JSON.stringify(analysis)], as the receiver parses it back: JSON
    writes NaN as null. *)
Definition toJson (analysis : QualityAnalysisState.CodeAnalysisResult)
  : QualityAnalysisState.UncheckedAnalysis :=
  {| QualityAnalysisState.receivedSecurityIssues :=
       QualityAnalysisState.securityIssues analysis;
     QualityAnalysisState.receivedPerformanceIssues :=
       QualityAnalysisState.performanceIssues analysis;
     QualityAnalysisState.receivedQualityIssues :=
       QualityAnalysisState.qualityIssues analysis;
     QualityAnalysisState.receivedOverallScore :=
       match QualityAnalysisState.overallScore analysis with
       | Finite z => QualityAnalysisState.JsNumber z
       | NaN => QualityAnalysisState.JsNull
       end;
     QualityAnalysisState.receivedSummary := QualityAnalysisState.summary analysis |}.

(** The request [POST http://localhost/analysis?sessionId=...] sent to
    the store. *)
Definition saveRequest (sessionId : string)
    (analysis : QualityAnalysisState.CodeAnalysisResult)
  : QualityAnalysisState.Request :=
  {| QualityAnalysisState.pathname := "/analysis";
     QualityAnalysisState.method := "POST";
     QualityAnalysisState.sessionIdParam := Some sessionId;
     QualityAnalysisState.limitParam := None;
     QualityAnalysisState.maxAgeParam := None;
     QualityAnalysisState.body := QualityAnalysisState.JsonAnalysis (toJson analysis) |}.

Definition saveAnalysisResult (host : AgentHost)
    (analysis : QualityAnalysisState.CodeAnalysisResult) : M AgentState unit :=
  tryCatch
    (let sessionId := getSessionId in
     let* response :=
       onDurable (QualityAnalysisState.fetch (storeHost host)
                    (saveRequest sessionId analysis)) in
     if negb (QualityAnalysisState.ok response)
     then throw ("Failed to save analysis: "
                 +:+ reasonPhrase host (QualityAnalysisState.status response))
     else consoleLog "Analysis result saved successfully")
    (λ error, consoleError ("Error saving analysis result: " +:+ error)).

Definition mockIssue (suggestion : string) : QualityAnalysisState.Issue :=
  {| QualityAnalysisState.severity := "medium";
     QualityAnalysisState.issue := "Analysis completed";
     QualityAnalysisState.line := Some 1;
     QualityAnalysisState.suggestion := suggestion |}.

(** The result stored for every analysis. *)
Definition analysisResult : QualityAnalysisState.CodeAnalysisResult :=
  {| QualityAnalysisState.securityIssues :=
       [mockIssue "Review security recommendations above"];
     QualityAnalysisState.performanceIssues :=
       [mockIssue "Review performance recommendations above"];
     QualityAnalysisState.qualityIssues :=
       [mockIssue "Review quality recommendations above"];
     QualityAnalysisState.overallScore := Finite 75;
     QualityAnalysisState.summary :=
       "Comprehensive code analysis completed using Workers AI" |}.

Definition performCodeAnalysis (host : AgentHost) (content : string) (onFinish : bool)
  : M AgentState unit :=
  tryCatch
    (let code := extractCode content in
     let* analyses :=
       promiseAll3 (analyzeWithWorkersAI host code securityFocus)
                   (analyzeWithWorkersAI host code performanceFocus)
                   (analyzeWithWorkersAI host code qualityFocus) in
     let '(securityAnalysis, performanceAnalysis, qualityAnalysis) := analyses in
     saveAnalysisResult host analysisResult >>
     streamReport (combinedAnalysis securityAnalysis performanceAnalysis qualityAnalysis) >>
     finish onFinish)
    (λ error,
       consoleError ("Code analysis error: " +:+ error) >>
       writeText (analysisErrorText error) >>
       finish onFinish).

End CodeQualityAgent.

(** ** Sample environments *)

Module Samples.
Import AnalysisWorkflow Agent.

(** Analysis calls of which the security one is rejected. *)
Definition securityDown : Analyzers :=
  {| analyzeSecurity := λ _, Throw "model unavailable";
     analyzePerformance := analyzePerformance simulated;
     analyzeQuality := analyzeQuality simulated |}.

Definition allAspects (source : string) : AnalysisWorkflowInput :=
  {| code := source; language := None;
     analysisTypes := [security; performance; quality];
     sessionId := "s"; userId := None |}.


(** A model that fails on its first call and answers the later ones. *)
Definition flakyModel (n : nat) (_ _ : string) : AiOutcome :=
  if (n =? 0)%nat then AiFailure "timeout" else AiReply (Some "looks fine"%string).

Definition flakyAgent : AgentHost :=
  {| ai := Some flakyModel; storeHost := StoreViews.reliableHost;
     reasonPhrase := λ _, "Internal Server Error"%string |}.

(** An agent whose session store cannot write. *)
Definition brokenAgent : AgentHost :=
  {| ai := Some flakyModel; storeHost := StoreViews.brokenHost;
     reasonPhrase := λ _, "Internal Server Error"%string |}.

End Samples.

(** ** Activation of the session store, and the agent's reading side *)

Module Activation.
Import QualityAnalysisState.

(** The constructor of [QualityAnalysisState], run when the object is
    brought up again on what a previous instance left in durable storage:
    the map starts empty, and is replaced by the stored one when
    [storage.get("sessions")] yields a value. [getFault] is the error of
    that read, if it fails; the map is then reset to empty. Counters and
    console carry on. *)
Definition activate (getFault : option string) (previous : Store) : Store :=
  match getFault with
  | None =>
      let loaded := default ∅ (storage previous) in
      {| sessions := loaded; storage := storage previous;
         puts := puts previous; ticks := ticks previous;
         console := console previous
                    ++ [(LevelLog, "QualityAnalysisState initialized with "
                                   +:+ pretty (size loaded) +:+ " sessions")] |}
  | Some error =>
      {| sessions := ∅; storage := storage previous;
         puts := puts previous; ticks := ticks previous;
         console := console previous
                    ++ [(LevelError, "Error initializing QualityAnalysisState: "
                                     +:+ error)] |}
  end.

End Activation.

Module CodeQualityAgentChat.
Import Agent.

(** The request [GET http://localhost/analysis?sessionId=...&limit=...]. *)
Definition historyRequest (sessionId : string) (limit : Z)
  : QualityAnalysisState.Request :=
  {| QualityAnalysisState.pathname := "/analysis";
     QualityAnalysisState.method := "GET";
     QualityAnalysisState.sessionIdParam := Some sessionId;
     QualityAnalysisState.limitParam := Some limit;
     QualityAnalysisState.maxAgeParam := None;
     QualityAnalysisState.body := QualityAnalysisState.Malformed |}.

(** [await response.json() as CodeAnalysisResult[]]: the history as the
    JSON text of the response carries it, so an entry whose score is NaN
    arrives with the score null. The route answers 200 with a history
    only. *)
Definition asHistory (p : QualityAnalysisState.Payload)
  : list QualityAnalysisState.UncheckedAnalysis :=
  match p with
  | QualityAnalysisState.HistoryJson history => CodeQualityAgent.toJson <$> history
  | _ => []
  end.

(** [CodeQualityAgent.getAnalysisHistory(limit)]. *)
Definition getAnalysisHistory (host : AgentHost) (limit : Z)
  : M AgentState (list QualityAnalysisState.UncheckedAnalysis) :=
  tryCatch
    (let sessionId := CodeQualityAgent.getSessionId in
     let* response :=
       onDurable (QualityAnalysisState.fetch (storeHost host)
                    (historyRequest sessionId limit)) in
     if negb (QualityAnalysisState.ok response)
     then throw ("Failed to get analysis history: "
                 +:+ reasonPhrase host (QualityAnalysisState.status response))
     else
       let history := asHistory (QualityAnalysisState.payload response) in
       consoleLog ("Retrieved " +:+ pretty (length history)
                   +:+ " analysis results from history") >>
       ret history)
    (λ error,
       consoleError ("Error retrieving analysis history: " +:+ error) >>
       ret []).

(** [onChatMessage]: the last message decides between analysis and
    regular chat. [performRegularChat] hands the conversation to an
    external model and is a parameter; reading [content] off a missing
    last message throws. *)
Definition onChatMessage (host : AgentHost) (performRegularChat : M AgentState unit)
    (messages : list string) (onFinish : bool) : M AgentState unit :=
  match last messages with
  | None => throw "Cannot read properties of undefined (reading 'content')"
  | Some content =>
      if Utils.isCodeAnalysisRequest (Text.lit content)
      then CodeQualityAgent.performCodeAnalysis host content onFinish
      else performRegularChat
  end.

End CodeQualityAgentChat.

(** ** Worker entry point (src/index.ts) *)

Module Worker.
Import Text TextOps Agent.

Definition analysisSystemPrompt : string :=
  "You are an expert code quality analyst. Analyze the provided code for security vulnerabilities, performance issues, and quality problems. Provide detailed feedback with:

1. **Security Issues**: Look for injection vulnerabilities, authentication problems, data exposure risks
2. **Performance Issues**: Identify bottlenecks, inefficient algorithms, memory leaks
3. **Quality Issues**: Check code structure, maintainability, best practices

Format your response clearly with specific issues, severity levels (low/medium/high/critical), and actionable recommendations.".

(** The text returned when the analysis call fails. *)
Definition analysisFallback (error : string) : string :=
  "🔧 **Analysis Service Temporarily Unavailable**

I'm currently unable to connect to the AI analysis service. Here's what you can check manually:

**Security Guidelines:**
• Input validation and sanitization
• SQL injection prevention (use parameterized queries)
• XSS prevention (escape output)
• Authentication and authorization
• Data encryption for sensitive information

**Performance Guidelines:**
• Efficient algorithms and data structures
• Database query optimization
• Memory management and leak prevention
• Caching strategies
• Asynchronous operations for I/O

**Quality Guidelines:**
• Clear variable names and consistent formatting
• Small, focused functions
• Comprehensive error handling
• Unit testing coverage
• Code documentation

**Error Details:** " +:+ error +:+ "

Please try again in a few moments or check your code against these guidelines.".

Definition chatSystemPrompt : string :=
  "You are an AI Code Quality Assistant, a helpful and knowledgeable coding companion. You help developers with:

- Code quality analysis and best practices
- Security, performance, and quality guidance
- Programming language advice
- Debugging and troubleshooting
- General coding questions

Be friendly, professional, and provide practical advice that improves code quality.".

Definition performCodeAnalysis (host : AgentHost) (content : string)
  : M AgentState string :=
  tryCatch
    (match ai host with
     | None => throw "Workers AI binding not available"
     | Some run =>
         let* response := aiRun run analysisSystemPrompt content in
         match response with
         | Some result =>
             if QualityAnalysisState.isEmptyString result
             then ret "Analysis completed but no response received."%string
             else ret result
         | None => ret "Analysis completed but no response received."%string
         end
     end)
    (λ error,
       consoleError ("Code analysis error: " +:+ error) >>
       ret (analysisFallback error)).

Definition performGeneralChat (host : AgentHost) (content : string)
  : M AgentState string :=
  tryCatch
    (match ai host with
     | None => throw "Workers AI binding not available"
     | Some run =>
         let* response := aiRun run chatSystemPrompt content in
         match response with
         | Some result =>
             if QualityAnalysisState.isEmptyString result
             then ret "I'm here to help with your coding questions!"%string
             else ret result
         | None => ret "I'm here to help with your coding questions!"%string
         end
     end)
    (λ error,
       consoleError ("General chat error: " +:+ error) >>
       ret "I apologize, but I'm having trouble processing your request right now. Please try again in a moment."%string).

Record ChatMessage : Type := {
  role : string;
  content : string;
}.

(** What [request.json()] yields: it throws on a body that is not JSON;
    otherwise the value is null or an object, of which the fields
    [messages], [code] and [language] are read. *)
Inductive RequestBody : Type :=
| NotJson
| NullBody
| ObjectBody (messages : option (list ChatMessage)) (code language : option string).

Record Request : Type := {
  method : string;
  pathname : string;
  body : RequestBody;
}.

Inductive Payload : Type :=
| NoBody
| ErrorJson (error : string)
| ChoicesJson (deltaContent : string)
| AnalysisJson (message analysis : string)
| HealthJson (timestamp : string)
| PlainText (s : string).

Record Response : Type := {
  status : Z;
  headers : list (string * string);
  payload : Payload;
}.

Definition allowOrigin : string * string := ("Access-Control-Allow-Origin", "*")%string.
Definition jsonType : string * string := ("Content-Type", "application/json")%string.

Definition preflightHeaders : list (string * string) :=
  [ allowOrigin;
    ("Access-Control-Allow-Methods", "GET, POST, OPTIONS")%string;
    ("Access-Control-Allow-Headers", "Content-Type, Authorization")%string ].

Definition chatHeaders : list (string * string) :=
  [ jsonType; allowOrigin; ("Cache-Control", "no-cache")%string ].

(** [s.split(sep)]. *)
Fixpoint splitOn (sep : ascii) (s : text) : list text :=
  match s with
  | [] => [[]]
  | c :: s' =>
      if Ascii.eqb c sep then [] :: splitOn sep s'
      else match splitOn sep s' with
           | first :: others => (c :: first) :: others
           | [] => [[c]]
           end
  end.

(** [url.pathname.split('/')[2]]. *)
Definition agentType (path : string) : option text :=
  splitOn "/"%char (lit path) !! 2%nat.

(** [value || fallback] on an optional string: absent and empty are falsy. *)
Definition orElse (value : option string) (fallback : string) : string :=
  match value with
  | Some s => if QualityAnalysisState.isEmptyString s then fallback else s
  | None => fallback
  end.

Definition fenceString : string := "```".

Definition analysisPrompt (code : string) (language : option string) : string :=
  "Please analyze this " +:+ orElse language "code"
  +:+ " for security, performance, and quality issues:

" +:+ fenceString +:+ orElse language EmptyString +:+ newlineString
  +:+ code +:+ newlineString +:+ fenceString.

(** [await request.json()]. *)
Definition requestJson (request : Request) : M AgentState RequestBody :=
  match body request with
  | NotJson => throw "Unexpected token in JSON"
  | parsed => ret parsed
  end.

(** The block [if (url.pathname.startsWith('/agents/')) { ... }]: the
    response it returns, or nothing when control falls out of it. *)
Definition agentsRoute (host : AgentHost) (request : Request)
  : M AgentState (option Response) :=
  tryCatch
    (if match agentType (pathname request) with
        | Some segment => bool_decide (segment = lit "simple-code-agent")
        | None => false
        end
     then
       if String.eqb (method request) "POST" then
         let* parsed := requestJson request in
         match parsed with
         | NotJson => throw "Unexpected token in JSON"
         | NullBody => throw "Cannot read properties of null (reading 'messages')"
         | ObjectBody messages _ _ =>
             match last (default [] messages) with
             | None =>
                 ret (Some {| status := 400; headers := [jsonType; allowOrigin];
                              payload := ErrorJson "No messages provided" |})
             | Some lastMessage =>
                 if Router.isCodeAnalysisRequest (lit (content lastMessage)) then
                   let* analysisResult :=
                     performCodeAnalysis host (content lastMessage) in
                   ret (Some {| status := 200; headers := chatHeaders;
                                payload := ChoicesJson analysisResult |})
                 else
                   let* chatResponse :=
                     performGeneralChat host (content lastMessage) in
                   ret (Some {| status := 200; headers := chatHeaders;
                                payload := ChoicesJson chatResponse |})
             end
         end
       else ret None
     else
       ret (Some {| status := 404; headers := [allowOrigin];
                    payload := PlainText "Unknown agent type" |}))
    (λ error,
       consoleError ("Agent error: " +:+ error) >>
       ret (Some {| status := 500; headers := [allowOrigin];
                    payload := PlainText ("Agent Error: " +:+ error) |})).

(** The block for [POST /api/analyze]. *)
Definition analyzeRoute (host : AgentHost) (request : Request) : M AgentState Response :=
  tryCatch
    (let* parsed := requestJson request in
     match parsed with
     | NotJson => throw "Unexpected token in JSON"
     | NullBody => throw "Cannot destructure property 'code' of null"
     | ObjectBody _ code language =>
         match code with
         | Some source =>
             if QualityAnalysisState.isEmptyString source then
               ret {| status := 400; headers := [jsonType; allowOrigin];
                      payload := ErrorJson "Code is required" |}
             else
               let* analysisResult :=
                 performCodeAnalysis host (analysisPrompt source language) in
               ret {| status := 200; headers := [jsonType; allowOrigin];
                      payload := AnalysisJson "Analysis completed" analysisResult |}
         | None =>
             ret {| status := 400; headers := [jsonType; allowOrigin];
                    payload := ErrorJson "Code is required" |}
         end
     end)
    (λ _,
       ret {| status := 400; headers := [jsonType; allowOrigin];
              payload := ErrorJson "Invalid JSON" |}).

(** What follows the agents block. *)
Definition otherRoutes (host : AgentHost) (isoNow : string) (request : Request)
  : M AgentState Response :=
  if String.eqb (pathname request) "/api/analyze" && String.eqb (method request) "POST"
  then analyzeRoute host request
  else if String.eqb (pathname request) "/health"
  then ret {| status := 200; headers := [jsonType; allowOrigin];
              payload := HealthJson isoNow |}
  else ret {| status := 404; headers := [allowOrigin];
              payload := PlainText "Not Found - AI Code Quality Assistant" |}.

(** [fetch(request, env, ctx)]; [isoNow] is [new Date().toISOString()]. *)
Definition fetch (host : AgentHost) (isoNow : string) (request : Request)
  : M AgentState Response :=
  if String.eqb (method request) "OPTIONS" then
    ret {| status := 200; headers := preflightHeaders; payload := NoBody |}
  else if startsWith (lit "/agents/") (lit (pathname request)) then
    let* answered := agentsRoute host request in
    match answered with
    | Some response => ret response
    | None => otherRoutes host isoNow request
    end
  else otherRoutes host isoNow request.

End Worker.

(** ** The remaining steps of the workflow *)

Module AnalysisWorkflowSteps.
Import AnalysisWorkflow.

Record Summary : Type := {
  totalIssues : Z;
  criticalIssues : Z;
  averageScore : Z;
  recommendations : list string;
}.

(** [Object.values(results)]: the fields that were assigned, in the order
    of assignment. *)
Definition values (results : Results) : list AspectResult :=
  option_list (securityResult results)
  ++ option_list (performanceResult results)
  ++ option_list (qualityResult results).

(** One turn of the [forEach] of [generateSummary], on the accumulated
    issues, score total and score count. An error object is skipped, or
    has none of the fields read. *)
Definition collect (acc : list Finding * Z * Z) (result : AspectResult)
  : list Finding * Z * Z :=
  match result with
  | ErrorObject _ => acc
  | Analysed report =>
      let '(allIssues, totalScore, scoreCount) := acc in
      let allIssues := allIssues ++ default [] (vulnerabilities report) in
      let allIssues := allIssues ++ default [] (issues report) in
      if score report =? 0
      then (allIssues, totalScore, scoreCount)
      else (allIssues, totalScore + score report, scoreCount + 1)
  end.

(** [issue.severity === 'high' || issue.severity === 'critical']. *)
Definition isCritical (f : Finding) : bool :=
  String.eqb (severity f) "high" || String.eqb (severity f) "critical".

Definition generateSummary (results : Results) : Summary :=
  let '(allIssues, totalScore, scoreCount) := foldl collect ([], 0, 0) (values results) in
  let criticalIssues := List.filter isCritical allIssues in
  {| totalIssues := Z.of_nat (length allIssues);
     criticalIssues := Z.of_nat (length criticalIssues);
     averageScore :=
       if scoreCount >? 0
       then QualityAnalysisState.roundDiv totalScore scoreCount else 0;
     recommendations :=
       [ "Review and fix critical security issues first";
         "Optimize performance bottlenecks";
         "Improve code maintainability" ]%string |}.

Record AnalysisWorkflowOutput : Type := {
  outputSessionId : string;
  analysisId : string;
  results : Results;
  summary : Summary;
  completedAt : Z;
}.

Definition Console : Type := list LogLine.

Definition consoleLog (s : string) : M Console unit :=
  modify (λ lines, lines ++ [(LevelLog, s)]).

Definition consoleError (s : string) : M Console unit :=
  modify (λ lines, lines ++ [(LevelError, s)]).

(** A step that touches nothing but its own result. *)
Definition step {A} (c : M unit A) : M Console A := λ lines, ((c tt).1, lines).

Definition initializeAnalysisSession (session analysis : string) : M Console unit :=
  consoleLog ("Initializing analysis session: " +:+ session
              +:+ ", analysis: " +:+ analysis).

Definition storeAnalysisResults (session : string) : M Console unit :=
  consoleLog ("Storing analysis results for session: " +:+ session).

Definition sendNotifications (s : Summary) : M Console unit :=
  consoleLog "Sending analysis notifications..." >>
  when (criticalIssues s >? 0)
    (consoleLog ("⚠️ Critical issues found: " +:+ pretty (criticalIssues s))).

Definition storeErrorState (session analysis : string) : M Console unit :=
  consoleError ("Storing error state for session: " +:+ session
                +:+ ", analysis: " +:+ analysis).

(** [run(input)]; [uuid] is the value of [crypto.randomUUID()] and
    [finishedAt] the clock reading taken for [completedAt]. *)
Definition run (this : Analyzers) (uuid : string) (finishedAt : Z)
    (input : AnalysisWorkflowInput) : M Console AnalysisWorkflowOutput :=
  tryCatch
    (initializeAnalysisSession (sessionId input) uuid >>
     let* analysisResults := step (performParallelAnalysis this input) in
     let* summarised :=
       (consoleLog "Generating analysis summary..." >>
        ret (generateSummary analysisResults)) in
     storeAnalysisResults (sessionId input) >>
     sendNotifications summarised >>
     ret {| outputSessionId := sessionId input; analysisId := uuid;
            results := analysisResults; summary := summarised;
            completedAt := finishedAt |})
    (λ error,
       consoleError ("Analysis workflow failed: " +:+ error) >>
       storeErrorState (sessionId input) uuid >>
       throw ("Analysis workflow failed: " +:+ error)).

(** The findings of an aspect as the summary counts them. *)
Definition findingsOf (o : option AspectResult) : list Finding :=
  match o with
  | Some (Analysed report) =>
      default [] (vulnerabilities report) ++ default [] (issues report)
  | _ => []
  end.

Definition allFindings (r : Results) : list Finding :=
  findingsOf (securityResult r) ++ findingsOf (performanceResult r)
  ++ findingsOf (qualityResult r).

(** The score of an aspect as the summary counts it: none for a failed
    or absent aspect, and none for a score of 0. *)
Definition countedScore (o : option AspectResult) : list Z :=
  match o with
  | Some (Analysed report) => if score report =? 0 then [] else [score report]
  | _ => []
  end.

Definition allScores (r : Results) : list Z :=
  countedScore (securityResult r) ++ countedScore (performanceResult r)
  ++ countedScore (qualityResult r).

Definition sumZ (l : list Z) : Z := foldr Z.add 0 l.

End AnalysisWorkflowSteps.

(** ** Utilities (lib/utils) *)

Module UtilsMore.
Import Text TextOps.

(** [new Date(timestamp).getTime()]: the time value of the date, which
    is NaN for a timestamp that is NaN or more than 8.64e15 ms away from
    the epoch. *)
Definition timeValue (timestamp : JsNum) : JsNum :=
  match timestamp with
  | Finite t => if Z.abs t >? 8640000000000000 then NaN else Finite t
  | NaN => NaN
  end.

(** [formatTimestamp(timestamp)], with [now] the time value of
    [new Date()] at the call. With a time value of NaN the difference is
    NaN, every comparison fails, and the number of days shown is NaN. *)
Definition formatTimestamp (timestamp : JsNum) (now : Z) : string :=
  match timeValue timestamp with
  | Finite date =>
      let diff := now - date in
      if diff <? 60000 then "just now"
      else if diff <? 3600000 then pretty (diff / 60000) +:+ "m ago"
      else if diff <? 86400000 then pretty (diff / 3600000) +:+ "h ago"
      else pretty (diff / 86400000) +:+ "d ago"
  | NaN => "NaNd ago"
  end.

Fixpoint takeWhile (p : ascii → bool) (s : text) : text :=
  match s with
  | [] => []
  | c :: s' => if p c then c :: takeWhile p s' else []
  end.

Record Extracted : Type := {
  code : string;
  language : option string;
}.

(** [extractCodeFromMessage(content)]: the first match of
    [/```(\w+)?\n?([\s\S]*?)```/]. Group 1 is the run of word characters
    after the opening fence, group 2 what follows it, and one line feed, up
    to the nearest fence. *)
Definition extractCodeFromMessage (content : string) : option Extracted :=
  match fencedInner (lit content) with
  | Some inner =>
      let tag := takeWhile isWordChar inner in
      Some {| code := string_of_list_ascii (trim (stripFences inner));
              language := match tag with
                          | [] => None
                          | _ => Some (string_of_list_ascii tag)
                          end |}
  | None => None
  end.

(** [throttle(func, delay)]: the state of the returned function is the
    time of the last call let through, 0 at first. A call at time [now]
    yields the new state and whether [func] was run. *)
Definition throttled (delay : Z) (lastCall now : Z) : Z * bool :=
  if now - lastCall >=? delay then (now, true) else (lastCall, false).

(** The times, among successive calls, at which [func] was run. *)
Fixpoint throttleRuns (delay lastCall : Z) (calls : list Z) : list Z :=
  match calls with
  | [] => []
  | now :: later =>
      let '(lastCall', ran) := throttled delay lastCall now in
      if ran then now :: throttleRuns delay lastCall' later
      else throttleRuns delay lastCall' later
  end.

(** Successive times that are each at least [delay] after the one before,
    starting after [previous]. *)
Fixpoint spacedBy (delay previous : Z) (times : list Z) : Prop :=
  match times with
  | [] => True
  | t :: later => (delay ≤ t - previous)%Z ∧ spacedBy delay t later
  end.

(** A message that wraps [source] in a fenced block tagged [tag]. *)
Definition fencedMessage (before tag source after : text) : string :=
  string_of_list_ascii
    (before ++ Router.fence ++ tag ++ newline :: source ++ Router.fence ++ after).

End UtilsMore.

(** ** Further sample states *)

Module MoreSamples.
Import QualityAnalysisState StoreViews.

(** The store after three analyses of score 80 were saved to session [s]. *)
Definition threeSaved : Store :=
  (saveAll reliableHost "s" (replicate 3 (scored (JsNumber 80))) emptyStore).2.

(** An analysis reporting one security issue and nothing else. *)
Definition oneSecurityIssue : UncheckedAnalysis :=
  {| receivedSecurityIssues :=
       [ {| severity := "high"; issue := "SQL injection"; line := Some 3;
            suggestion := "Use parameterized queries" |} ];
     receivedPerformanceIssues := []; receivedQualityIssues := [];
     receivedOverallScore := JsNumber 60; receivedSummary := "one finding" |}.

(** [twoSessions] with its map also held by durable storage. *)
Definition twoPersisted : Store :=
  {| sessions := sessions twoSessions; storage := Some (sessions twoSessions);
     puts := 0; ticks := 1000; console := [] |}.

End MoreSamples.

Module WorkflowSamples.
Import AnalysisWorkflow.

(** Analysis calls that are all rejected. *)
Definition allDown : Analyzers :=
  {| analyzeSecurity := λ _, Throw "model unavailable";
     analyzePerformance := λ _, Throw "model unavailable";
     analyzeQuality := λ _, Throw "model unavailable" |}.

(** Analysis calls of which the security one reports a score of 0. *)
Definition securityZero : Analyzers :=
  {| analyzeSecurity := λ _,
       Return {| vulnerabilities := Some []; issues := None; score := 0;
                 summary := "nothing usable" |};
     analyzePerformance := analyzePerformance simulated;
     analyzeQuality := analyzeQuality simulated |}.

End WorkflowSamples.

(** ** Views of the Worker's requests and responses *)

Module WorkerViews.
Import Agent Worker.

(** The source text a body carries for [/api/analyze], if any: a
    non-empty [code] field of an object. *)
Definition suppliedCode (b : RequestBody) : option string :=
  match b with
  | ObjectBody _ (Some source) _ =>
      if QualityAnalysisState.isEmptyString source then None else Some source
  | _ => None
  end.

(** The last message a body carries for the chat route, if any. *)
Definition lastMessage (b : RequestBody) : option ChatMessage :=
  match b with
  | ObjectBody messages _ _ => last (default [] messages)
  | _ => None
  end.

(** What [/api/analyze] says of a body without code. *)
Definition rejection (b : RequestBody) : string :=
  match b with
  | ObjectBody _ _ _ => "Code is required"
  | _ => "Invalid JSON"
  end.

(** A response any browser origin may read, with one of the four statuses
    the Worker uses. *)
Definition readable (r : Response) : Prop :=
  allowOrigin ∈ headers r ∧ status r ∈ [200; 400; 404; 500]%Z.

(** The text [performCodeAnalysis] settles on for an answer of the model. *)
Definition analysisText (outcome : option AiOutcome) : string :=
  match outcome with
  | None => analysisFallback "Workers AI binding not available"
  | Some (AiFailure message) => analysisFallback message
  | Some (AiReply response) =>
      orElse response "Analysis completed but no response received."
  end.

(** The answer of the model to the next call, if the binding is there. *)
Definition nextAnswer (host : AgentHost) (st : AgentState)
    (systemPrompt userMessage : string) : option AiOutcome :=
  (λ run, run (aiCalls st) systemPrompt userMessage) <$> ai host.

Definition suppliedLanguage (b : RequestBody) : option string :=
  match b with
  | ObjectBody _ _ language => language
  | _ => None
  end.

(** A path the Worker takes for the chat route. *)
Definition isChatPath (path : string) : Prop :=
  Text.startsWith (Text.lit "/agents/") (Text.lit path) = true
  ∧ agentType path = Some (Text.lit "simple-code-agent").

Definition analyzeRequest (b : RequestBody) : Request :=
  {| method := "POST"; pathname := "/api/analyze"; body := b |}.

Definition chatRequest (b : RequestBody) : Request :=
  {| method := "POST"; pathname := "/agents/simple-code-agent"; body := b |}.

(** An environment without the Workers AI binding. *)
Definition unboundAgent : AgentHost :=
  {| ai := None; storeHost := StoreViews.reliableHost;
     reasonPhrase := λ _, "Internal Server Error"%string |}.

End WorkerViews.

(** * Properties *)

(** ** Text search *)

Module TextFacts.
Import Text.

Lemma startsWith_spec k s :
  startsWith k s = true ↔ ∃ post, s = k ++ post.
Proof.
  revert s. induction k as [|a k IH]; intros s; simpl.
  - split; [intros _; by exists s | done].
  - destruct s as [|b s].
    + split; [done | intros [post Hp]; discriminate].
    + rewrite andb_true_iff, IH. split.
      * intros [Hab [post ->]]. apply Ascii.eqb_eq in Hab as ->. by exists post.
      * intros [post Hp]. injection Hp as -> ->. split; [apply Ascii.eqb_refl | by exists post].
Qed.

Lemma includes_spec s k : includes s k = true ↔ contains s k.
Proof.
  induction s as [|c s IH]; simpl.
  - rewrite orb_false_r, startsWith_spec. split.
    + intros [post Hp]. by exists [], post.
    + intros (pre & post & Hp). destruct pre; simpl in Hp; [by exists post |discriminate].
  - rewrite orb_true_iff, startsWith_spec, IH. split.
    + intros [[post Hp] | (pre & post & Hp)].
      * by exists [], post.
      * exists (c :: pre), post. by rewrite Hp.
    + intros (pre & post & Hp). destruct pre as [|d pre]; simpl in Hp.
      * left. by exists post.
      * right. injection Hp as -> ->. by exists pre, post.
Qed.

End TextFacts.

(** ** The matcher decides the language of a pattern *)

Module RegExpFacts.
Import Text RegExp.

Lemma nullable_spec r : nullable r = true ↔ matches r [].
Proof.
  induction r as [| |p|r1 IH1 r2 IH2|r1 IH1 r2 IH2|r IH]; simpl.
  - split; [done | inversion 1].
  - split; [constructor | done].
  - split; [done | inversion 1].
  - rewrite andb_true_iff, IH1, IH2. split.
    + intros [H1 H2]. apply (m_cat _ _ [] []); assumption.
    + inversion 1 as [| |? ? s1 s2 H1 H2 Hr Hs| | | |]; subst.
      apply app_eq_nil in Hs as [-> ->]. by split.
  - rewrite orb_true_iff, IH1, IH2. split.
    + intros [H|H]; [by apply m_or_l | by apply m_or_r].
    + inversion 1; subst; [by left | by right].
  - split; [constructor | done].
Qed.

Lemma deriv_complete r s0 :
  matches r s0 → ∀ c s, s0 = c :: s → matches (deriv c r) s.
Proof.
  induction 1 as [|p d Hp|r1 r2 s1 s2 H1 IH1 H2 IH2|r1 r2 s0 H IH
                 |r1 r2 s0 H IH|r|r s1 s2 H1 IH1 H2 IH2];
    intros c s Heq; simpl.
  - discriminate.
  - injection Heq as -> <-. rewrite Hp. constructor.
  - destruct s1 as [|d s1]; simpl in Heq.
    + apply nullable_spec in H1. rewrite H1. apply m_or_r. by apply IH2.
    + injection Heq as -> <-.
      assert (matches (Cat (deriv c r1) r2) (s1 ++ s2)) as Hc
        by (apply m_cat; [by apply IH1 | done]).
      destruct (nullable r1); [by apply m_or_l | done].
  - apply m_or_l. by apply IH.
  - apply m_or_r. by apply IH.
  - discriminate.
  - destruct s1 as [|d s1]; simpl in Heq.
    + by apply IH2.
    + injection Heq as -> <-. apply m_cat; [by apply IH1 | done].
Qed.

Lemma deriv_sound c r : ∀ s, matches (deriv c r) s → matches r (c :: s).
Proof.
  induction r as [| |p|r1 IH1 r2 IH2|r1 IH1 r2 IH2|r IH]; simpl; intros s H.
  - inversion H.
  - inversion H.
  - destruct (p c) eqn:Hp; inversion H; subst. by constructor.
  - assert (∀ t, matches (Cat (deriv c r1) r2) t → matches (Cat r1 r2) (c :: t))
      as Hcat.
    { intros t Ht. inversion Ht as [| |? ? s1 s2 Ha Hb| | | |]; subst.
      apply (m_cat r1 r2 (c :: s1) s2); [by apply IH1 | done]. }
    destruct (nullable r1) eqn:Hn; [| by apply Hcat].
    inversion H; subst; [by apply Hcat |].
    apply (m_cat r1 r2 [] (c :: s)); [by apply nullable_spec | by apply IH2].
  - inversion H; subst; [apply m_or_l | apply m_or_r]; auto.
  - inversion H as [| |? ? s1 s2 Ha Hb| | | |]; subst.
    apply (m_many_app r (c :: s1) s2); [by apply IH | done].
Qed.

Lemma accepts_spec r s : accepts r s = true ↔ matches r s.
Proof.
  revert r. induction s as [|c s IH]; intros r; simpl.
  - apply nullable_spec.
  - rewrite IH. split; [apply deriv_sound | intros H; by eapply deriv_complete].
Qed.

Lemma matches_many_any s : matches (Many any) s.
Proof.
  induction s as [|c s IH]; [constructor |].
  apply (m_many_app any [c] s); [by constructor | done].
Qed.

(** [test] looks for a matching substring. *)
Lemma test_spec r s :
  test r s = true ↔ ∃ pre m post, s = pre ++ m ++ post ∧ matches r m.
Proof.
  unfold test. rewrite accepts_spec. split.
  - inversion 1 as [| |? ? pre rest _ Hrest| | | |]; subst.
    inversion Hrest as [| |? ? m post Hm _| | | |]; subst.
    by exists pre, m, post.
  - intros (pre & m & post & -> & Hm).
    apply m_cat; [apply matches_many_any |].
    apply m_cat; [done | apply matches_many_any].
Qed.

Lemma matches_chr c m : matches (chr c) m ↔ m = [c].
Proof.
  split.
  - inversion 1 as [|? d Hd| | | | |]; subst. by apply Ascii.eqb_eq in Hd as ->.
  - intros ->. constructor. apply Ascii.eqb_refl.
Qed.

Lemma matches_word k m : matches (word k) m ↔ m = k.
Proof.
  revert m. induction k as [|c k IH]; intros m; simpl.
  - split; [by inversion 1 | intros ->; constructor].
  - split.
    + inversion 1 as [| |? ? s1 s2 H1 H2| | | |]; subst.
      apply matches_chr in H1 as ->. by apply IH in H2 as ->.
    + intros ->. apply (m_cat _ _ [c] k); [by apply matches_chr | by apply IH].
Qed.

Lemma matches_word_i k m :
  matches (word_i k) m ↔ toLowerCase m = toLowerCase k.
Proof.
  revert m. induction k as [|c k IH]; intros m; simpl.
  - split.
    + by inversion 1.
    + destruct m; [constructor | discriminate].
  - split.
    + inversion 1 as [| |? ? s1 s2 H1 H2| | | |]; subst.
      inversion H1 as [|? d Hd| | | | |]; subst.
      apply Ascii.eqb_eq in Hd. apply IH in H2. simpl. by rewrite Hd, H2.
    + destruct m as [|d m]; [discriminate |]. simpl. intros Heq.
      injection Heq as Hd Hm.
      apply (m_cat _ _ [d] m); [| by apply IH].
      constructor. rewrite Hd. apply Ascii.eqb_refl.
Qed.

Lemma matches_oneOf rs m : matches (oneOf rs) m ↔ ∃ r, r ∈ rs ∧ matches r m.
Proof.
  induction rs as [|r rs IH]; simpl.
  - split; [inversion 1 | intros (r & Hr & _); by apply elem_of_nil in Hr].
  - split.
    + inversion 1; subst.
      * exists r. split; [left | done].
      * apply IH in H3 as (r' & Hin & Hm). exists r'. split; [by right | done].
    + intros (r' & Hin & Hm). apply elem_of_cons in Hin as [-> | Hin].
      * by apply m_or_l.
      * apply m_or_r, IH. by exists r'.
Qed.

Lemma matches_many_class p m :
  matches (Many (Class p)) m ↔ Forall (λ c, p c = true) m.
Proof.
  split.
  - remember (Many (Class p)) as r eqn:Hr. induction 1; try discriminate.
    + constructor.
    + injection Hr as ->. inversion H; subst. simpl. constructor; auto.
  - induction 1 as [|c m Hc _ IH]; [constructor |].
    apply (m_many_app _ [c] m); [by constructor | done].
Qed.

End RegExpFacts.

(** ** The classifiers against the declarative rule *)

Module ClassifierFacts.
Import Text RegExp TextFacts RegExpFacts ClassifierSpec.

Lemma toLowerChar_idem c : toLowerChar (toLowerChar c) = toLowerChar c.
Proof.
  unfold toLowerChar.
  destruct ((65 <=? nat_of_ascii c)%nat && (nat_of_ascii c <=? 90)%nat) eqn:Hc;
    [| by rewrite Hc].
  apply andb_true_iff in Hc as [H1 H2].
  apply Nat.leb_le in H1, H2.
  rewrite nat_ascii_embedding by lia.
  replace ((nat_of_ascii c + 32 <=? 90)%nat) with false
    by (symmetry; apply Nat.leb_gt; lia).
  by rewrite andb_false_r.
Qed.

Lemma toLowerCase_idem s : toLowerCase (toLowerCase s) = toLowerCase s.
Proof.
  unfold toLowerCase. rewrite List.map_map.
  apply List.map_ext, toLowerChar_idem.
Qed.

(** [content.toLowerCase().includes(k)] for a lower-case keyword. *)
Lemma includes_toLowerCase s k :
  toLowerCase k = k →
  includes (toLowerCase s) k = true ↔ containsIgnoringCase s k.
Proof.
  intros Hk. rewrite includes_spec. unfold contains, containsIgnoringCase, toLowerCase.
  split.
  - intros (pre & post & Heq).
    apply List.map_eq_app in Heq as (p & rest & -> & Hp & Hrest).
    apply List.map_eq_app in Hrest as (m & q & -> & Hm & Hq).
    exists p, m, q. split; [done |]. by rewrite Hm.
  - intros (pre & m & post & -> & Hm).
    exists (List.map toLowerChar pre), (List.map toLowerChar post).
    rewrite !List.map_app, Hm. unfold toLowerCase in Hk. by rewrite Hk.
Qed.

Lemma test_oneOf_word s ks :
  test (oneOf (word <$> ks)) s = true ↔ containsAny s ks.
Proof.
  rewrite test_spec. unfold containsAny, contains. split.
  - intros (pre & m & post & -> & Hm).
    apply matches_oneOf in Hm as (r & Hr & Hm).
    apply list_elem_of_fmap in Hr as (k & -> & Hk).
    apply matches_word in Hm as ->. exists k. split; [done | by exists pre, post].
  - intros (k & Hk & pre & post & ->). exists pre, k, post. split; [done |].
    apply matches_oneOf. exists (word k). split; [| by apply matches_word].
    apply list_elem_of_fmap. by exists k.
Qed.

Lemma test_oneOf_word_i s ks :
  test (oneOf (word_i <$> ks)) s = true ↔ containsAnyIgnoringCase s ks.
Proof.
  rewrite test_spec. unfold containsAnyIgnoringCase, containsIgnoringCase. split.
  - intros (pre & m & post & -> & Hm).
    apply matches_oneOf in Hm as (r & Hr & Hm).
    apply list_elem_of_fmap in Hr as (k & -> & Hk).
    apply matches_word_i in Hm. exists k. split; [done | by exists pre, m, post].
  - intros (k & Hk & pre & m & post & -> & Hm). exists pre, m, post. split; [done |].
    apply matches_oneOf. exists (word_i k). split; [| by apply matches_word_i].
    apply list_elem_of_fmap. by exists k.
Qed.

Lemma test_codeBlock s :
  test Router.codeBlockPattern s = true ↔ hasFencedBlock s.
Proof.
  rewrite test_spec. unfold hasFencedBlock, Router.codeBlockPattern. split.
  - intros (pre & m & post & -> & Hm).
    inversion Hm as [| |? ? s1 s2 H1 H2| | | |]; subst.
    inversion H2 as [| |? ? b s3 _ H3| | | |]; subst.
    apply (matches_word Router.fence) in H1 as ->.
    apply (matches_word Router.fence) in H3 as ->.
    exists pre, b, post. by rewrite <- !app_assoc.
  - intros (a & b & c & ->).
    exists a, (Router.fence ++ b ++ Router.fence), c.
    split; [by rewrite <- !app_assoc |].
    apply m_cat; [by apply matches_word |].
    apply m_cat; [apply matches_many_any | by apply matches_word].
Qed.

Lemma notchr_true c x : negb (Ascii.eqb c x) = true ↔ x ≠ c.
Proof.
  rewrite negb_true_iff. split.
  - intros H ->. by rewrite Ascii.eqb_refl in H.
  - intros H. apply Ascii.eqb_neq. congruence.
Qed.

Lemma test_inlineCode s :
  test Router.inlineCodePattern s = true ↔ hasInlineSpan s.
Proof.
  rewrite test_spec. unfold hasInlineSpan, Router.inlineCodePattern, plus. split.
  - intros (pre & m & post & -> & Hm).
    inversion Hm as [| |? ? s1 s2 H1 H2| | | |]; subst.
    inversion H2 as [| |? ? b s3 Hb H3| | | |]; subst.
    inversion Hb as [| |? ? b1 b2 Hb1 Hb2| | | |]; subst.
    apply matches_chr in H1 as ->. apply matches_chr in H3 as ->.
    inversion Hb1 as [|? x Hx| | | | |]; subst.
    apply matches_many_class in Hb2.
    exists pre, (x :: b2), post. split; [| split].
    + simpl. by rewrite <- !app_assoc.
    + done.
    + constructor; [by apply notchr_true |].
      eapply Forall_impl; [exact Hb2 |]. intros y Hy. by apply notchr_true.
  - intros (a & b & c & -> & Hne & Hall).
    destruct b as [|x b]; [done |]. apply Forall_cons in Hall as [Hx Hall].
    exists a, (Router.backtick :: (x :: b) ++ [Router.backtick]), c. split.
    + simpl. by rewrite <- !app_assoc.
    + apply (m_cat _ _ [Router.backtick]); [by apply matches_chr |].
      apply m_cat; [| by apply matches_chr].
      apply (m_cat _ _ [x] b).
      * constructor. by apply notchr_true.
      * apply matches_many_class. eapply Forall_impl; [exact Hall |].
        intros y Hy. by apply notchr_true.
Qed.

Lemma router_decides s :
  Router.isCodeAnalysisRequest s = true ↔ routerRule s.
Proof.
  unfold Router.isCodeAnalysisRequest, Router.codePatterns, routerRule. simpl.
  rewrite orb_false_r, !orb_true_iff.
  rewrite test_codeBlock, test_inlineCode.
  unfold Router.keywordPattern, Router.structuralPattern.
  by rewrite test_oneOf_word_i, test_oneOf_word.
Qed.

Lemma keywords_lower k :
  k ∈ Utils.codeAnalysisKeywords → toLowerCase k = k.
Proof.
  unfold Utils.codeAnalysisKeywords. rewrite list_elem_of_In. simpl.
  intros H. repeat (destruct H as [<- | H]; [reflexivity |]). destruct H.
Qed.

Lemma utils_decides s :
  Utils.isCodeAnalysisRequest s = true ↔ utilsRule s.
Proof.
  unfold Utils.isCodeAnalysisRequest, utilsRule.
  rewrite !orb_true_iff.
  change Utils.codeBlockPattern with Router.codeBlockPattern.
  rewrite test_codeBlock, !includes_spec.
  assert (existsb (λ keyword, includes (toLowerCase s) keyword)
            Utils.codeAnalysisKeywords = true
          ↔ containsAnyIgnoringCase s Utils.codeAnalysisKeywords) as ->.
  { rewrite existsb_exists. unfold containsAnyIgnoringCase. split.
    - intros (k & Hk & Hinc). apply list_elem_of_In in Hk. exists k. split; [done |].
      apply includes_toLowerCase; [by apply keywords_lower | done].
    - intros (k & Hk & Hc). exists k. split; [by apply list_elem_of_In |].
      apply includes_toLowerCase; [by apply keywords_lower | done]. }
  tauto.
Qed.

End ClassifierFacts.

(** ** The session store *)

Module StoreFacts.
Import QualityAnalysisState StoreViews.

Section WithHost.
Variable host : Host.

Lemma saveState_ok st :
  putFault host (puts st) = None →
  ∃ st', saveState host st = (Return tt, st')
         ∧ sessions st' = sessions st
         ∧ storage st' = Some (sessions st)
         ∧ puts st' = S (puts st)
         ∧ ticks st' = ticks st.
Proof.
  intros Hput. unfold saveState, tryCatch, bind, gets, storagePut. simpl.
  rewrite Hput. simpl. eexists. split; [reflexivity |]. simpl. done.
Qed.

Lemma saveState_fails st message :
  putFault host (puts st) = Some message →
  ∃ st', saveState host st = (Throw ("Failed to save state: " +:+ message), st')
         ∧ sessions st' = sessions st
         ∧ storage st' = storage st
         ∧ puts st' = S (puts st)
         ∧ ticks st' = ticks st.
Proof.
  intros Hput. unfold saveState, tryCatch, bind, gets, storagePut. simpl.
  rewrite Hput. simpl. eexists. split; [reflexivity |]. simpl. done.
Qed.

(** [getSession] always leaves the loaded session in memory; what it
    returns depends on the write that follows. *)
Lemma getSession_ok st sessionId user :
  putFault host (puts st) = None →
  ∃ st', getSession host sessionId user st
           = (Return (loadedSession host sessionId user st), st')
         ∧ sessions st'
           = <[sessionId := loadedSession host sessionId user st]> (sessions st)
         ∧ storage st' = Some (sessions st')
         ∧ puts st' = S (puts st)
         ∧ ticks st' = (ticks st + loadTicks sessionId st)%nat.
Proof.
  intros Hput. unfold getSession, loadedSession, loadTicks, bind, gets.
  destruct (sessions st !! sessionId) as [s|] eqn:Hs; simpl.
  - match goal with |- context [saveState host ?x] =>
      destruct (saveState_ok x Hput) as (st' & -> & H1 & H2 & H3 & H4) end.
    exists st'. simpl in *. rewrite H1, H2, H3, H4.
    repeat split; f_equal; lia.
  - match goal with |- context [saveState host ?x] =>
      destruct (saveState_ok x Hput) as (st' & -> & H1 & H2 & H3 & H4) end.
    exists st'. simpl in *. rewrite H1, H2, H3, H4.
    repeat split; f_equal; lia.
Qed.

Lemma getSession_fails st sessionId user message :
  putFault host (puts st) = Some message →
  ∃ st', getSession host sessionId user st
           = (Throw ("Failed to save state: " +:+ message), st')
         ∧ sessions st'
           = <[sessionId := loadedSession host sessionId user st]> (sessions st)
         ∧ storage st' = storage st
         ∧ puts st' = S (puts st)
         ∧ ticks st' = (ticks st + loadTicks sessionId st)%nat.
Proof.
  intros Hput. unfold getSession, loadedSession, loadTicks, bind, gets.
  destruct (sessions st !! sessionId) as [s|] eqn:Hs; simpl.
  - match goal with |- context [saveState host ?x] =>
      destruct (saveState_fails x message Hput) as (st' & -> & H1 & H2 & H3 & H4) end.
    exists st'. simpl in *. rewrite H1, H2, H3, H4.
    repeat split; f_equal; lia.
  - match goal with |- context [saveState host ?x] =>
      destruct (saveState_fails x message Hput) as (st' & -> & H1 & H2 & H3 & H4) end.
    exists st'. simpl in *. rewrite H1, H2, H3, H4.
    repeat split; f_equal; lia.
Qed.

Lemma isEmptyString_false s : s ≠ EmptyString → isEmptyString s = false.
Proof. by destruct s. Qed.

Lemma when_warn_run b msg (st : Store) :
  ∃ st', when b (consoleWarn msg) st = (Return tt, st')
         ∧ sessions st' = sessions st ∧ storage st' = storage st
         ∧ puts st' = puts st ∧ ticks st' = ticks st.
Proof. destruct b; simpl; eexists; (split; [reflexivity | done]). Qed.

(** A save whose two writes both succeed. *)
Lemma saveAnalysis_ok st sessionId a :
  sessionId ≠ EmptyString →
  putFault host (puts st) = None →
  putFault host (S (puts st)) = None →
  ∃ st', saveAnalysis host sessionId (Some a) st = (Return tt, st')
         ∧ sessions st'
           = <[sessionId := savedSession host sessionId a st]> (sessions st)
         ∧ storage st' = Some (sessions st')
         ∧ puts st' = S (S (puts st))
         ∧ ticks st' = S (ticks st + loadTicks sessionId st).
Proof.
  intros Hid Hput1 Hput2. unfold saveAnalysis, tryCatch.
  rewrite (isEmptyString_false _ Hid). unfold bind at 1.
  destruct (getSession_ok st sessionId None Hput1) as (st1 & -> & Hs1 & Hg1 & Hp1 & Ht1).
  unfold bind at 1.
  destruct (when_warn_run (invalidScore (receivedOverallScore a))
              "Invalid analysis score, using default value" st1)
    as (st2 & -> & Hs2 & Hg2 & Hp2 & Ht2).
  unfold bind, dateNow, setSession, modify, consoleLog. simpl.
  match goal with |- context [saveState host ?x] =>
    destruct (saveState_ok x) as (st3 & -> & Hs3 & Hg3 & Hp3 & Ht3) end.
  { simpl. by rewrite Hp2, Hp1. }
  eexists. split; [reflexivity |]. simpl in *.
  rewrite Hs3, Hg3, Hp3, Ht3, Hs2, Hp2, Ht2, Hs1, Hp1, Ht1.
  unfold savedSession. rewrite insert_insert_eq. done.
Qed.

(** A save whose first write, inside [getSession], fails: the error
    surfaces before the analysis is recorded. *)
Lemma saveAnalysis_fails_early st sessionId a message :
  sessionId ≠ EmptyString →
  putFault host (puts st) = Some message →
  ∃ st', saveAnalysis host sessionId (Some a) st
           = (Throw ("Failed to save analysis: Failed to save state: " +:+ message), st')
         ∧ sessions st'
           = <[sessionId := loadedSession host sessionId None st]> (sessions st)
         ∧ storage st' = storage st.
Proof.
  intros Hid Hput. unfold saveAnalysis, tryCatch.
  rewrite (isEmptyString_false _ Hid). unfold bind at 1.
  destruct (getSession_fails st sessionId None message Hput)
    as (st1 & -> & Hs1 & Hg1 & Hp1 & Ht1).
  unfold bind, consoleError, modify, throw. simpl.
  eexists. split; [reflexivity |]. simpl. done.
Qed.

(** A save whose own write (line 373) fails after [getSession] went
    through: the error surfaces, and memory holds the recorded analysis. *)
Lemma saveAnalysis_fails_late st sessionId a message :
  sessionId ≠ EmptyString →
  putFault host (puts st) = None →
  putFault host (S (puts st)) = Some message →
  ∃ st', saveAnalysis host sessionId (Some a) st
           = (Throw ("Failed to save analysis: Failed to save state: " +:+ message), st')
         ∧ sessions st'
           = <[sessionId := savedSession host sessionId a st]> (sessions st)
         ∧ storage st'
           = Some (<[sessionId := loadedSession host sessionId None st]> (sessions st)).
Proof.
  intros Hid Hput1 Hput2. unfold saveAnalysis, tryCatch.
  rewrite (isEmptyString_false _ Hid). unfold bind at 1.
  destruct (getSession_ok st sessionId None Hput1) as (st1 & -> & Hs1 & Hg1 & Hp1 & Ht1).
  unfold bind at 1.
  destruct (when_warn_run (invalidScore (receivedOverallScore a))
              "Invalid analysis score, using default value" st1)
    as (st2 & -> & Hs2 & Hg2 & Hp2 & Ht2).
  unfold bind, dateNow, setSession, modify, consoleLog. simpl.
  match goal with |- context [saveState host ?x] =>
    destruct (saveState_fails x message) as (st3 & -> & Hs3 & Hg3 & Hp3 & Ht3) end.
  { simpl. by rewrite Hp2, Hp1. }
  unfold consoleError, modify, throw. simpl.
  eexists. split; [reflexivity |]. simpl in *.
  rewrite Hs3, Hg3, Hs2, Hg2, Ht2, Hs1, Hg1, Ht1.
  unfold savedSession. rewrite insert_insert_eq, Hs1. done.
Qed.

(** A save without a session id or without an analysis. *)
Lemma saveAnalysis_invalid st sessionId analysis :
  sessionId = EmptyString ∨ analysis = None →
  ∃ st', saveAnalysis host sessionId analysis st
           = (Throw "Failed to save analysis: Session ID and analysis result are required", st')
         ∧ sessions st' = sessions st ∧ storage st' = storage st
         ∧ puts st' = puts st.
Proof.
  intros Hbad. unfold saveAnalysis, tryCatch.
  destruct analysis as [a|].
  - destruct Hbad as [-> | ?]; [| done]. simpl.
    eexists. split; [reflexivity | done].
  - simpl. eexists. split; [reflexivity | done].
Qed.

(** *** The history window *)

Lemma sliceLast_short {A} n (l : list A) :
  (length l ≤ n)%nat → sliceLast n l = l.
Proof.
  intros H. unfold sliceLast.
  replace (length l - n)%nat with 0%nat by lia. apply drop_0.
Qed.

Lemma length_sliceLast {A} n (l : list A) :
  length (sliceLast n l) = (length l `min` n)%nat.
Proof. unfold sliceLast. rewrite length_drop. lia. Qed.

Lemma sliceLast_snoc {A} n (l : list A) a :
  sliceLast (S n) (l ++ [a]) = sliceLast n l ++ [a].
Proof.
  unfold sliceLast. rewrite length_app. simpl.
  replace (length l + 1 - S n)%nat with (length l - n)%nat by lia.
  apply drop_app_le. lia.
Qed.

Lemma sliceLast_sliceLast {A} n m (l : list A) :
  (n ≤ m)%nat → sliceLast n (sliceLast m l) = sliceLast n l.
Proof.
  intros H. unfold sliceLast. rewrite drop_drop, length_drop. f_equal. lia.
Qed.

(** Truncation to the last fifty, as the source guards it. *)
Lemma truncate_is_sliceLast {A} (l : list A) :
  (if (50 <? length l)%nat then sliceLast 50 l else l) = sliceLast 50 l.
Proof.
  destruct (50 <? length l)%nat eqn:H; [done |].
  apply Nat.ltb_ge in H. by rewrite sliceLast_short.
Qed.

Lemma forEach_snoc {S A} (l : list A) (a : A) (body : A → M S unit) st st1 st2 :
  forEach l body st = (Return tt, st1) →
  body a st1 = (Return tt, st2) →
  forEach (l ++ [a]) body st = (Return tt, st2).
Proof.
  revert st. induction l as [|x l IH]; intros st Hl Ha; simpl in *.
  - injection Hl as <-. unfold bind. rewrite Ha. done.
  - unfold bind in *. destruct (body x st) as [[[]|msg] st'] eqn:Hx; [| done].
    by apply IH.
Qed.

Lemma savedSession_holds st sessionId l a :
  holds l (sessions st !! sessionId) →
  holds (l ++ [a]) (Some (savedSession host sessionId a st)).
Proof.
  unfold holds, savedSession, loadedSession, loadTicks.
  destruct (sessions st !! sessionId) as [s|] eqn:Hs.
  - intros (Hne & Htot & Han & Hav). simpl.
    rewrite truncate_is_sliceLast, Htot, Han, fmap_app, length_app. simpl.
    rewrite (sliceLast_snoc 50 (checked <$> l)).
    split; [by destruct l |]. split; [lia |]. split.
    + rewrite <- (sliceLast_snoc 50 (checked <$> l)).
      by rewrite sliceLast_sliceLast by lia.
    + f_equal. lia.
  - intros ->. simpl. split; [done |]. done.
Qed.

(** Any number of saves on a session that did not exist, with storage
    available throughout. *)
Lemma saveAll_holds st sessionId l :
  (∀ n, putFault host n = None) →
  sessionId ≠ EmptyString →
  sessions st !! sessionId = None →
  ∃ st', saveAll host sessionId l st = (Return tt, st')
         ∧ holds l (sessions st' !! sessionId)
         ∧ ∀ other, other ≠ sessionId → sessions st' !! other = sessions st !! other.
Proof.
  intros Hput Hid Hfresh. induction l as [|a l IH] using rev_ind.
  - exists st. split; [done |]. by rewrite Hfresh.
  - destruct IH as (st1 & Hrun & Hinv & Hother).
    destruct (saveAnalysis_ok st1 sessionId a Hid (Hput _) (Hput _))
      as (st2 & Hsave & Hs2 & _).
    exists st2. split; [| split].
    + unfold saveAll in *. by eapply forEach_snoc.
    + rewrite Hs2, lookup_insert_eq. by apply savedSession_holds.
    + intros other Hne. rewrite Hs2, lookup_insert_ne by done. by apply Hother.
Qed.

(** *** Retention sweep *)

Lemma sweep_count now maxAgeMs (l : list (string * AnalysisSession)) m0 c0 :
  (foldr (cleanupStep now maxAgeMs) (m0, c0) l).2
  = c0 + Z.of_nat (length (filter (λ e, expired now maxAgeMs e.2 = true) l)).
Proof.
  induction l as [|e l IH]; simpl; [lia |].
  unfold cleanupStep at 1. rewrite filter_cons.
  case_decide as He; rewrite ?He; simpl.
  - rewrite IH. simpl. lia.
  - apply not_true_is_false in He. rewrite He. apply IH.
Qed.

Lemma sweep_removed now maxAgeMs (l : list (string * AnalysisSession)) m0 c0 k s :
  (k, s) ∈ l → expired now maxAgeMs s = true →
  (foldr (cleanupStep now maxAgeMs) (m0, c0) l).1 !! k = None.
Proof.
  intros Hin Hexp. induction l as [|e l IH]; [by apply elem_of_nil in Hin |].
  simpl. unfold cleanupStep at 1.
  apply elem_of_cons in Hin as [<- | Hin]; simpl.
  - rewrite Hexp. simpl. apply lookup_delete_eq.
  - destruct (expired now maxAgeMs e.2); simpl; [| by apply IH].
    destruct (decide (e.1 = k)) as [<- | Hne].
    + apply lookup_delete_eq.
    + rewrite lookup_delete_ne by done. by apply IH.
Qed.

Lemma sweep_kept now maxAgeMs (l : list (string * AnalysisSession)) m0 c0 k :
  (∀ s, (k, s) ∈ l → expired now maxAgeMs s = false) →
  (foldr (cleanupStep now maxAgeMs) (m0, c0) l).1 !! k = m0 !! k.
Proof.
  induction l as [|e l IH]; intros Hall; [done |].
  simpl. unfold cleanupStep at 1.
  assert ((foldr (cleanupStep now maxAgeMs) (m0, c0) l).1 !! k = m0 !! k) as Hrest.
  { apply IH. intros s Hs. apply Hall. by right. }
  destruct (expired now maxAgeMs e.2) eqn:He; simpl; [| done].
  destruct e as [k' s']. simpl in *.
  destruct (decide (k' = k)) as [-> | Hne].
  - rewrite (Hall s') in He; [done | by left].
  - by rewrite lookup_delete_ne.
Qed.

(** The map the sweep leaves, key by key. *)
Lemma sweep_lookup now maxAgeMs (m : gmap string AnalysisSession) k :
  (foldr (cleanupStep now maxAgeMs) (m, 0) (map_to_list m)).1 !! k
  = match m !! k with
    | Some s => if expired now maxAgeMs s then None else Some s
    | None => None
    end.
Proof.
  destruct (m !! k) as [s|] eqn:Hk.
  - destruct (expired now maxAgeMs s) eqn:He.
    + eapply sweep_removed; [| exact He]. by apply elem_of_map_to_list.
    + rewrite sweep_kept; [done |]. intros s' Hs'.
      apply elem_of_map_to_list in Hs'. congruence.
  - rewrite sweep_kept; [done |]. intros s' Hs'.
    apply elem_of_map_to_list in Hs'. congruence.
Qed.

(** The number the sweep returns is the number of expired sessions. *)
Lemma sweep_count_size now maxAgeMs (m : gmap string AnalysisSession) :
  (foldr (cleanupStep now maxAgeMs) (m, 0) (map_to_list m)).2
  = Z.of_nat (size (filter (λ e, expired now maxAgeMs e.2 = true) m)).
Proof.
  rewrite sweep_count, map_filter_alt, map_size_list_to_map; [lia |].
  eapply sublist_NoDup; [apply (NoDup_fst_map_to_list m) |].
  apply fmap_sublist, sublist_filter.
Qed.

Lemma cleanupOldSessions_run st maxAgeMs :
  let now := clock host (ticks st) in
  let count := Z.of_nat (size (filter (λ e, expired now maxAgeMs e.2 = true)
                                      (sessions st))) in
  ∃ r st', cleanupOldSessions host maxAgeMs st = (r, st')
           ∧ (∀ k, sessions st' !! k
                   = match sessions st !! k with
                     | Some s => if expired now maxAgeMs s then None else Some s
                     | None => None
                     end)
           ∧ (count = 0 ∨ putFault host (puts st) = None → r = Return count)
           ∧ (count = 0 → puts st' = puts st ∧ storage st' = storage st).
Proof.
  intros now count. unfold cleanupOldSessions, bind, dateNow, gets, modify. simpl.
  fold now. rewrite sweep_count_size. fold count.
  destruct (count >? 0) eqn:Hc; simpl.
  - match goal with |- context [saveState host ?x] =>
      destruct (putFault host (puts x)) as [message|] eqn:Hput;
      [ destruct (saveState_fails x message Hput) as (st' & -> & H1 & H2 & H3 & H4)
      | destruct (saveState_ok x Hput) as (st' & -> & H1 & H2 & H3 & H4) ] end.
    + eexists _, st'. split; [reflexivity |]. simpl in *.
      split; [intros k; rewrite H1; apply sweep_lookup |].
      split; [intros [?|?]; [lia | congruence] | lia].
    + eexists _, st'. split; [reflexivity |]. simpl in *.
      split; [intros k; rewrite H1; apply sweep_lookup |].
      split; [done | lia].
  - eexists _, _. split; [reflexivity |]. simpl.
    split; [intros k; apply sweep_lookup |]. done.
Qed.

(** *** Scores *)

Lemma loadedSession_history st sessionId user :
  analyses (loadedSession host sessionId user st) = historyOf st sessionId.
Proof.
  unfold loadedSession, historyOf. by destruct (sessions st !! sessionId).
Qed.

Lemma loadedSession_total st sessionId user :
  totalAnalyses (loadedSession host sessionId user st) = totalOf st sessionId.
Proof.
  unfold loadedSession, totalOf. by destruct (sessions st !! sessionId).
Qed.

Lemma recordAnalysis_last r now s :
  last (analyses (recordAnalysis r now s)) = Some r.
Proof.
  unfold recordAnalysis. simpl.
  rewrite truncate_is_sliceLast, (sliceLast_snoc 49). apply last_snoc.
Qed.

Lemma invalidScore_number z :
  invalidScore (JsNumber z) = false ↔ 0 ≤ z ≤ 100.
Proof.
  unfold invalidScore. rewrite orb_false_iff, Z.ltb_ge, Z.gtb_ltb, Z.ltb_ge. lia.
Qed.

Lemma checkedScore_valid z :
  0 ≤ z ≤ 100 → checkedScore (JsNumber z) = Finite z.
Proof.
  intros Hz. unfold checkedScore. by rewrite (proj2 (invalidScore_number z) Hz).
Qed.

(** NaN passes the test and is kept. *)
Lemma checkedScore_NaN : invalidScore JsNaN = false ∧ checkedScore JsNaN = NaN.
Proof. done. Qed.

Lemma checkedScore_invalid v :
  v ≠ JsNaN →
  (∀ z, v = JsNumber z → z < 0 ∨ 100 < z) → checkedScore v = Finite 50.
Proof.
  intros Hnan Hv. destruct v as [| |b|z| |b|s]; try done.
  unfold checkedScore. destruct (invalidScore (JsNumber z)) eqn:Hi; [done |].
  apply invalidScore_number in Hi. destruct (Hv z eq_refl); lia.
Qed.

(** Zero and NaN both count as 50 in the sum. *)
Lemma totalScore_from acc (l : list CodeAnalysisResult) :
  Forall (λ r, overallScore r = Finite 0 ∨ overallScore r = NaN) l →
  foldl (λ sum a, sum + scoreOrDefault a) acc l = acc + 50 * Z.of_nat (length l).
Proof.
  intros Hall. revert acc. induction Hall as [|r l Hr _ IH]; intros acc; simpl.
  - lia.
  - rewrite IH. unfold scoreOrDefault. destruct Hr as [-> | ->]; simpl; lia.
Qed.

Lemma roundDiv_fifty n : 0 < n → roundDiv (50 * n) n = 50.
Proof.
  intros Hn. unfold roundDiv.
  replace (2 * (50 * n) + n) with (101 * n) by lia.
  rewrite Z.div_mul_cancel_r by lia. reflexivity.
Qed.

Lemma expired_spec now maxAgeMs s :
  expired now maxAgeMs s = true ↔ now - lastActivity s > maxAgeMs.
Proof. unfold expired. rewrite Z.gtb_ltb, Z.ltb_lt. lia. Qed.

End WithHost.
End StoreFacts.

(** ** The workflow dispatcher *)

Module WorkflowFacts.
Import AnalysisWorkflow.

(** The dispatcher never indexes past the settled results: it returns,
    and each field is the one expected for its aspect. *)
Lemma performParallelAnalysis_run this input :
  performParallelAnalysis this input tt
  = (Return
       {| securityResult :=
            expectedField (includes (analysisTypes input) security)
              "Security analysis failed" (analyzeSecurity this (code input));
          performanceResult :=
            expectedField (includes (analysisTypes input) performance)
              "Performance analysis failed" (analyzePerformance this (code input));
          qualityResult :=
            expectedField (includes (analysisTypes input) quality)
              "Quality analysis failed" (analyzeQuality this (code input)) |},
     tt).
Proof.
  unfold performParallelAnalysis, expectedField.
  destruct (includes (analysisTypes input) security);
    destruct (includes (analysisTypes input) performance);
    destruct (includes (analysisTypes input) quality);
    destruct (analyzeSecurity this (code input));
    destruct (analyzePerformance this (code input));
    destruct (analyzeQuality this (code input));
    reflexivity.
Qed.

(** Every launched call is settled: one entry per task. *)
Lemma promiseAllSettled_length {S A} (tasks : list (M S A)) st :
  ∃ rs st', promiseAllSettled tasks st = (Return rs, st')
            ∧ length rs = length tasks.
Proof.
  revert st. induction tasks as [|t ts IH]; intros st; simpl.
  - by exists [], st.
  - unfold bind, settle.
    destruct (t st) as [[a|m] st1]; destruct (IH st1) as (rs & st2 & -> & Hlen);
      eexists _, st2; (split; [reflexivity | simpl; by rewrite Hlen]).
Qed.

End WorkflowFacts.

(** ** The agents *)

Module AgentFacts.
Import QualityAnalysisState StoreViews StoreFacts TextOps Agent.

(** [fetch] answers every request: what its routes throw becomes a 500. *)
Lemma fetch_returns host request st :
  ∃ response st', fetch host request st = (Return response, st').
Proof.
  unfold fetch, tryCatch.
  match goal with |- context [match ?c st with _ => _ end] =>
    destruct (c st) as [[response|message] st'] end.
  - by exists response, st'.
  - unfold bind, consoleError, modify, ret. simpl. by eexists _, _.
Qed.

(** The request of the write-through reaches [saveAnalysis]. *)
Lemma fetch_saveRequest host analysis st :
  fetch host (CodeQualityAgent.saveRequest CodeQualityAgent.getSessionId analysis) st
  = tryCatch
      (saveAnalysis host CodeQualityAgent.getSessionId
         (Some (CodeQualityAgent.toJson analysis)) >>
       ret {| status := 200; payload := SuccessJson |})
      (λ error,
         QualityAnalysisState.consoleError ("Durable Object error: " +:+ error) >>
         ret {| status := 500;
                payload := PlainText ("Internal Server Error: " +:+ error) |}) st.
Proof. reflexivity. Qed.


Section WithHost.
Variable host : AgentHost.

Lemma streamReport_run report st :
  ∃ st', streamReport report st = (Return tt, st')
         ∧ stream st' = stream st ++ chunksOf report
         ∧ finishCalls st' = finishCalls st
         ∧ durable st' = durable st.
Proof.
  unfold streamReport, chunksOf. generalize (lines report) as chunks.
  intros chunks. revert st. induction chunks as [|chunk chunks IH]; intros st; simpl.
  - exists st. by rewrite app_nil_r.
  - unfold bind at 1. unfold writeText at 1, modify.
    match goal with |- context [forEach _ _ ?x] =>
      destruct (IH x) as (st' & -> & Hs & Hf & Hd) end.
    exists st'. simpl in *. rewrite Hs, Hf, Hd, <- app_assoc. done.
Qed.

Lemma finish_run onFinish st :
  ∃ st', finish onFinish st = (Return tt, st')
         ∧ stream st' = stream st
         ∧ finishCalls st' = (finishCalls st + (if onFinish then 1 else 0))%nat
         ∧ durable st' = durable st.
Proof.
  destruct onFinish; simpl; eexists; (split; [reflexivity |]); simpl;
    repeat split; lia.
Qed.

(** The analysis call of [CodeQualityAgent] returns in every case: the
    model's text, the stock line for an empty reply, or the error line. *)
Lemma quality_analyze_returns code analysisType st :
  ∃ text st',
    CodeQualityAgent.analyzeWithWorkersAI host code analysisType st = (Return text, st')
    ∧ sameOutput st st' ∧ durable st' = durable st
    ∧ (∀ run message,
         ai host = Some run →
         run (aiCalls st) (systemPrompt analysisType) (userMessage code)
           = AiFailure message →
         text = "Analysis error: " +:+ message)
    ∧ (∀ run reply,
         ai host = Some run →
         run (aiCalls st) (systemPrompt analysisType) (userMessage code)
           = AiReply (Some reply) →
         reply ≠ EmptyString →
         text = reply)
    ∧ (ai host = None →
       text = "Analysis error: " +:+ CodeQualityAgent.missingBinding).
Proof.
  unfold CodeQualityAgent.analyzeWithWorkersAI, tryCatch, sameOutput.
  destruct (ai host) as [run|] eqn:Hai.
  - unfold bind, aiRun.
    destruct (run (aiCalls st) (systemPrompt analysisType) (userMessage code))
      as [[reply|]|message] eqn:Hrun; simpl.
    + destruct (isEmptyString reply) eqn:He; simpl; eexists _, _;
        (split; [reflexivity |]); simpl; repeat split; try done;
        intros; simplify_eq; try congruence.
      rewrite Hrun in *. simplify_eq. by destruct reply0.
    + eexists _, _. split; [reflexivity |]. simpl. repeat split; try done;
        intros; simplify_eq; congruence.
    + eexists _, _. split; [reflexivity |]. simpl. repeat split; try done;
        intros; simplify_eq; congruence.
  - simpl. eexists _, _. split; [reflexivity |]. simpl. repeat split; done.
Qed.

(** The write-through returns whatever the store answers. *)
Lemma saveAnalysisResult_returns analysis st :
  ∃ st', CodeQualityAgent.saveAnalysisResult host analysis st = (Return tt, st')
         ∧ sameOutput st st'.
Proof.
  unfold CodeQualityAgent.saveAnalysisResult, tryCatch, sameOutput.
  unfold bind at 1. unfold onDurable.
  destruct (fetch_returns (storeHost host)
              (CodeQualityAgent.saveRequest CodeQualityAgent.getSessionId analysis)
              (durable st)) as (response & d & ->).
  destruct (negb (ok response)); simpl; eexists; (split; [reflexivity | done]).
Qed.


Lemma quality_performCodeAnalysis_run content onFinish st :
  ∃ s p q st1 st2 st3 st',
    CodeQualityAgent.analyzeWithWorkersAI host (extractCode content) securityFocus st
      = (Return s, st1)
    ∧ CodeQualityAgent.analyzeWithWorkersAI host (extractCode content) performanceFocus st1
      = (Return p, st2)
    ∧ CodeQualityAgent.analyzeWithWorkersAI host (extractCode content) qualityFocus st2
      = (Return q, st3)
    ∧ CodeQualityAgent.performCodeAnalysis host content onFinish st = (Return tt, st')
    ∧ stream st' = stream st ++ chunksOf (combinedAnalysis s p q)
    ∧ finishCalls st' = (finishCalls st + (if onFinish then 1 else 0))%nat.
Proof.
  destruct (quality_analyze_returns (extractCode content) securityFocus st)
    as (s & st1 & Hs & [Hs1 Hf1] & _).
  destruct (quality_analyze_returns (extractCode content) performanceFocus st1)
    as (p & st2 & Hp & [Hs2 Hf2] & _).
  destruct (quality_analyze_returns (extractCode content) qualityFocus st2)
    as (q & st3 & Hq & [Hs3 Hf3] & _).
  destruct (saveAnalysisResult_returns CodeQualityAgent.analysisResult st3)
    as (st4 & Hsave & [Hs4 Hf4]).
  destruct (streamReport_run (combinedAnalysis s p q) st4)
    as (st5 & Hstream & Hs5 & Hf5 & _).
  destruct (finish_run onFinish st5) as (st6 & Hfin & Hs6 & Hf6 & _).
  exists s, p, q, st1, st2, st3, st6.
  split; [done |]. split; [done |]. split; [done |]. split.
  - unfold CodeQualityAgent.performCodeAnalysis, tryCatch, promiseAll3, bind, settle.
    rewrite Hs, Hp, Hq. simpl. rewrite Hsave, Hstream, Hfin. done.
  - rewrite Hs6, Hs5, Hs4, Hs3, Hs2, Hs1, Hf6, Hf5, Hf4, Hf3, Hf2, Hf1. done.
Qed.

(** *** [SimpleCodeAgent] *)





Lemma simple_analyze_blank code analysisType st :
  isBlank code = true →
  SimpleCodeAgent.analyzeWithWorkersAI host code analysisType st
  = (Throw "Code input is required for analysis", st).
Proof.
  intros Hb. unfold SimpleCodeAgent.analyzeWithWorkersAI. by rewrite Hb.
Qed.

(** On code that is not blank the call returns in every case: the
    model's text, or the fallback text built from the failure. *)
Lemma simple_analyze_returns code analysisType st :
  isBlank code = false →
  ∃ text st',
    SimpleCodeAgent.analyzeWithWorkersAI host code analysisType st = (Return text, st')
    ∧ sameOutput st st'
    ∧ (∀ run message,
         ai host = Some run →
         run (aiCalls st) (systemPrompt analysisType) (userMessage code)
           = AiFailure message →
         text = SimpleCodeAgent.getFallbackAnalysis analysisType message)
    ∧ (∀ run reply,
         ai host = Some run →
         run (aiCalls st) (systemPrompt analysisType) (userMessage code)
           = AiReply (Some reply) →
         reply ≠ EmptyString →
         text = reply).
Proof.
  intros Hb. unfold SimpleCodeAgent.analyzeWithWorkersAI, tryCatch, sameOutput.
  rewrite Hb.
  destruct (ai host) as [run|] eqn:Hai.
  - unfold bind, aiRun.
    destruct (run (aiCalls st) (systemPrompt analysisType) (userMessage code))
      as [[reply|]|message] eqn:Hrun; simpl.
    + destruct (isEmptyString reply) eqn:He; simpl; eexists _, _;
        (split; [reflexivity |]); simpl; repeat split; try done;
        intros; simplify_eq; try congruence.
      rewrite Hrun in *. simplify_eq. by destruct reply0.
    + eexists _, _. split; [reflexivity |]. simpl. repeat split; try done;
        intros; simplify_eq; congruence.
    + eexists _, _. split; [reflexivity |]. simpl. repeat split; try done;
        intros; simplify_eq; congruence.
  - simpl. eexists _, _. split; [reflexivity |]. simpl. repeat split; done.
Qed.

(** The agent catches the guard's error and writes it to the stream. *)
Lemma simple_performCodeAnalysis_run content onFinish st :
  ∃ st', SimpleCodeAgent.performCodeAnalysis host content onFinish st = (Return tt, st')
         ∧ finishCalls st' = (finishCalls st + (if onFinish then 1 else 0))%nat
         ∧ (isBlank (extractCode content) = true →
            stream st'
            = stream st ++ [analysisErrorText "Code input is required for analysis"])
         ∧ (isBlank (extractCode content) = false →
            ∃ s p q, stream st' = stream st ++ chunksOf (combinedAnalysis s p q)).
Proof.
  destruct (isBlank (extractCode content)) eqn:Hb.
  - unfold SimpleCodeAgent.performCodeAnalysis, tryCatch, promiseAll3, bind, settle.
    rewrite !simple_analyze_blank by done.
    unfold throw, consoleError, writeText, modify. simpl.
    match goal with |- context [finish onFinish ?x] =>
      destruct (finish_run onFinish x) as (st' & -> & Hs & Hf & _) end.
    exists st'. simpl in *. rewrite Hs, Hf. repeat split; done.
  - destruct (simple_analyze_returns (extractCode content) securityFocus st Hb)
      as (s & st1 & Hs & [Hs1 Hf1] & _).
    destruct (simple_analyze_returns (extractCode content) performanceFocus st1 Hb)
      as (p & st2 & Hp & [Hs2 Hf2] & _).
    destruct (simple_analyze_returns (extractCode content) qualityFocus st2 Hb)
      as (q & st3 & Hq & [Hs3 Hf3] & _).
    destruct (streamReport_run (combinedAnalysis s p q) st3)
      as (st5 & Hstream & Hs5 & Hf5 & _).
    destruct (finish_run onFinish st5) as (st6 & Hfin & Hs6 & Hf6 & _).
    exists st6. split; [| split; [| split; [done |]]].
    + unfold SimpleCodeAgent.performCodeAnalysis, tryCatch, promiseAll3, bind, settle.
      rewrite Hs, Hp, Hq. simpl. rewrite Hstream, Hfin. done.
    + rewrite Hf6, Hf5, Hf3, Hf2, Hf1. done.
    + intros _. exists s, p, q. rewrite Hs6, Hs5, Hs3, Hs2, Hs1. done.
Qed.

End WithHost.
End AgentFacts.

(** ** The session store: readers, frames and bounds *)

Module StoreMoreFacts.
Import QualityAnalysisState StoreViews StoreFacts Activation.

Section WithHost.
Variable host : Host.

Lemma getAnalysisHistory_run st sessionId limit :
  sessionId ≠ EmptyString →
  ∃ st', getAnalysisHistory sessionId limit st
           = (Return (sliceLast (Z.to_nat (validLimit limit)) (historyOf st sessionId)), st')
         ∧ sessions st' = sessions st ∧ storage st' = storage st
         ∧ puts st' = puts st ∧ ticks st' = ticks st.
Proof.
  intros Hid. unfold getAnalysisHistory, historyOf.
  rewrite (isEmptyString_false _ Hid). unfold bind, gets.
  destruct (sessions st !! sessionId) as [s|]; simpl;
    eexists; (split; [reflexivity | done]).
Qed.

Lemma getSessionStats_run st sessionId :
  ∃ stats, getSessionStats sessionId st = (Return stats, st)
           ∧ statsTotalAnalyses stats = totalOf st sessionId
           ∧ statsAverageScore stats = averageOf st sessionId
           ∧ securityIssuesFound stats
             = countIssues securityIssues (historyOf st sessionId)
           ∧ performanceIssuesFound stats
             = countIssues performanceIssues (historyOf st sessionId)
           ∧ qualityIssuesFound stats
             = countIssues qualityIssues (historyOf st sessionId).
Proof.
  unfold getSessionStats, totalOf, averageOf, historyOf, bind, gets.
  destruct (sessions st !! sessionId) as [s|]; simpl;
    eexists; (split; [reflexivity | done]).
Qed.

(** The sessions map after [saveAnalysis], in each of its four ways to end. *)
Lemma saveAnalysis_sessions st sessionId analysis :
  ∃ o, sessions (saveAnalysis host sessionId analysis st).2
       = match o with
         | Some s => <[sessionId := s]> (sessions st)
         | None => sessions st
         end.
Proof.
  destruct analysis as [a|]; [destruct (decide (sessionId = EmptyString)) as [Hid|Hid] |].
  - destruct (saveAnalysis_invalid host st sessionId (Some a)) as (st' & -> & Hs & _);
      [by left |]. by exists None.
  - destruct (putFault host (puts st)) as [m|] eqn:Hput1.
    + destruct (saveAnalysis_fails_early host st sessionId a m Hid Hput1)
        as (st' & -> & Hs & _).
      by eexists (Some _).
    + destruct (putFault host (S (puts st))) as [m|] eqn:Hput2.
      * destruct (saveAnalysis_fails_late host st sessionId a m Hid Hput1 Hput2)
          as (st' & -> & Hs & _).
        by eexists (Some _).
      * destruct (saveAnalysis_ok host st sessionId a Hid Hput1 Hput2)
          as (st' & -> & Hs & _).
        by eexists (Some _).
  - destruct (saveAnalysis_invalid host st sessionId None) as (st' & -> & Hs & _);
      [by right |]. by exists None.
Qed.

(** *** Bounds on scores *)





Lemma totalScore_sumScores_from acc (l : list CodeAnalysisResult) :
  Forall (λ r, ∃ z, overallScore r = Finite z ∧ z ≠ 0) l →
  foldl (λ sum a, sum + scoreOrDefault a) acc l = acc + sumScores l.
Proof.
  intros Hall. revert acc. induction Hall as [|r l Hr _ IH]; intros acc; simpl.
  - lia.
  - rewrite IH. unfold scoreOrDefault. destruct Hr as (z & -> & Hz).
    apply Z.eqb_neq in Hz. rewrite Hz. unfold sumScores. lia.
Qed.


(** *** Sweeping when nothing, or storage, is in the way *)

Lemma filter_none_size (P : string * AnalysisSession → Prop)
    `{∀ x, Decision (P x)} (m : gmap string AnalysisSession) :
  (∀ k s, m !! k = Some s → ¬ P (k, s)) → size (filter P m) = 0%nat.
Proof.
  intros Hnone. apply map_size_empty_iff, map_empty_filter.
  intros k s Hk. by apply Hnone.
Qed.

(** What the sweep leaves is the map without its expired sessions. *)
Lemma sweep_is_filter now maxAgeMs (m m' : gmap string AnalysisSession) :
  (∀ k, m' !! k = match m !! k with
                  | Some s => if expired now maxAgeMs s then None else Some s
                  | None => None
                  end) →
  m' = filter (λ e, ¬ (expired now maxAgeMs e.2 = true)) m.
Proof.
  intros Hlk. apply map_eq. intros k. rewrite Hlk, map_lookup_filter.
  destruct (m !! k) as [s|]; simpl; [| done].
  destruct (expired now maxAgeMs s) eqn:He.
  - rewrite option_guard_False; [done |]. simpl. intros H. by apply H.
  - rewrite option_guard_True; [done |]. simpl. congruence.
Qed.

Lemma sweep_conserves now maxAgeMs (m : gmap string AnalysisSession) :
  (size (filter (λ e, expired now maxAgeMs e.2 = true) m)
   + size (filter (λ e, ¬ (expired now maxAgeMs e.2 = true)) m))%nat
  = size m.
Proof.
  rewrite <- map_size_disj_union by apply map_disjoint_filter_complement.
  by rewrite map_filter_union_complement.
Qed.

(** The sweep in full: what it leaves, what it returns, and when it
    throws. *)
Lemma cleanupOldSessions_cases st maxAgeMs :
  let now := clock host (ticks st) in
  let count := size (filter (λ e, expired now maxAgeMs e.2 = true) (sessions st)) in
  ∃ r st', cleanupOldSessions host maxAgeMs st = (r, st')
           ∧ sessions st'
             = filter (λ e, ¬ (expired now maxAgeMs e.2 = true)) (sessions st)
           ∧ ((r = Return (Z.of_nat count)
               ∧ (count = 0%nat → puts st' = puts st ∧ storage st' = storage st)
               ∧ (count ≠ 0%nat → putFault host (puts st) = None
                                  ∧ storage st' = Some (sessions st')))
              ∨ (∃ message, putFault host (puts st) = Some message
                            ∧ count ≠ 0%nat
                            ∧ r = Throw ("Failed to save state: " +:+ message)
                            ∧ storage st' = storage st)).
Proof.
  intros now count. unfold cleanupOldSessions, bind, dateNow, gets, modify. simpl.
  fold now. rewrite sweep_count_size. fold count.
  destruct (Z.of_nat count >? 0) eqn:Hc; simpl.
  - assert (count ≠ 0%nat) as Hpos by (rewrite Z.gtb_ltb in Hc; apply Z.ltb_lt in Hc; lia).
    match goal with |- context [saveState host ?x] =>
      destruct (putFault host (puts x)) as [message|] eqn:Hput;
      [ destruct (saveState_fails host x message Hput) as (st' & -> & H1 & H2 & H3 & H4)
      | destruct (saveState_ok host x Hput) as (st' & -> & H1 & H2 & H3 & H4) ] end.
    + eexists _, st'. split; [reflexivity |]. simpl in *. split.
      * rewrite H1. apply sweep_is_filter. intros k. apply sweep_lookup.
      * right. exists message. by rewrite H2.
    + eexists _, st'. split; [reflexivity |]. simpl in *. split.
      * rewrite H1. apply sweep_is_filter. intros k. apply sweep_lookup.
      * left. split; [done |]. split; [done |]. intros _. by rewrite H1, H2.
  - assert (count = 0%nat) as Hzero
      by (rewrite Z.gtb_ltb in Hc; apply Z.ltb_ge in Hc; lia).
    eexists _, _. split; [reflexivity |]. simpl. split.
    + apply sweep_is_filter. intros k. apply sweep_lookup.
    + left. split; [done |]. split; [done |]. done.
Qed.

Lemma last_sliceLast {A} n (l : list A) :
  (1 ≤ n)%nat → last (sliceLast n l) = last l.
Proof.
  intros Hn. destruct l as [|x l] using rev_ind; [done |].
  destruct n as [|n]; [lia |]. by rewrite sliceLast_snoc, !last_snoc.
Qed.

(** A route whose body answers 200 when it returns is answered 200 or,
    when it throws, 500. *)
Lemma guarded_route_answers (c : M Store Response) st :
  (∀ r st', c st = (Return r, st') → status r = 200) →
  ∃ response st',
    tryCatch c
      (λ error,
         consoleError ("Durable Object error: " +:+ error) >>
         ret {| status := 500;
                payload := PlainText ("Internal Server Error: " +:+ error) |}) st
    = (Return response, st')
    ∧ (status response = 200 ∨ status response = 500).
Proof.
  intros Hok. unfold tryCatch. destruct (c st) as [[r|m] st1] eqn:Hc.
  - exists r, st1. split; [done |]. left. by eapply Hok.
  - simpl. eexists _, _. split; [reflexivity |]. by right.
Qed.

End WithHost.
End StoreMoreFacts.

(** ** The agent and its store *)

Module AgentMoreFacts.
Import QualityAnalysisState StoreViews StoreFacts StoreMoreFacts.
Import TextOps Agent AgentFacts CodeQualityAgentChat.

Lemma fetch_historyRequest host sessionId limit st :
  fetch host (historyRequest sessionId limit) st
  = tryCatch
      (let* history :=
         QualityAnalysisState.getAnalysisHistory
           (if isEmptyString sessionId then "default"%string else sessionId) limit in
       ret {| status := 200; payload := HistoryJson history |})
      (λ error,
         QualityAnalysisState.consoleError ("Durable Object error: " +:+ error) >>
         ret {| status := 500;
                payload := PlainText ("Internal Server Error: " +:+ error) |}) st.
Proof. reflexivity. Qed.

(** An analysis with a score in range is stored as it was sent. *)
Lemma checked_toJson analysis :
  between 0 100 (overallScore analysis) →
  checked (CodeQualityAgent.toJson analysis) = analysis.
Proof.
  intros Hr. destruct analysis as [sec perf qual [score|] summ]; [| done].
  simpl in Hr. unfold checked, CodeQualityAgent.toJson. cbn -[checkedScore].
  by rewrite checkedScore_valid.
Qed.

Section WithHost.
Variable host : AgentHost.

(** The write-through with storage available. *)
Lemma saveAnalysisResult_ok analysis st :
  putFault (storeHost host) (puts (durable st)) = None →
  putFault (storeHost host) (S (puts (durable st))) = None →
  ∃ st1, CodeQualityAgent.saveAnalysisResult host analysis st = (Return tt, st1)
         ∧ sessions (durable st1)
           = <[CodeQualityAgent.getSessionId :=
                 savedSession (storeHost host) CodeQualityAgent.getSessionId
                   (CodeQualityAgent.toJson analysis) (durable st)]>
               (sessions (durable st))
         ∧ sameOutput st st1.
Proof.
  intros Hput1 Hput2.
  unfold CodeQualityAgent.saveAnalysisResult, tryCatch, sameOutput.
  unfold bind at 1. unfold onDurable. rewrite fetch_saveRequest.
  unfold tryCatch, bind at 1.
  destruct (saveAnalysis_ok (storeHost host) (durable st) CodeQualityAgent.getSessionId
              (CodeQualityAgent.toJson analysis)) as (d & -> & Hs & _); [done.. |].
  simpl. eexists. split; [reflexivity |]. simpl. done.
Qed.

(** Reading the history through the stub. *)
Lemma agent_getAnalysisHistory_run limit st :
  ∃ st', CodeQualityAgentChat.getAnalysisHistory host limit st
           = (Return (CodeQualityAgent.toJson
                        <$> sliceLast (Z.to_nat (validLimit limit))
                              (historyOf (durable st) CodeQualityAgent.getSessionId)),
              st')
         ∧ sessions (durable st') = sessions (durable st)
         ∧ sameOutput st st'.
Proof.
  unfold CodeQualityAgentChat.getAnalysisHistory, tryCatch, sameOutput.
  unfold bind at 1. unfold onDurable. rewrite fetch_historyRequest.
  unfold tryCatch, bind at 1.
  destruct (getAnalysisHistory_run (durable st) CodeQualityAgent.getSessionId limit)
    as (d & Hrun & Hs & _); [done |].
  simpl isEmptyString. cbv iota. rewrite Hrun.
  simpl. eexists. split; [reflexivity |]. simpl. done.
Qed.

(** *** The analysis call of [SimpleCodeAgent], case by case *)




End WithHost.
End AgentMoreFacts.

(** ** Summary and run of the workflow *)

Module WorkflowMoreFacts.
Import AnalysisWorkflow AnalysisWorkflowSteps WorkflowFacts.

(** The summary in closed form. *)
Lemma generateSummary_closed r :
  totalIssues (generateSummary r) = Z.of_nat (length (allFindings r))
  ∧ criticalIssues (generateSummary r)
    = Z.of_nat (length (List.filter isCritical (allFindings r)))
  ∧ averageScore (generateSummary r)
    = match allScores r with
      | [] => 0
      | scores => QualityAnalysisState.roundDiv (sumZ scores) (Z.of_nat (length scores))
      end.
Proof.
  destruct r as [[[sr|se]|] [[pr|pe]|] [[qr|qe]|]];
    unfold generateSummary, allFindings, allScores, values, findingsOf, countedScore;
    simpl;
    repeat match goal with
           | |- context [score ?x =? 0] => destruct (score x =? 0) eqn:?
           end;
    simpl; rewrite ?app_nil_r, <- ?app_assoc;
    (split; [reflexivity |]); (split; [reflexivity |]);
    try reflexivity; unfold sumZ; simpl; f_equal; lia.
Qed.

Lemma filter_length_le {A} (p : A → bool) (l : list A) :
  (length (List.filter p l) ≤ length l)%nat.
Proof.
  induction l as [|x l IH]; simpl; [lia |]. destruct (p x); simpl; lia.
Qed.

Lemma roundDiv_between lo hi a n :
  0 < n → lo * n ≤ a ≤ hi * n →
  lo ≤ QualityAnalysisState.roundDiv a n ≤ hi.
Proof.
  intros Hn Ha. unfold QualityAnalysisState.roundDiv. split.
  - apply Z.div_le_lower_bound; nia.
  - apply Z.lt_succ_r, Z.div_lt_upper_bound; nia.
Qed.

Lemma sumZ_between lo hi (l : list Z) :
  Forall (λ z, lo ≤ z ≤ hi) l →
  lo * Z.of_nat (length l) ≤ sumZ l ≤ hi * Z.of_nat (length l).
Proof.
  induction 1 as [|z l Hz _ IH]; unfold sumZ in *; simpl; [lia |]. nia.
Qed.

(** The run never takes its error path. *)
Lemma run_returns this uuid finishedAt input lines :
  let analysisResults := (performParallelAnalysis this input tt).1 in
  ∃ found lines',
    analysisResults = Return found
    ∧ run this uuid finishedAt input lines
      = (Return {| outputSessionId := sessionId input; analysisId := uuid;
                   results := found; summary := generateSummary found;
                   completedAt := finishedAt |}, lines')
    ∧ ∃ added, lines' = lines ++ added
               ∧ Forall (λ l, l.1 = LevelLog) added
               ∧ ((LevelLog, "⚠️ Critical issues found: "
                             +:+ pretty (criticalIssues (generateSummary found)))
                  ∈ added ↔ criticalIssues (generateSummary found) > 0).
Proof.
  intros analysisResults. subst analysisResults.
  rewrite performParallelAnalysis_run. simpl.
  unfold run, tryCatch, bind, step, initializeAnalysisSession, storeAnalysisResults,
    sendNotifications, consoleLog, modify, ret, when.
  rewrite performParallelAnalysis_run. simpl.
  match goal with |- context [criticalIssues ?g >? 0] =>
    destruct (criticalIssues g >? 0) eqn:Hc end; simpl;
    eexists _, _; (split; [reflexivity |]); (split; [reflexivity |]);
    eexists; (split; [by rewrite <- !app_assoc |]);
    (split; [repeat constructor |]).
  - split; [intros _ | intros _].
    + rewrite Z.gtb_ltb in Hc. apply Z.ltb_lt in Hc. lia.
    + simpl. do 4 right. left.
  - split; [intros Hin | intros Hpos].
    + simpl in Hin. rewrite !elem_of_cons in Hin.
      destruct Hin as [H|[H|[H|[H|H]]]]; try discriminate; by apply elem_of_nil in H.
    + rewrite Z.gtb_ltb in Hc. apply Z.ltb_ge in Hc. lia.
Qed.

End WorkflowMoreFacts.

(** ** Code extraction and the utilities *)

Module TextMoreFacts.
Import Text TextOps TextFacts ClassifierSpec ClassifierFacts UtilsMore.

Lemma startsWith_app k rest : startsWith k (k ++ rest) = true.
Proof. apply startsWith_spec. by exists rest. Qed.

Lemma startsWith_fence_clean c rest :
  c ≠ Router.backtick → startsWith Router.fence (c :: rest) = false.
Proof.
  intros Hc. destruct (startsWith Router.fence (c :: rest)) eqn:Hs; [| done].
  apply startsWith_spec in Hs as [post Hs]. by injection Hs as -> _.
Qed.

Lemma afterFirst_unfold k s :
  afterFirst k s =
  if startsWith k s then Some (drop (length k) s)
  else match s with [] => None | _ :: s' => afterFirst k s' end.
Proof. by destruct s. Qed.

Lemma beforeFirst_unfold k s :
  beforeFirst k s =
  if startsWith k s then Some []
  else match s with [] => None | c :: s' => (c ::.) <$> beforeFirst k s' end.
Proof. by destruct s. Qed.

Lemma afterFirst_Some k s rest :
  afterFirst k s = Some rest → ∃ pre, s = pre ++ k ++ rest.
Proof.
  revert rest. induction s as [|c s IH]; intros rest; rewrite afterFirst_unfold.
  - destruct (startsWith k []) eqn:Hk; [| done].
    intros [= <-]. apply startsWith_spec in Hk as [post Hk].
    exists []. simpl. rewrite Hk at 1. by rewrite Hk, drop_app_length.
  - destruct (startsWith k (c :: s)) eqn:Hk.
    + intros [= <-]. apply startsWith_spec in Hk as [post Hk].
      exists []. simpl. rewrite Hk at 1. by rewrite Hk, drop_app_length.
    + intros Hrest. apply IH in Hrest as [pre ->]. by exists (c :: pre).
Qed.

Lemma beforeFirst_Some k s inner :
  beforeFirst k s = Some inner → ∃ post, s = inner ++ k ++ post.
Proof.
  revert inner. induction s as [|c s IH]; intros inner; rewrite beforeFirst_unfold.
  - destruct (startsWith k []) eqn:Hk; [| done].
    intros [= <-]. by apply startsWith_spec in Hk as [post Hk]; exists post.
  - destruct (startsWith k (c :: s)) eqn:Hk.
    + intros [= <-]. by apply startsWith_spec in Hk as [post Hk]; exists post.
    + destruct (beforeFirst k s) as [inner'|]; [| done]. simpl.
      intros [= <-]. destruct (IH inner' eq_refl) as [post ->]. by exists post.
Qed.

Lemma beforeFirst_found k x y : is_Some (beforeFirst k (x ++ k ++ y)).
Proof.
  induction x as [|c x IH].
  - rewrite beforeFirst_unfold. simpl. rewrite startsWith_app. by eexists.
  - rewrite beforeFirst_unfold. simpl.
    destruct (startsWith k (c :: x ++ k ++ y)); [by eexists |].
    destruct IH as [inner ->]. by eexists.
Qed.

(** After the first occurrence of [k], whatever followed some occurrence
    of [k] is still there. *)
Lemma afterFirst_found k a t :
  ∃ u, afterFirst k (a ++ k ++ t) = Some (u ++ t).
Proof.
  assert (∀ x, drop (length k) ((x ++ k) ++ t) = drop (length k) (x ++ k) ++ t)
    as Hdrop.
  { intros x. apply drop_app_le. rewrite length_app. lia. }
  induction a as [|c a IH]; rewrite afterFirst_unfold.
  - simpl. rewrite startsWith_app. exists []. by rewrite drop_app_length.
  - destruct (startsWith k ((c :: a) ++ k ++ t)) eqn:Hs.
    + exists (drop (length k) ((c :: a) ++ k)). by rewrite app_assoc, Hdrop.
    + exact IH.
Qed.

(** *** The fenced block that the extraction picks *)

Lemma fencedInner_Some content inner :
  fencedInner content = Some inner →
  ∃ pre post, content = pre ++ Router.fence ++ inner ++ Router.fence ++ post.
Proof.
  unfold fencedInner. destruct (afterFirst Router.fence content) as [rest|] eqn:Ha; [| done].
  simpl. intros Hb. apply afterFirst_Some in Ha as [pre ->].
  apply beforeFirst_Some in Hb as [post ->]. by exists pre, post.
Qed.

Lemma fencedInner_None content :
  fencedInner content = None ↔ ¬ hasFencedBlock content.
Proof.
  split.
  - intros Hnone (a & b & c & ->). revert Hnone. unfold fencedInner.
    destruct (afterFirst_found Router.fence a (b ++ Router.fence ++ c)) as [u ->].
    destruct (beforeFirst_found Router.fence (u ++ b) c) as [inner Hinner].
    rewrite <- app_assoc in Hinner.
    intros Hnone. apply bind_None in Hnone as [Hnone | (x & [= <-] & Hnone)]; [done |].
    change (beforeFirst Router.fence (u ++ b ++ Router.fence ++ c) = None) in Hnone.
    by rewrite Hinner in Hnone.
  - intros Hno. destruct (fencedInner content) as [inner|] eqn:Hin; [| done].
    destruct Hno. apply fencedInner_Some in Hin as (pre & post & ->).
    by exists pre, inner, post.
Qed.

Lemma afterFirst_clean before rest :
  Forall (λ c, c ≠ Router.backtick) before →
  afterFirst Router.fence (before ++ Router.fence ++ rest) = Some rest.
Proof.
  induction 1 as [|c before Hc _ IH]; [done |].
  rewrite afterFirst_unfold.
  change ((c :: before) ++ Router.fence ++ rest)
    with (c :: before ++ Router.fence ++ rest).
  by rewrite startsWith_fence_clean.
Qed.

Lemma beforeFirst_clean inner rest :
  Forall (λ c, c ≠ Router.backtick) inner →
  beforeFirst Router.fence (inner ++ Router.fence ++ rest) = Some inner.
Proof.
  induction 1 as [|c inner Hc _ IH]; [done |].
  rewrite beforeFirst_unfold.
  change ((c :: inner) ++ Router.fence ++ rest)
    with (c :: inner ++ Router.fence ++ rest).
  rewrite startsWith_fence_clean by done. by rewrite IH.
Qed.

Lemma fencedInner_clean before inner after :
  Forall (λ c, c ≠ Router.backtick) before →
  Forall (λ c, c ≠ Router.backtick) inner →
  fencedInner (before ++ Router.fence ++ inner ++ Router.fence ++ after) = Some inner.
Proof.
  intros Hb Hi. unfold fencedInner. rewrite afterFirst_clean by done. simpl.
  by apply beforeFirst_clean.
Qed.

Lemma isWordChar_not_backtick c : isWordChar c = true → c ≠ Router.backtick.
Proof. by intros Hw ->. Qed.

Lemma dropWhile_tag tag source :
  Forall (λ c, isWordChar c = true) tag →
  dropWhile isWordChar (tag ++ newline :: source) = newline :: source.
Proof. induction 1 as [|c tag Hc _ IH]; [done |]. simpl. by rewrite Hc. Qed.

Lemma takeWhile_tag tag source :
  Forall (λ c, isWordChar c = true) tag →
  takeWhile isWordChar (tag ++ newline :: source) = tag.
Proof. induction 1 as [|c tag Hc _ IH]; [done |]. simpl. by rewrite Hc, IH. Qed.

Lemma stripFences_tag tag source :
  Forall (λ c, isWordChar c = true) tag →
  stripFences (tag ++ newline :: source) = source.
Proof. intros Ht. unfold stripFences. by rewrite dropWhile_tag. Qed.

Lemma tagged_clean tag source :
  Forall (λ c, isWordChar c = true) tag →
  Forall (λ c, c ≠ Router.backtick) source →
  Forall (λ c, c ≠ Router.backtick) (tag ++ newline :: source).
Proof.
  intros Ht Hs. apply Forall_app. split.
  - eapply Forall_impl; [exact Ht |]. intros c. apply isWordChar_not_backtick.
  - by constructor.
Qed.

Lemma lit_fencedMessage before tag source after :
  lit (fencedMessage before tag source after)
  = before ++ Router.fence ++ (tag ++ newline :: source) ++ Router.fence ++ after.
Proof.
  unfold lit, fencedMessage. rewrite list_ascii_of_string_of_list_ascii.
  by rewrite <- (app_assoc tag), <- app_comm_cons.
Qed.

(** *** Extension of a text *)

Lemma hasFencedBlock_extends pre s post :
  hasFencedBlock s → hasFencedBlock (pre ++ s ++ post).
Proof.
  intros (a & b & c & ->). exists (pre ++ a), b, (c ++ post).
  by rewrite <- !app_assoc.
Qed.

Lemma hasInlineSpan_extends pre s post :
  hasInlineSpan s → hasInlineSpan (pre ++ s ++ post).
Proof.
  intros (a & b & c & -> & Hb & Hall). exists (pre ++ a), b, (c ++ post).
  split; [| done]. rewrite <- !app_assoc. simpl. by rewrite <- !app_assoc.
Qed.

Lemma contains_extends pre s post k :
  contains s k → contains (pre ++ s ++ post) k.
Proof.
  intros (a & b & ->). exists (pre ++ a), (b ++ post). by rewrite <- !app_assoc.
Qed.

Lemma containsIgnoringCase_extends pre s post k :
  containsIgnoringCase s k → containsIgnoringCase (pre ++ s ++ post) k.
Proof.
  intros (a & m & b & -> & Hm). exists (pre ++ a), m, (b ++ post).
  split; [| done]. by rewrite <- !app_assoc.
Qed.

Lemma routerRule_extends pre s post :
  routerRule s → routerRule (pre ++ s ++ post).
Proof.
  unfold routerRule. intros [H | [H | [(k & Hk & H) | (k & Hk & H)]]].
  - left. by apply hasFencedBlock_extends.
  - right; left. by apply hasInlineSpan_extends.
  - right; right; left. exists k. split; [done |]. by apply containsIgnoringCase_extends.
  - right; right; right. exists k. split; [done |]. by apply contains_extends.
Qed.

Lemma utilsRule_extends pre s post :
  utilsRule s → utilsRule (pre ++ s ++ post).
Proof.
  unfold utilsRule. intros [H | [H | [H | (k & Hk & H)]]].
  - left. by apply hasFencedBlock_extends.
  - right; left. by apply contains_extends.
  - right; right; left. by apply contains_extends.
  - right; right; right. exists k. split; [done |]. by apply containsIgnoringCase_extends.
Qed.

End TextMoreFacts.

(** ** The Worker *)

Module WorkerFacts.
Import Agent Worker WorkerViews.

Lemma performCodeAnalysis_run host content st :
  ∃ st', performCodeAnalysis host content st
         = (Return (analysisText (nextAnswer host st analysisSystemPrompt content)), st')
         ∧ durable st' = durable st ∧ stream st' = stream st.
Proof.
  unfold performCodeAnalysis, nextAnswer, tryCatch.
  destruct (ai host) as [run|]; cbn [fmap option_fmap option_map analysisText].
  - unfold bind, aiRun.
    destruct (run (aiCalls st) analysisSystemPrompt content) as [[result|]|message].
    + cbn [orElse]. destruct (QualityAnalysisState.isEmptyString result);
        eexists; (split; [reflexivity | done]).
    + eexists; (split; [reflexivity | done]).
    + eexists; (split; [reflexivity | done]).
  - eexists; (split; [reflexivity | done]).
Qed.

Lemma performGeneralChat_run host content st :
  ∃ text st', performGeneralChat host content st = (Return text, st')
              ∧ durable st' = durable st ∧ stream st' = stream st.
Proof.
  unfold performGeneralChat, tryCatch.
  destruct (ai host) as [run|].
  - unfold bind, aiRun.
    destruct (run (aiCalls st) chatSystemPrompt content) as [[result|]|message].
    + destruct (QualityAnalysisState.isEmptyString result);
        eexists _, _; (split; [reflexivity | done]).
    + eexists _, _; (split; [reflexivity | done]).
    + eexists _, _; (split; [reflexivity | done]).
  - eexists _, _; (split; [reflexivity | done]).
Qed.

Lemma readable_intro s h p :
  allowOrigin ∈ h → s ∈ [200; 400; 404; 500]%Z →
  readable {| status := s; headers := h; payload := p |}.
Proof. by split. Qed.

Ltac readable_now := apply readable_intro; set_solver.

Lemma analyzeRoute_run host request st :
  ∃ response st', analyzeRoute host request st = (Return response, st')
                  ∧ readable response.
Proof.
  unfold analyzeRoute, tryCatch, bind, requestJson.
  destruct (body request) as [| |messages [source|] language].
  - eexists _, _. split; [reflexivity | readable_now].
  - eexists _, _. split; [reflexivity | readable_now].
  - unfold ret at 1. cbv beta iota.
    destruct (QualityAnalysisState.isEmptyString source).
    + eexists _, _. split; [reflexivity | readable_now].
    + destruct (performCodeAnalysis_run host (analysisPrompt source language) st)
        as (st' & -> & _).
      eexists _, _. split; [reflexivity | readable_now].
  - eexists _, _. split; [reflexivity | readable_now].
Qed.

Lemma otherRoutes_run host isoNow request st :
  ∃ response st', otherRoutes host isoNow request st = (Return response, st')
                  ∧ readable response.
Proof.
  unfold otherRoutes.
  destruct (String.eqb (pathname request) "/api/analyze"
            && String.eqb (method request) "POST"); [apply analyzeRoute_run |].
  destruct (String.eqb (pathname request) "/health");
    eexists _, _; (split; [reflexivity | readable_now]).
Qed.

Lemma agentsRoute_run host request st :
  ∃ answered st', agentsRoute host request st = (Return answered, st')
                  ∧ ∀ response, answered = Some response → readable response.
Proof.
  unfold agentsRoute, tryCatch.
  destruct (match agentType (pathname request) with
            | Some segment => bool_decide (segment = Text.lit "simple-code-agent")
            | None => false
            end).
  - destruct (String.eqb (method request) "POST").
    + unfold bind, requestJson.
      destruct (body request) as [| |messages source language].
      * eexists _, _. split; [reflexivity |]. intros r [= <-]. readable_now.
      * eexists _, _. split; [reflexivity |]. intros r [= <-]. readable_now.
      * unfold ret at 1. cbv beta iota.
        destruct (last (default [] messages)) as [lastMessage|].
        -- destruct (Router.isCodeAnalysisRequest (Text.lit (content lastMessage))).
           ++ destruct (performCodeAnalysis_run host (content lastMessage) st)
                as (st' & -> & _).
              eexists _, _. split; [reflexivity |]. intros r [= <-]. readable_now.
           ++ destruct (performGeneralChat_run host (content lastMessage) st)
                as (text & st' & -> & _).
              eexists _, _. split; [reflexivity |]. intros r [= <-]. readable_now.
        -- eexists _, _. split; [reflexivity |]. intros r [= <-]. readable_now.
    + eexists _, _. split; [reflexivity |]. by intros r.
  - eexists _, _. split; [reflexivity |]. intros r [= <-]. readable_now.
Qed.

Lemma fetch_analyzeRequest host isoNow request st :
  pathname request = "/api/analyze"%string →
  method request = "POST"%string →
  fetch host isoNow request st = analyzeRoute host request st.
Proof. intros Hp Hm. unfold fetch, otherRoutes. by rewrite Hp, Hm. Qed.

Lemma fetch_chatRequest host isoNow request st :
  pathname request = "/agents/simple-code-agent"%string →
  method request = "POST"%string →
  fetch host isoNow request st
  = bind (agentsRoute host request)
      (λ answered, match answered with
                   | Some response => ret response
                   | None => otherRoutes host isoNow request
                   end) st.
Proof. intros Hp Hm. unfold fetch. by rewrite Hp, Hm. Qed.

End WorkerFacts.

(** * The specified properties, settled on the code *)

Module ClassifierClaims.
Import Text ClassifierSpec ClassifierFacts.

(** C4, counterexample. The rule as specified (twelve keywords, eight
    structural tokens, inline spans) is decided by neither classifier:
    the router helper rejects the message [bug], which contains one of the
    twelve keywords, and the utility rejects [let x], which contains a
    structural token. *)
Lemma isCodeAnalysisRequest_differs_from_specified_rule :
  (specifiedRule (lit "bug")
   ∧ Router.isCodeAnalysisRequest (lit "bug") = false)
  ∧ (specifiedRule (lit "let x")
     ∧ Utils.isCodeAnalysisRequest (lit "let x") = false).
Proof.
  split; split; try (vm_compute; reflexivity).
  - right; right; left. exists (lit "bug"). split.
    + unfold Utils.codeAnalysisKeywords. rewrite list_elem_of_In. simpl. tauto.
    + by exists [], (lit "bug"), [].
  - right; right; right. exists (lit "let"). split.
    + unfold Router.structuralTokens. rewrite list_elem_of_In. simpl. tauto.
    + by exists [], (lit " x").
Qed.

(** C4, as amended. The router helper answers true exactly when the text
    holds a fenced block, an inline code span, one of the six keywords
    analyze, review, check, security, performance, quality in any letter
    case, or one of the eight structural tokens; the utility (and the
    agents' copy of it) answers true exactly when the text holds a fenced
    block, the token function or class, or one of the twelve keywords in
    any letter case. Both are total functions and answer false on the
    empty text. *)
Theorem isCodeAnalysisRequest_rule (content : text) :
  (Router.isCodeAnalysisRequest content = true ↔ routerRule content)
  ∧ (Utils.isCodeAnalysisRequest content = true ↔ utilsRule content)
  ∧ Router.isCodeAnalysisRequest [] = false
  ∧ Utils.isCodeAnalysisRequest [] = false.
Proof.
  split; [apply router_decides |].
  split; [apply utils_decides |].
  split; reflexivity.
Qed.

End ClassifierClaims.

Module StoreClaims.
Import QualityAnalysisState StoreViews StoreFacts.

(** C1, the code at a failing input. Fifty-two analyses of score 100 are
    saved to one fresh session. The mean of all fifty-two scores is 100,
    yet the session reports 98: at the fifty-second save the sum runs over
    the fifty retained entries and the new one, fifty-one in all, and is
    divided by the lifetime count fifty-two. *)
Theorem averageScore_drifts_after_eviction :
  let saved := replicate 52 (scored (JsNumber 100)) in
  ∃ st', saveAll reliableHost "s" saved emptyStore = (Return tt, st')
         ∧ totalOf st' "s" = 52
         ∧ averageOf st' "s" = 98
         ∧ roundedMean (checked <$> saved) = 100.
Proof.
  intros saved.
  exists (saveAll reliableHost "s" saved emptyStore).2.
  split; [| split; [| split]]; vm_compute; reflexivity.
Qed.

(** C5. After [n] saves on one session, with storage available, the
    counter [totalAnalyses] is [n], and the history is the last fifty of
    the saved analyses in the order of saving, so it has [min n 50]
    entries. *)
Theorem saveAnalysis_counts_and_caps host st sessionId (l : list UncheckedAnalysis) :
  (∀ n, putFault host n = None) →
  sessionId ≠ EmptyString →
  sessions st !! sessionId = None →
  ∃ st', saveAll host sessionId l st = (Return tt, st')
         ∧ totalOf st' sessionId = Z.of_nat (length l)
         ∧ historyOf st' sessionId = sliceLast 50 (checked <$> l)
         ∧ length (historyOf st' sessionId) = (length l `min` 50)%nat.
Proof.
  intros Hput Hid Hfresh.
  destruct (saveAll_holds host st sessionId l Hput Hid Hfresh) as (st' & Hrun & Hh & _).
  exists st'. split; [done |].
  unfold totalOf, historyOf, holds in *.
  destruct (sessions st' !! sessionId) as [s|].
  - destruct Hh as (_ & Htot & Han & _). rewrite Htot, Han.
    split; [done |]. split; [done |].
    by rewrite length_sliceLast, length_fmap.
  - subst l. done.
Qed.

(** Fifty-one saves leave fifty entries and a counter of fifty-one. *)
Lemma saveAnalysis_counts_and_caps_witness :
  ∃ st', saveAll reliableHost "s" (replicate 51 (scored (JsNumber 80))) emptyStore
           = (Return tt, st')
         ∧ totalOf st' "s" = 51
         ∧ length (historyOf st' "s") = 50%nat.
Proof.
  destruct (saveAnalysis_counts_and_caps reliableHost emptyStore "s"
              (replicate 51 (scored (JsNumber 80))))
    as (st' & Hrun & Htot & _ & Hlen).
  - reflexivity.
  - discriminate.
  - reflexivity.
  - exists st'. split; [exact Hrun |]. split; [exact Htot | exact Hlen].
Defined.

(** C6, the code at a failing input. A save is never refused on account
    of its score, and the analysis is stored as the newest entry of the
    history. A number from 0 to 100 is kept as it is; a value that is
    absent, of another type, negative, above 100 or infinite is stored as
    50. NaN is the exception: it is of type number and fails neither bound
    test, so it passes validation and is stored as NaN, where the claim has
    every score that is not a number stored as 50. *)
Theorem saveAnalysis_score_validation host st sessionId (a : UncheckedAnalysis) :
  sessionId ≠ EmptyString →
  putFault host (puts st) = None →
  putFault host (S (puts st)) = None →
  ∃ st' stored,
    saveAnalysis host sessionId (Some a) st = (Return tt, st')
    ∧ last (historyOf st' sessionId) = Some stored
    ∧ securityIssues stored = receivedSecurityIssues a
    ∧ performanceIssues stored = receivedPerformanceIssues a
    ∧ qualityIssues stored = receivedQualityIssues a
    ∧ summary stored = receivedSummary a
    ∧ (∀ z, receivedOverallScore a = JsNumber z → 0 ≤ z ≤ 100 →
            overallScore stored = Finite z)
    ∧ (receivedOverallScore a = JsNaN →
       invalidScore (receivedOverallScore a) = false ∧ overallScore stored = NaN)
    ∧ (receivedOverallScore a ≠ JsNaN →
       (∀ z, receivedOverallScore a = JsNumber z → z < 0 ∨ 100 < z) →
       overallScore stored = Finite 50).
Proof.
  intros Hid Hput1 Hput2.
  destruct (saveAnalysis_ok host st sessionId a Hid Hput1 Hput2)
    as (st' & Hrun & Hs & _).
  exists st', (checked a). split; [done |]. split.
  - unfold historyOf. rewrite Hs, lookup_insert_eq.
    unfold savedSession. apply recordAnalysis_last.
  - do 4 (split; [done |]). simpl. split; [| split].
    + intros z -> Hz. by apply checkedScore_valid.
    + by intros ->.
    + apply checkedScore_invalid.
Qed.

(** A score of 150 is stored as 50; a score of NaN is stored as NaN, not
    as 50. *)
Lemma saveAnalysis_score_validation_witness :
  (∃ st' stored,
     saveAnalysis reliableHost "s" (Some (scored (JsNumber 150))) emptyStore
       = (Return tt, st')
     ∧ last (historyOf st' "s") = Some stored
     ∧ overallScore stored = Finite 50)
  ∧ (∃ st' stored,
       saveAnalysis reliableHost "s" (Some (scored JsNaN)) emptyStore
         = (Return tt, st')
       ∧ last (historyOf st' "s") = Some stored
       ∧ overallScore stored = NaN
       ∧ overallScore stored ≠ Finite 50).
Proof.
  split.
  - destruct (saveAnalysis_score_validation reliableHost emptyStore "s"
                (scored (JsNumber 150)))
      as (st' & stored & Hrun & Hlast & _ & _ & _ & _ & _ & _ & Hbad).
    + discriminate.
    + reflexivity.
    + reflexivity.
    + exists st', stored. split; [exact Hrun |]. split; [exact Hlast |].
      apply Hbad; [discriminate |]. simpl. intros z Hz. injection Hz as <-. right. lia.
  - destruct (saveAnalysis_score_validation reliableHost emptyStore "s" (scored JsNaN))
      as (st' & stored & Hrun & Hlast & _ & _ & _ & _ & _ & Hnan & _).
    + discriminate.
    + reflexivity.
    + reflexivity.
    + destruct (Hnan eq_refl) as [_ Hstored].
      exists st', stored. split; [exact Hrun |]. split; [exact Hlast |].
      split; [exact Hstored |]. rewrite Hstored. discriminate.
Defined.

(** C8. The sweep removes exactly the sessions idle for more than
    [maxAgeMs] at the time it reads the clock and leaves every other
    session as it was. It returns the number of sessions removed, provided
    the write that follows a removal succeeds; on a store without
    sessions it returns 0 whatever the state of storage. *)
Theorem cleanupOldSessions_removes_expired host st maxAgeMs :
  let now := clock host (ticks st) in
  let removed :=
    size (filter (λ e, expired now maxAgeMs e.2 = true) (sessions st)) in
  ∃ r st',
    cleanupOldSessions host maxAgeMs st = (r, st')
    ∧ (∀ k s, sessions st !! k = Some s → now - lastActivity s > maxAgeMs →
              sessions st' !! k = None)
    ∧ (∀ k s, sessions st !! k = Some s → ¬ (now - lastActivity s > maxAgeMs) →
              sessions st' !! k = Some s)
    ∧ (∀ k, sessions st !! k = None → sessions st' !! k = None)
    ∧ (putFault host (puts st) = None → r = Return (Z.of_nat removed))
    ∧ (sessions st = ∅ → r = Return 0).
Proof.
  intros now removed.
  destruct (cleanupOldSessions_run host st maxAgeMs) as (r & st' & Hrun & Hlk & Hr & _).
  fold now in Hlk, Hr. fold removed in Hr.
  exists r, st'. split; [done |]. repeat split.
  - intros k s Hk Hidle. rewrite Hlk, Hk.
    apply (expired_spec now maxAgeMs s) in Hidle. by rewrite Hidle.
  - intros k s Hk Hidle. rewrite Hlk, Hk.
    destruct (expired now maxAgeMs s) eqn:He; [| done].
    by apply expired_spec in He.
  - intros k Hk. by rewrite Hlk, Hk.
  - intros Hput. apply Hr. by right.
  - intros Hempty. replace 0 with (Z.of_nat removed); [apply Hr; left |].
    + unfold removed. rewrite Hempty, map_filter_empty, map_size_empty. done.
    + unfold removed. rewrite Hempty, map_filter_empty, map_size_empty. done.
Qed.

(** With a limit of 500 ms at time 1000, the session idle since 0 goes,
    the one active at 1000 stays, and the sweep returns 1. *)
Lemma cleanupOldSessions_removes_expired_witness :
  ∃ r st',
    cleanupOldSessions reliableHost 500 twoSessions = (r, st')
    ∧ sessions st' !! "old" = None
    ∧ sessions st' !! "new" = Some (idleSession "new" 1000)
    ∧ r = Return 1.
Proof.
  destruct (cleanupOldSessions_removes_expired reliableHost twoSessions 500)
    as (r & st' & Hrun & Hgone & Hkept & _ & Hcount & _).
  exists r, st'. split; [exact Hrun |]. split; [| split].
  - apply (Hgone "old" (idleSession "old" 0)); [reflexivity | simpl; lia].
  - apply (Hkept "new" (idleSession "new" 1000)); [reflexivity | simpl; lia].
  - apply Hcount. reflexivity.
Defined.

(** C9, the code at a failing input. A score of 0 passes validation and
    is kept in the history as 0. Fifty-two analyses of score 0 are saved to
    one fresh session: every retained entry has score 0 and counts as 50
    in the sum, yet the session reports an average of 49, not 50. The sum
    runs over the fifty retained entries and the new one and is divided by
    the lifetime count fifty-two. *)
Theorem zero_scores_do_not_always_average_fifty :
  let saved := replicate 52 (scored (JsNumber 0)) in
  ∃ st', saveAll reliableHost "s" saved emptyStore = (Return tt, st')
         ∧ invalidScore (JsNumber 0) = false
         ∧ Forall (λ r, overallScore r = Finite 0 ∧ scoreOrDefault r = 50)
                  (historyOf st' "s")
         ∧ totalOf st' "s" = 52
         ∧ averageOf st' "s" = 49
         ∧ averageOf st' "s" ≠ 50.
Proof.
  intros saved.
  exists (saveAll reliableHost "s" saved emptyStore).2.
  split; [| split; [| split; [| split; [| split]]]];
    vm_compute; [reflexivity | reflexivity | | reflexivity | reflexivity | discriminate].
  repeat (constructor; [by split |]). constructor.
Qed.

(** While no entry has been evicted the substitution is exact: a session
    that has received between one and fifty-one analyses, all of score 0,
    keeps them as 0 and reports an average of 50. *)
Lemma zero_score_counts_as_fifty host st sessionId (l : list UncheckedAnalysis) :
  (∀ n, putFault host n = None) →
  sessionId ≠ EmptyString →
  sessions st !! sessionId = None →
  Forall (λ a, receivedOverallScore a = JsNumber 0) l →
  (1 ≤ length l ≤ 51)%nat →
  ∃ st', saveAll host sessionId l st = (Return tt, st')
         ∧ Forall (λ r, overallScore r = Finite 0 ∧ scoreOrDefault r = 50)
                  (historyOf st' sessionId)
         ∧ averageOf st' sessionId = 50.
Proof.
  intros Hput Hid Hfresh Hzero Hlen.
  destruct (saveAll_holds host st sessionId l Hput Hid Hfresh) as (st' & Hrun & Hh & _).
  exists st'. split; [done |].
  assert (Forall (λ r, overallScore r = Finite 0) (checked <$> l)) as Hchecked.
  { apply Forall_fmap. eapply Forall_impl; [exact Hzero |].
    intros a Ha. simpl. by rewrite Ha. }
  unfold historyOf, averageOf, holds in *.
  destruct (sessions st' !! sessionId) as [s|]; [| subst l; simpl in Hlen; lia].
  destruct Hh as (_ & _ & Han & Hav). split.
  - rewrite Han. unfold sliceLast. apply Forall_drop.
    eapply Forall_impl; [exact Hchecked |].
    intros r Hr. split; [done |]. unfold scoreOrDefault. by rewrite Hr.
  - rewrite Hav, sliceLast_short by (rewrite length_fmap; lia).
    unfold totalScore. rewrite totalScore_from.
    + rewrite length_fmap. simpl. apply roundDiv_fifty. lia.
    + eapply Forall_impl; [exact Hchecked |]. intros r Hr. by left.
Qed.

(** C10. When the write issued by [saveAnalysis] itself fails, after the
    one inside [getSession] went through, the call raises the error while
    the session in memory already holds the update: the analysis is the
    newest entry, the counter is one higher, the average is recomputed and
    the activity stamp is renewed, exactly as after a successful save. The
    durable copy is the one written before the update. *)
Theorem saveAnalysis_not_atomic host st sessionId (a : UncheckedAnalysis) message :
  sessionId ≠ EmptyString →
  putFault host (puts st) = None →
  putFault host (S (puts st)) = Some message →
  ∃ st' s,
    saveAnalysis host sessionId (Some a) st
      = (Throw ("Failed to save analysis: Failed to save state: " +:+ message), st')
    ∧ sessions st' !! sessionId = Some s
    ∧ s = savedSession host sessionId a st
    ∧ last (analyses s) = Some (checked a)
    ∧ totalAnalyses s = totalOf st sessionId + 1
    ∧ averageScore s
      = roundDiv (totalScore (historyOf st sessionId ++ [checked a]))
                 (totalOf st sessionId + 1)
    ∧ lastActivity s = clock host (ticks st + loadTicks sessionId st)%nat
    ∧ storage st'
      = Some (<[sessionId := loadedSession host sessionId None st]> (sessions st)).
Proof.
  intros Hid Hput1 Hput2.
  destruct (saveAnalysis_fails_late host st sessionId a message Hid Hput1 Hput2)
    as (st' & Hrun & Hs & Hg).
  exists st', (savedSession host sessionId a st).
  split; [done |]. split; [by rewrite Hs, lookup_insert_eq |]. split; [done |].
  unfold savedSession. split; [apply recordAnalysis_last |]. simpl.
  rewrite loadedSession_history, loadedSession_total. done.
Qed.

(** The first save on a fresh session, with the second write failing. *)
Lemma saveAnalysis_not_atomic_witness :
  ∃ st' s,
    saveAnalysis (failingAt 1) "s" (Some (scored (JsNumber 80))) emptyStore
      = (Throw "Failed to save analysis: Failed to save state: disk unavailable", st')
    ∧ sessions st' !! "s" = Some s
    ∧ totalAnalyses s = 1
    ∧ averageScore s = 80
    ∧ last (analyses s) = Some (checked (scored (JsNumber 80))).
Proof.
  destruct (saveAnalysis_not_atomic (failingAt 1) emptyStore "s"
              (scored (JsNumber 80)) "disk unavailable")
    as (st' & s & Hrun & Hs & _ & Hlast & Htot & Havg & _).
  - discriminate.
  - reflexivity.
  - reflexivity.
  - exists st', s. split; [exact Hrun |]. split; [exact Hs |].
    split; [exact Htot |]. split; [exact Havg | exact Hlast].
Defined.

End StoreClaims.

Module DispatcherClaims.
Import QualityAnalysisState StoreViews StoreFacts.
Import AnalysisWorkflow TextOps Agent WorkflowFacts AgentFacts Samples.




(** C3. Whatever subset of aspects is requested and however each
    analysis call ends, the dispatcher of the workflow settles every
    launched call and returns: a requested aspect whose call succeeded
    carries the report of that call, one whose call failed carries its
    error object, and an aspect not requested is absent. The chat agent
    likewise completes its three analysis calls whatever the model does:
    each call returns the model's text or, on failure, a line naming the
    error, and the report streamed to the caller is built from the three
    texts. *)
Theorem aspect_failure_is_absorbed :
  (∀ this input,
      performParallelAnalysis this input tt
      = (Return
           {| securityResult :=
                expectedField (includes (analysisTypes input) security)
                  "Security analysis failed" (analyzeSecurity this (code input));
              performanceResult :=
                expectedField (includes (analysisTypes input) performance)
                  "Performance analysis failed" (analyzePerformance this (code input));
              qualityResult :=
                expectedField (includes (analysisTypes input) quality)
                  "Quality analysis failed" (analyzeQuality this (code input)) |},
         tt))
  ∧ (∀ S A (tasks : list (M S A)) st, ∃ settled st',
        promiseAllSettled tasks st = (Return settled, st')
        ∧ length settled = length tasks)
  ∧ (∀ host code analysisType st, ∃ text st',
        CodeQualityAgent.analyzeWithWorkersAI host code analysisType st = (Return text, st')
        ∧ (∀ run message,
             ai host = Some run →
             run (aiCalls st) (systemPrompt analysisType) (userMessage code)
               = AiFailure message →
             text = "Analysis error: " +:+ message)
        ∧ (∀ run reply,
             ai host = Some run →
             run (aiCalls st) (systemPrompt analysisType) (userMessage code)
               = AiReply (Some reply) →
             reply ≠ EmptyString →
             text = reply))
  ∧ (∀ host content onFinish st, ∃ s p q st1 st2 st3 st',
        CodeQualityAgent.analyzeWithWorkersAI host (extractCode content) securityFocus st
          = (Return s, st1)
        ∧ CodeQualityAgent.analyzeWithWorkersAI host (extractCode content)
            performanceFocus st1 = (Return p, st2)
        ∧ CodeQualityAgent.analyzeWithWorkersAI host (extractCode content)
            qualityFocus st2 = (Return q, st3)
        ∧ CodeQualityAgent.performCodeAnalysis host content onFinish st = (Return tt, st')
        ∧ stream st' = stream st ++ chunksOf (combinedAnalysis s p q)).
Proof.
  split; [| split; [| split]].
  - apply performParallelAnalysis_run.
  - intros S A tasks st. apply promiseAllSettled_length.
  - intros host code analysisType st.
    destruct (quality_analyze_returns host code analysisType st)
      as (text & st' & Hrun & _ & _ & Hfail & Hreply & _).
    exists text, st'. by repeat split.
  - intros host content onFinish st.
    destruct (quality_performCodeAnalysis_run host content onFinish st)
      as (s & p & q & st1 & st2 & st3 & st' & H1 & H2 & H3 & Hrun & Hstream & _).
    exists s, p, q, st1, st2, st3, st'. by repeat split.
Qed.

(** With the security call rejected and the other two fulfilled, the
    result holds the error object for security and the two real reports;
    with the model failing on the first call only, the first text is the
    error line and the call still returns. *)
Lemma aspect_failure_is_absorbed_witness :
  (∃ performanceReport qualityReport,
      performParallelAnalysis securityDown (allAspects "let x = 1") tt
      = (Return {| securityResult := Some (ErrorObject "Security analysis failed");
                   performanceResult := Some (Analysed performanceReport);
                   qualityResult := Some (Analysed qualityReport) |}, tt))
  ∧ (∃ st', CodeQualityAgent.analyzeWithWorkersAI flakyAgent "let x = 1"
              securityFocus initialState
            = (Return "Analysis error: timeout"%string, st')).
Proof.
  destruct aspect_failure_is_absorbed as (Hworkflow & _ & Hcall & _).
  split.
  - eexists _, _. rewrite Hworkflow. reflexivity.
  - destruct (Hcall flakyAgent "let x = 1"%string securityFocus initialState)
      as (text & st' & Hrun & Hfail & _).
    exists st'. rewrite Hrun. f_equal. f_equal.
    apply (Hfail flakyModel "timeout"%string); reflexivity.
Defined.



End DispatcherClaims.

(** * Further properties of the code *)

Module StoreExtras.
Import QualityAnalysisState StoreViews StoreFacts Activation StoreMoreFacts MoreSamples.

(** X1. [getAnalysisHistory] never fails and changes neither the sessions
    nor storage. For a non-empty session id it returns the newest entries
    of the stored history, in stored order, as many as the limit clamped
    to 1..100 allows: a limit of zero or below still yields one entry,
    and an unknown session yields none. *)
Theorem getAnalysisHistory_recent st sessionId limit :
  sessionId ≠ EmptyString →
  ∃ history older st',
    getAnalysisHistory sessionId limit st = (Return history, st')
    ∧ historyOf st sessionId = older ++ history
    ∧ length history
      = (length (historyOf st sessionId) `min` Z.to_nat (Z.max 1 (Z.min limit 100)))%nat
    ∧ sessions st' = sessions st ∧ storage st' = storage st ∧ puts st' = puts st.
Proof.
  intros Hid.
  destruct (getAnalysisHistory_run st sessionId limit Hid)
    as (st' & Hrun & Hs & Hg & Hp & _).
  eexists _, (take _ (historyOf st sessionId)), st'.
  split; [exact Hrun |]. split; [| split; [| done]].
  - unfold sliceLast. by rewrite take_drop.
  - unfold validLimit. by rewrite length_sliceLast.
Qed.

(** With three entries stored, a limit of 0 returns exactly one. *)
Lemma getAnalysisHistory_recent_witness :
  ∃ history st',
    getAnalysisHistory "s" 0 threeSaved = (Return history, st')
    ∧ length history = 1%nat.
Proof.
  destruct (getAnalysisHistory_recent threeSaved "s" 0)
    as (history & older & st' & Hrun & _ & Hlen & _).
  - discriminate.
  - exists history, st'. split; [exact Hrun |]. rewrite Hlen. reflexivity.
Defined.

(** X2. After [n] saves on a fresh session the statistics report
    [totalAnalyses = n], while each issue count is taken over the retained
    history only, that is over the last fifty analyses saved. *)
Theorem getSessionStats_counts_retained_window host st sessionId
    (l : list UncheckedAnalysis) :
  (∀ n, putFault host n = None) →
  sessionId ≠ EmptyString →
  sessions st !! sessionId = None →
  ∃ st' stats,
    saveAll host sessionId l st = (Return tt, st')
    ∧ getSessionStats sessionId st' = (Return stats, st')
    ∧ statsTotalAnalyses stats = Z.of_nat (length l)
    ∧ securityIssuesFound stats
      = countIssues securityIssues (sliceLast 50 (checked <$> l))
    ∧ performanceIssuesFound stats
      = countIssues performanceIssues (sliceLast 50 (checked <$> l))
    ∧ qualityIssuesFound stats
      = countIssues qualityIssues (sliceLast 50 (checked <$> l)).
Proof.
  intros Hput Hid Hfresh.
  destruct (saveAll_holds host st sessionId l Hput Hid Hfresh) as (st' & Hrun & Hh & _).
  destruct (getSessionStats_run st' sessionId) as (stats & Hstats & Ht & _ & Hs & Hp & Hq).
  exists st', stats. split; [done |]. split; [done |].
  rewrite Ht, Hs, Hp, Hq. unfold totalOf, historyOf, holds in *.
  destruct (sessions st' !! sessionId) as [s|].
  - destruct Hh as (_ & Htot & Han & _). by rewrite Htot, Han.
  - by subst l.
Qed.

(** Sixty analyses with one security issue each: sixty counted, fifty
    issues found. *)
Lemma getSessionStats_counts_retained_window_witness :
  ∃ st' stats,
    saveAll reliableHost "s" (replicate 60 oneSecurityIssue) emptyStore = (Return tt, st')
    ∧ getSessionStats "s" st' = (Return stats, st')
    ∧ statsTotalAnalyses stats = 60
    ∧ securityIssuesFound stats = 50.
Proof.
  destruct (getSessionStats_counts_retained_window reliableHost emptyStore "s"
              (replicate 60 oneSecurityIssue))
    as (st' & stats & Hrun & Hstats & Htot & Hsec & _).
  - reflexivity.
  - discriminate.
  - reflexivity.
  - exists st', stats. split; [exact Hrun |]. split; [exact Hstats |].
    split; [exact Htot |]. rewrite Hsec. reflexivity.
Defined.

(** X3. [getSession] on a session that exists renews its activity stamp
    and changes nothing else: identity, the user id (the one passed is
    ignored), creation time, history and counters stay, and so does every
    other session. This holds in memory whether or not the write that
    follows succeeds; the session is returned when it does. *)
Theorem getSession_keeps_record host st sessionId user s :
  sessions st !! sessionId = Some s →
  ∃ r st' s',
    getSession host sessionId user st = (r, st')
    ∧ sessions st' !! sessionId = Some s'
    ∧ id s' = id s ∧ userId s' = userId s ∧ createdAt s' = createdAt s
    ∧ analyses s' = analyses s ∧ totalAnalyses s' = totalAnalyses s
    ∧ averageScore s' = averageScore s
    ∧ lastActivity s' = clock host (ticks st)
    ∧ (∀ other, other ≠ sessionId → sessions st' !! other = sessions st !! other)
    ∧ (putFault host (puts st) = None → r = Return s').
Proof.
  intros Hs.
  assert (loadedSession host sessionId user st = touch (clock host (ticks st)) s) as Hl
    by (unfold loadedSession; by rewrite Hs).
  destruct (putFault host (puts st)) as [m|] eqn:Hput.
  - destruct (getSession_fails host st sessionId user m Hput) as (st' & Hrun & Hm & _).
    exists (Throw ("Failed to save state: " +:+ m)), st', (touch (clock host (ticks st)) s).
    split; [done |]. rewrite Hm, Hl, lookup_insert_eq. repeat split; try done.
    intros other Hne. by rewrite lookup_insert_ne.
  - destruct (getSession_ok host st sessionId user Hput) as (st' & Hrun & Hm & _).
    exists (Return (touch (clock host (ticks st)) s)), st', (touch (clock host (ticks st)) s).
    split; [by rewrite Hrun, Hl |]. rewrite Hm, Hl, lookup_insert_eq.
    repeat split; try done.
    intros other Hne. by rewrite lookup_insert_ne.
Qed.

Lemma getSession_keeps_record_witness :
  ∃ r st' s',
    getSession reliableHost "new" (Some "someone"%string) twoSessions = (r, st')
    ∧ sessions st' !! "new" = Some s'
    ∧ userId s' = None
    ∧ createdAt s' = 0
    ∧ lastActivity s' = 1000.
Proof.
  destruct (getSession_keeps_record reliableHost twoSessions "new"
              (Some "someone"%string) (idleSession "new" 1000))
    as (r & st' & s' & Hrun & Hs & _ & Hu & Hc & _ & _ & _ & Ha & _).
  - reflexivity.
  - exists r, st', s'. split; [exact Hrun |]. split; [exact Hs |].
    split; [exact Hu |]. split; [exact Hc | exact Ha].
Defined.

(** X4. [saveAnalysis] touches no session but the one it is called for,
    however it ends: refused input, failed write or success. *)
Theorem saveAnalysis_touches_one_session host st sessionId analysis other :
  other ≠ sessionId →
  sessions (saveAnalysis host sessionId analysis st).2 !! other = sessions st !! other.
Proof.
  intros Hne. destruct (saveAnalysis_sessions host st sessionId analysis) as ([s|] & ->).
  - by rewrite lookup_insert_ne.
  - done.
Qed.

Lemma saveAnalysis_touches_one_session_witness :
  sessions (saveAnalysis brokenHost "new" (Some (scored (JsNumber 10))) twoSessions).2
    !! "old"
  = Some (idleSession "old" 0).
Proof.
  rewrite (saveAnalysis_touches_one_session brokenHost twoSessions "new"
             (Some (scored (JsNumber 10))) "old").
  - reflexivity.
  - discriminate.
Defined.

(** X5. A save that returns normally is durable: an object activated
    afterwards on the same storage starts with exactly the sessions the
    saving instance had in memory. *)
Theorem saved_analysis_survives_restart host st sessionId (a : UncheckedAnalysis) :
  sessionId ≠ EmptyString →
  putFault host (puts st) = None →
  putFault host (S (puts st)) = None →
  ∃ st', saveAnalysis host sessionId (Some a) st = (Return tt, st')
         ∧ sessions (activate None st') = sessions st'
         ∧ last (historyOf (activate None st') sessionId) = Some (checked a).
Proof.
  intros Hid Hput1 Hput2.
  destruct (saveAnalysis_ok host st sessionId a Hid Hput1 Hput2)
    as (st' & Hrun & Hs & Hg & _).
  exists st'. split; [done |].
  assert (sessions (activate None st') = sessions st') as Hsame
    by (simpl; by rewrite Hg).
  split; [done |]. unfold historyOf. rewrite Hsame, Hs, lookup_insert_eq.
  apply recordAnalysis_last.
Qed.

Lemma saved_analysis_survives_restart_witness :
  ∃ st', saveAnalysis reliableHost "s" (Some (scored (JsNumber 150))) emptyStore
           = (Return tt, st')
         ∧ last (historyOf (activate None st') "s") = Some (checked (scored (JsNumber 150))).
Proof.
  destruct (saved_analysis_survives_restart reliableHost emptyStore "s"
              (scored (JsNumber 150))) as (st' & Hrun & _ & Hlast).
  - discriminate.
  - reflexivity.
  - reflexivity.
  - exists st'. split; [exact Hrun | exact Hlast].
Defined.

(** X6. When the write issued by [saveAnalysis] itself fails, the
    analysis is visible to readers of the running instance, as the newest
    entry of the history, and is gone after the next activation: the
    reloaded session has the history it had before the call. *)
Theorem unsaved_analysis_lost_on_restart host st sessionId (a : UncheckedAnalysis)
    message :
  sessionId ≠ EmptyString →
  putFault host (puts st) = None →
  putFault host (S (puts st)) = Some message →
  ∃ st', (saveAnalysis host sessionId (Some a) st).2 = st'
         ∧ last (historyOf st' sessionId) = Some (checked a)
         ∧ historyOf (activate None st') sessionId = historyOf st sessionId
         ∧ totalOf (activate None st') sessionId = totalOf st sessionId.
Proof.
  intros Hid Hput1 Hput2.
  destruct (saveAnalysis_fails_late host st sessionId a message Hid Hput1 Hput2)
    as (st' & Hrun & Hs & Hg).
  exists st'. split; [by rewrite Hrun |]. split.
  - unfold historyOf. rewrite Hs, lookup_insert_eq. apply recordAnalysis_last.
  - unfold historyOf, totalOf. simpl. rewrite Hg. simpl. rewrite lookup_insert_eq.
    split; [apply loadedSession_history | apply loadedSession_total].
Qed.

Lemma unsaved_analysis_lost_on_restart_witness :
  ∃ st', (saveAnalysis (failingAt 1) "s" (Some (scored (JsNumber 80))) emptyStore).2 = st'
         ∧ last (historyOf st' "s") = Some (checked (scored (JsNumber 80)))
         ∧ historyOf (activate None st') "s" = [].
Proof.
  destruct (unsaved_analysis_lost_on_restart (failingAt 1) emptyStore "s"
              (scored (JsNumber 80)) "disk unavailable")
    as (st' & Hrun & Hlast & Hgone & _).
  - discriminate.
  - reflexivity.
  - reflexivity.
  - exists st'. split; [exact Hrun |]. split; [exact Hlast | exact Hgone].
Defined.

(** X7. When the load at activation fails the object starts empty, and
    its next successful save writes that map over the stored one: durable
    storage then holds the saved session alone, whatever it held before. *)
Theorem failed_load_then_save_drops_stored_sessions host st sessionId
    (a : UncheckedAnalysis) error :
  sessionId ≠ EmptyString →
  putFault host (puts st) = None →
  putFault host (S (puts st)) = None →
  ∃ st' kept,
    saveAnalysis host sessionId (Some a) (activate (Some error) st) = (Return tt, st')
    ∧ storage st' = Some kept
    ∧ dom kept = {[sessionId]}.
Proof.
  intros Hid Hput1 Hput2.
  destruct (saveAnalysis_ok host (activate (Some error) st) sessionId a Hid Hput1 Hput2)
    as (st' & Hrun & Hs & Hg & _).
  exists st', (sessions st'). split; [done |]. split; [done |].
  rewrite Hs. simpl. by rewrite dom_insert_L, dom_empty_L, union_empty_r_L.
Qed.

Lemma failed_load_then_save_drops_stored_sessions_witness :
  ∃ st' kept,
    saveAnalysis reliableHost "s" (Some (scored (JsNumber 80)))
      (activate (Some "storage unreachable"%string) twoPersisted) = (Return tt, st')
    ∧ storage st' = Some kept
    ∧ dom kept = {[ "s"%string ]}.
Proof.
  destruct (failed_load_then_save_drops_stored_sessions reliableHost twoPersisted "s"
              (scored (JsNumber 80)) "storage unreachable")
    as (st' & kept & Hrun & Hg & Hdom).
  - discriminate.
  - reflexivity.
  - reflexivity.
  - exists st', kept. split; [exact Hrun |]. split; [exact Hg | exact Hdom].
Defined.



(** X9. As long as a session has received at most fifty-one analyses,
    each with a score from 1 to 100, its average is the rounded mean of
    all the scores saved. *)
Theorem averageScore_exact_before_eviction host st sessionId
    (l : list UncheckedAnalysis) :
  (∀ n, putFault host n = None) →
  sessionId ≠ EmptyString →
  sessions st !! sessionId = None →
  Forall (λ a, ∃ z, receivedOverallScore a = JsNumber z ∧ 1 ≤ z ≤ 100) l →
  (1 ≤ length l ≤ 51)%nat →
  ∃ st', saveAll host sessionId l st = (Return tt, st')
         ∧ averageOf st' sessionId = roundedMean (checked <$> l).
Proof.
  intros Hput Hid Hfresh Hscores Hlen.
  destruct (saveAll_holds host st sessionId l Hput Hid Hfresh) as (st' & Hrun & Hh & _).
  exists st'. split; [done |]. unfold averageOf, holds in *.
  destruct (sessions st' !! sessionId) as [s|]; [| subst l; simpl in Hlen; lia].
  destruct Hh as (_ & _ & _ & Hav).
  rewrite Hav, sliceLast_short by (rewrite length_fmap; lia).
  unfold roundedMean, totalScore. rewrite length_fmap.
  rewrite totalScore_sumScores_from; [done |].
  apply Forall_fmap. eapply Forall_impl; [exact Hscores |].
  intros a (z & Hz & Hrange). simpl. rewrite Hz.
  rewrite checkedScore_valid by lia. exists z. split; [done | lia].
Qed.

Lemma averageScore_exact_before_eviction_witness :
  ∃ st', saveAll reliableHost "s" [scored (JsNumber 70); scored (JsNumber 75)] emptyStore
           = (Return tt, st')
         ∧ averageOf st' "s" = 73.
Proof.
  destruct (averageScore_exact_before_eviction reliableHost emptyStore "s"
              [scored (JsNumber 70); scored (JsNumber 75)])
    as (st' & Hrun & Havg).
  - reflexivity.
  - discriminate.
  - reflexivity.
  - repeat constructor; eexists; (split; [reflexivity | lia]).
  - simpl. lia.
  - exists st'. split; [exact Hrun |]. rewrite Havg. reflexivity.
Defined.

(** X10. A sweep that finds no session idle for more than [maxAgeMs]
    returns 0, keeps every session and does not write to storage. *)
Theorem cleanup_without_expired_writes_nothing host st maxAgeMs :
  (∀ k s, sessions st !! k = Some s →
          clock host (ticks st) - lastActivity s ≤ maxAgeMs) →
  ∃ st', cleanupOldSessions host maxAgeMs st = (Return 0, st')
         ∧ sessions st' = sessions st
         ∧ puts st' = puts st
         ∧ storage st' = storage st.
Proof.
  intros Hfresh.
  destruct (cleanupOldSessions_cases host st maxAgeMs) as (r & st' & Hrun & Hs & Hr).
  assert (size (filter (λ e, expired (clock host (ticks st)) maxAgeMs e.2 = true)
                       (sessions st)) = 0%nat) as Hzero.
  { apply filter_none_size. intros k s Hk He. simpl in He.
    apply expired_spec in He. specialize (Hfresh k s Hk). lia. }
  exists st'. rewrite Hzero in Hr. destruct Hr as [(-> & Hkeep & _) | (m & _ & Hne & _)];
    [| done].
  split; [done |]. destruct (Hkeep eq_refl) as [Hp Hg]. split; [| done].
  rewrite Hs. apply map_filter_id. intros k s Hk He. simpl in He.
  apply expired_spec in He. specialize (Hfresh k s Hk). lia.
Qed.

Lemma cleanup_without_expired_writes_nothing_witness :
  ∃ st', cleanupOldSessions brokenHost 5000 twoSessions = (Return 0, st')
         ∧ sessions st' = sessions twoSessions.
Proof.
  destruct (cleanup_without_expired_writes_nothing brokenHost twoSessions 5000)
    as (st' & Hrun & Hs & _).
  - intros k s Hk.
    change (sessions twoSessions)
      with (<["old" := idleSession "old" 0]>
              (<["new" := idleSession "new" 1000]>
                 (∅ : gmap string AnalysisSession))) in Hk.
    change (clock brokenHost (ticks twoSessions)) with 1000.
    destruct (decide (k = "old"%string)) as [-> | Hold].
    { rewrite lookup_insert_eq in Hk. injection Hk as <-. simpl. lia. }
    rewrite lookup_insert_ne in Hk by done.
    destruct (decide (k = "new"%string)) as [-> | Hnew].
    { rewrite lookup_insert_eq in Hk. injection Hk as <-. simpl. lia. }
    rewrite lookup_insert_ne in Hk by done. done.
  - exists st'. split; [exact Hrun | exact Hs].
Defined.

(** X11. When the write after a removal fails, the sweep throws the
    storage error instead of returning a count; the expired sessions are
    gone from memory all the same, and durable storage is as it was. *)
Theorem cleanup_failure_keeps_removal host st maxAgeMs message k s :
  putFault host (puts st) = Some message →
  sessions st !! k = Some s →
  clock host (ticks st) - lastActivity s > maxAgeMs →
  ∃ st', cleanupOldSessions host maxAgeMs st
           = (Throw ("Failed to save state: " +:+ message), st')
         ∧ sessions st' !! k = None
         ∧ storage st' = storage st.
Proof.
  intros Hput Hk Hidle.
  destruct (cleanupOldSessions_cases host st maxAgeMs) as (r & st' & Hrun & Hs & Hr).
  apply (expired_spec _ _ s) in Hidle.
  assert (size (filter (λ e, expired (clock host (ticks st)) maxAgeMs e.2 = true)
                       (sessions st)) ≠ 0%nat) as Hpos.
  { apply map_size_ne_0_lookup. exists k, s.
    apply map_lookup_filter_Some. by split. }
  exists st'. destruct Hr as [(_ & _ & Hok) | (m & Hm & _ & -> & Hg)].
  - destruct (Hok Hpos) as [Hnone _]. congruence.
  - rewrite Hput in Hm. injection Hm as <-. split; [done |]. split; [| done].
    rewrite Hs. apply map_lookup_filter_None. right. intros s' Hs' Hnot.
    simpl in Hnot. rewrite Hk in Hs'. injection Hs' as <-. by apply Hnot.
Qed.

Lemma cleanup_failure_keeps_removal_witness :
  ∃ st', cleanupOldSessions brokenHost 500 twoSessions
           = (Throw "Failed to save state: disk unavailable", st')
         ∧ sessions st' !! "old" = None.
Proof.
  destruct (cleanup_failure_keeps_removal brokenHost twoSessions 500 "disk unavailable"
              "old" (idleSession "old" 0)) as (st' & Hrun & Hgone & _).
  - reflexivity.
  - reflexivity.
  - simpl. lia.
  - exists st'. split; [exact Hrun | exact Hgone].
Defined.

(** X12. Sweeping loses no session silently: the sessions left and the
    number returned add up to the sessions there were, and after a sweep
    that removed something and returned, durable storage holds exactly the
    sessions left. *)
Theorem cleanup_conserves_sessions host st maxAgeMs r st' :
  cleanupOldSessions host maxAgeMs st = (r, st') →
  ∀ removedCount, r = Return removedCount →
    Z.of_nat (size (sessions st')) + removedCount = Z.of_nat (size (sessions st))
    ∧ (removedCount ≠ 0 → storage st' = Some (sessions st')).
Proof.
  intros Hrun removedCount ->.
  destruct (cleanupOldSessions_cases host st maxAgeMs) as (r & st2 & Hrun2 & Hs & Hr).
  rewrite Hrun in Hrun2. injection Hrun2 as <- <-.
  destruct Hr as [(Heq & _ & Hok) | (m & _ & _ & Hthrow & _)]; [| done].
  injection Heq as ->. split.
  - rewrite Hs. pose proof (sweep_conserves (clock host (ticks st)) maxAgeMs (sessions st)).
    lia.
  - intros Hne. apply Hok. lia.
Qed.

Lemma cleanup_conserves_sessions_witness :
  ∃ st', cleanupOldSessions reliableHost 500 twoSessions = (Return 1, st')
         ∧ Z.of_nat (size (sessions st')) + 1 = 2
         ∧ storage st' = Some (sessions st').
Proof.
  exists (cleanupOldSessions reliableHost 500 twoSessions).2.
  assert (cleanupOldSessions reliableHost 500 twoSessions
          = (Return 1, (cleanupOldSessions reliableHost 500 twoSessions).2)) as Hrun
    by reflexivity.
  destruct (cleanup_conserves_sessions reliableHost twoSessions 500 _ _ Hrun 1 eq_refl)
    as [Hsize Hstored].
  split; [exact Hrun |]. split; [exact Hsize |]. apply Hstored. discriminate.
Defined.

(** Tactics for the routes of [fetch]: one that runs an operation inside
    the guard, one that answers at once. *)
Ltac answered_by_operation :=
  match goal with
  | |- context [tryCatch ?c _ ?st] =>
      let Hok := fresh in
      let Hrun := fresh in
      let Hstatus := fresh in
      assert (∀ r st', c st = (Return r, st') → status r = 200) as Hok;
      [ intros r st' Hrun; unfold bind in Hrun;
        repeat match type of Hrun with
               | context [match ?op ?s with _ => _ end] =>
                   destruct (op s) as [[?|?] ?]
               end;
        unfold ret in Hrun; by simplify_eq
      | destruct (guarded_route_answers c st Hok) as (response & st' & Hrun & Hstatus);
        exists response, st'; split; [exact Hrun |]; split; [tauto |];
        intros [?|?]; destruct Hstatus; congruence ]
  end.
Ltac answered_directly :=
  unfold tryCatch, ret; eexists _, _; (split; [reflexivity |]); simpl;
  (split; [auto | done]).

(** X13. The HTTP face of the store answers every request: no error
    leaves [fetch], and the status is 200, 404, 405 or 500. A request
    answered 404 (unknown path) or 405 (known path, other method) leaves
    the store exactly as it was. *)
Theorem store_fetch_always_answers host request st :
  ∃ response st',
    fetch host request st = (Return response, st')
    ∧ (status response = 200 ∨ status response = 404
       ∨ status response = 405 ∨ status response = 500)
    ∧ (status response = 404 ∨ status response = 405 → st' = st).
Proof.
  unfold fetch. cbv zeta.
  destruct (String.eqb (pathname request) "/session").
  { destruct (String.eqb (method request) "GET");
      [answered_by_operation | answered_directly]. }
  destruct (String.eqb (pathname request) "/analysis").
  { destruct (String.eqb (method request) "POST"); [answered_by_operation |].
    destruct (String.eqb (method request) "GET");
      [answered_by_operation | answered_directly]. }
  destruct (String.eqb (pathname request) "/stats").
  { destruct (String.eqb (method request) "GET");
      [answered_by_operation | answered_directly]. }
  destruct (String.eqb (pathname request) "/cleanup").
  { destruct (String.eqb (method request) "POST");
      [answered_by_operation | answered_directly]. }
  answered_directly.
Qed.

(** A path the store does not know: the answer is 404 and the store is
    as before. *)
Lemma store_fetch_always_answers_witness :
  ∃ response,
    fetch reliableHost
      {| pathname := "/nowhere"; method := "GET"; sessionIdParam := None;
         limitParam := None; maxAgeParam := None; body := JsonNull |} emptyStore
    = (Return response, emptyStore)
    ∧ status response = 404.
Proof.
  destruct (store_fetch_always_answers reliableHost
              {| pathname := "/nowhere"; method := "GET"; sessionIdParam := None;
                 limitParam := None; maxAgeParam := None; body := JsonNull |} emptyStore)
    as (response & st' & Hrun & _ & Hsame).
  assert (status response = 404) as Hstatus.
  { pose proof Hrun as Hcopy. by injection Hcopy as <- _. }
  exists response. rewrite (Hsame (or_introl Hstatus)) in Hrun. by split.
Defined.

(** X14. A save request whose body is not JSON, or is the JSON value
    null, is answered 500 without touching the store: no session is
    created and nothing is written. *)
Theorem store_fetch_rejects_bad_body host request st :
  pathname request = "/analysis"%string →
  method request = "POST"%string →
  body request = Malformed ∨ body request = JsonNull →
  ∃ response st',
    fetch host request st = (Return response, st')
    ∧ status response = 500
    ∧ sessions st' = sessions st ∧ storage st' = storage st ∧ puts st' = puts st.
Proof.
  intros Hpath Hmethod Hbody. unfold fetch, tryCatch. rewrite Hpath, Hmethod. simpl.
  unfold bind at 1, requestJson.
  destruct Hbody as [-> | ->]; simpl.
  - eexists _, _. split; [reflexivity | done].
  - eexists _, _. split; [reflexivity | done].
Qed.

Lemma store_fetch_rejects_bad_body_witness :
  ∃ response st',
    fetch reliableHost
      {| pathname := "/analysis"; method := "POST"; sessionIdParam := Some "s"%string;
         limitParam := None; maxAgeParam := None; body := JsonNull |} emptyStore
      = (Return response, st')
    ∧ status response = 500
    ∧ sessions st' = ∅.
Proof.
  destruct (store_fetch_rejects_bad_body reliableHost
              {| pathname := "/analysis"; method := "POST";
                 sessionIdParam := Some "s"%string;
                 limitParam := None; maxAgeParam := None; body := JsonNull |} emptyStore)
    as (response & st' & Hrun & Hstatus & Hs & _).
  - reflexivity.
  - reflexivity.
  - by right.
  - exists response, st'. split; [exact Hrun |]. split; [exact Hstatus | exact Hs].
Defined.

End StoreExtras.

Module AgentExtras.
Import QualityAnalysisState StoreViews StoreFacts StoreMoreFacts.
Import TextOps Agent AgentFacts CodeQualityAgentChat AgentMoreFacts Samples.
Import ClassifierSpec ClassifierFacts.

(** X15. What the chat agent writes through to the session store it
    reads back: after a write-through with storage available, a history
    request of any limit returns a list whose newest entry is the analysis
    written, as JSON carries it, provided its score is an integer from 0
    to 100. *)
Theorem agent_reads_back_saved_analysis host analysis limit st :
  between 0 100 (overallScore analysis) →
  putFault (storeHost host) (puts (durable st)) = None →
  putFault (storeHost host) (S (puts (durable st))) = None →
  ∃ st1 st2 history,
    CodeQualityAgent.saveAnalysisResult host analysis st = (Return tt, st1)
    ∧ CodeQualityAgentChat.getAnalysisHistory host limit st1 = (Return history, st2)
    ∧ last history = Some (CodeQualityAgent.toJson analysis).
Proof.
  intros Hscore Hput1 Hput2.
  destruct (saveAnalysisResult_ok host analysis st Hput1 Hput2) as (st1 & Hsave & Hs & _).
  destruct (agent_getAnalysisHistory_run host limit st1) as (st2 & Hread & _).
  eexists st1, st2, _. split; [exact Hsave |]. split; [exact Hread |].
  rewrite fmap_last, last_sliceLast by (unfold validLimit; lia).
  unfold historyOf. rewrite Hs, lookup_insert_eq. unfold savedSession.
  rewrite recordAnalysis_last. simpl. do 2 f_equal. by apply checked_toJson.
Qed.

Lemma agent_reads_back_saved_analysis_witness :
  ∃ st1 st2 history,
    CodeQualityAgent.saveAnalysisResult flakyAgent CodeQualityAgent.analysisResult
      initialState = (Return tt, st1)
    ∧ CodeQualityAgentChat.getAnalysisHistory flakyAgent 0 st1 = (Return history, st2)
    ∧ last history = Some (CodeQualityAgent.toJson CodeQualityAgent.analysisResult).
Proof.
  destruct (agent_reads_back_saved_analysis flakyAgent CodeQualityAgent.analysisResult
              0 initialState) as (st1 & st2 & history & Hsave & Hread & Hlast).
  - simpl. lia.
  - reflexivity.
  - reflexivity.
  - exists st1, st2, history. split; [exact Hsave |]. split; [exact Hread | exact Hlast].
Defined.

(** X16. A conversation whose last message the classifier accepts (a
    fenced block, the token function or class, or one of the twelve
    keywords) is answered with the analysis report, whatever the model
    and storage do: the report is streamed line by line after what the
    stream already held, and [onFinish], if given, is called once. *)
Theorem onChatMessage_routes_analysis host chat messages content onFinish st :
  last messages = Some content →
  utilsRule (Text.lit content) →
  ∃ s p q st',
    onChatMessage host chat messages onFinish st = (Return tt, st')
    ∧ stream st' = stream st ++ chunksOf (combinedAnalysis s p q)
    ∧ finishCalls st' = (finishCalls st + (if onFinish then 1 else 0))%nat.
Proof.
  intros Hlast Hrule. unfold onChatMessage. rewrite Hlast.
  apply utils_decides in Hrule. rewrite Hrule.
  destruct (quality_performCodeAnalysis_run host content onFinish st)
    as (s & p & q & _ & _ & _ & st' & _ & _ & _ & Hrun & Hstream & Hfin).
  by exists s, p, q, st'.
Qed.

Lemma onChatMessage_routes_analysis_witness :
  ∃ s p q st',
    onChatMessage brokenAgent (throw "chat model unreachable")
      ["hello"; "is there a bug here?"]%string true initialState = (Return tt, st')
    ∧ stream st' = chunksOf (combinedAnalysis s p q).
Proof.
  destruct (onChatMessage_routes_analysis brokenAgent (throw "chat model unreachable")
              ["hello"; "is there a bug here?"]%string "is there a bug here?" true
              initialState) as (s & p & q & st' & Hrun & Hstream & _).
  - reflexivity.
  - right; right; right. exists (Text.lit "bug"). split.
    + unfold Utils.codeAnalysisKeywords. rewrite list_elem_of_In. simpl. tauto.
    + by exists (Text.lit "is there a "), (Text.lit "bug"), (Text.lit " here?").
  - exists s, p, q, st'. split; [exact Hrun |]. rewrite Hstream. apply app_nil_l.
Defined.

End AgentExtras.

Module WorkflowExtras.
Import AnalysisWorkflow AnalysisWorkflowSteps WorkflowFacts WorkflowMoreFacts.
Import Samples WorkflowSamples.

(** X17. The workflow run always completes: whatever the analysis calls
    do, [run] returns an output for the session and analysis id it was
    given, holding the dispatcher's results and their summary; its error
    path is never taken, nothing is logged as an error, and the warning
    about critical issues is logged exactly when the summary counts one. *)
Theorem workflow_run_always_completes this uuid finishedAt input lines :
  ∃ output lines' added,
    run this uuid finishedAt input lines = (Return output, lines')
    ∧ outputSessionId output = sessionId input
    ∧ analysisId output = uuid
    ∧ completedAt output = finishedAt
    ∧ (performParallelAnalysis this input tt).1 = Return (results output)
    ∧ summary output = generateSummary (results output)
    ∧ lines' = lines ++ added
    ∧ Forall (λ l, l.1 = LevelLog) added
    ∧ ((LevelLog, "⚠️ Critical issues found: "
                  +:+ pretty (criticalIssues (summary output))) ∈ added
       ↔ criticalIssues (summary output) > 0).
Proof.
  destruct (run_returns this uuid finishedAt input lines)
    as (found & lines' & Hfound & Hrun & added & Hlines & Hlog & Hwarn).
  eexists _, lines', added. split; [exact Hrun |]. simpl.
  repeat (split; [done |]). exact Hwarn.
Qed.

(** A run over the simulated analysers. *)
Lemma workflow_run_always_completes_witness :
  ∃ output lines',
    run simulated "a1" 5 (allAspects "let x = 1") [] = (Return output, lines')
    ∧ analysisId output = "a1"%string
    ∧ completedAt output = 5.
Proof.
  destruct (workflow_run_always_completes simulated "a1" 5 (allAspects "let x = 1") [])
    as (output & lines' & added & Hrun & _ & Hid & Hat & _).
  by exists output, lines'.
Defined.

(** X18. The summary counts the findings of the aspects that were
    analysed: an aspect that failed or was not requested adds none. The
    critical count is the number of those findings of severity high or
    critical, so it never exceeds the total. *)
Theorem summary_counts_findings r :
  totalIssues (generateSummary r) = Z.of_nat (length (allFindings r))
  ∧ criticalIssues (generateSummary r)
    = Z.of_nat (length (List.filter isCritical (allFindings r)))
  ∧ 0 ≤ criticalIssues (generateSummary r) ≤ totalIssues (generateSummary r).
Proof.
  destruct (generateSummary_closed r) as (Ht & Hc & _).
  split; [done |]. split; [done |]. rewrite Ht, Hc.
  pose proof (filter_length_le isCritical (allFindings r)). lia.
Qed.

(** X19. When every analysis call is rejected the run still returns, and
    its summary shows no issue, no critical issue and an average of 0. *)
Theorem all_aspects_failed_gives_zero_summary this uuid finishedAt input lines m1 m2 m3 :
  analyzeSecurity this (code input) = Throw m1 →
  analyzePerformance this (code input) = Throw m2 →
  analyzeQuality this (code input) = Throw m3 →
  ∃ output lines',
    run this uuid finishedAt input lines = (Return output, lines')
    ∧ totalIssues (summary output) = 0
    ∧ criticalIssues (summary output) = 0
    ∧ averageScore (summary output) = 0.
Proof.
  intros H1 H2 H3.
  destruct (run_returns this uuid finishedAt input lines)
    as (found & lines' & Hfound & Hrun & _).
  rewrite performParallelAnalysis_run in Hfound. simpl in Hfound.
  rewrite H1, H2, H3 in Hfound. injection Hfound as <-.
  eexists _, lines'. split; [exact Hrun |]. simpl.
  destruct (includes (analysisTypes input) security),
    (includes (analysisTypes input) performance),
    (includes (analysisTypes input) quality); by repeat split.
Qed.

Lemma all_aspects_failed_gives_zero_summary_witness :
  ∃ output lines',
    run allDown "id-1" 5 (allAspects "let x = 1") [] = (Return output, lines')
    ∧ totalIssues (summary output) = 0
    ∧ averageScore (summary output) = 0.
Proof.
  destruct (all_aspects_failed_gives_zero_summary allDown "id-1" 5
              (allAspects "let x = 1") [] "model unavailable" "model unavailable"
              "model unavailable")
    as (output & lines' & Hrun & Htotal & _ & Havg); [reflexivity.. |].
  exists output, lines'. split; [exact Hrun |]. split; [exact Htotal | exact Havg].
Defined.

(** X20. The average of the summary is the rounded mean of the scores of
    the analysed aspects that are not 0: a score of 0 is left out of the
    mean, not averaged in, and with no score left the average is 0. When
    the scores counted lie between two bounds, so does the average. *)
Theorem summary_average_ignores_zero_scores r lo hi :
  Forall (λ z, lo ≤ z ≤ hi) (allScores r) →
  averageScore (generateSummary r)
  = match allScores r with
    | [] => 0
    | scores => QualityAnalysisState.roundDiv (sumZ scores) (Z.of_nat (length scores))
    end
  ∧ (allScores r ≠ [] → lo ≤ averageScore (generateSummary r) ≤ hi).
Proof.
  intros Hrange. destruct (generateSummary_closed r) as (_ & _ & Havg).
  split; [done |]. intros Hne. rewrite Havg.
  destruct (allScores r) as [|z scores] eqn:Hs; [done |].
  apply roundDiv_between; [simpl; lia |]. by apply sumZ_between.
Qed.

(** Security scoring 0 beside 80 and 85: the average is 83, the mean of
    the two. *)
Lemma summary_average_ignores_zero_scores_witness :
  ∃ found,
    (performParallelAnalysis securityZero (allAspects "let x = 1") tt).1 = Return found
    ∧ averageScore (generateSummary found) = 83
    ∧ 80 ≤ averageScore (generateSummary found) ≤ 85.
Proof.
  eexists. split; [reflexivity |].
  match goal with |- averageScore (generateSummary ?r) = _ ∧ _ =>
    destruct (summary_average_ignores_zero_scores r 80 85) as [Havg Hrange] end.
  - repeat constructor; simpl; lia.
  - split; [rewrite Havg; reflexivity |]. apply Hrange. discriminate.
Defined.

End WorkflowExtras.

Module UtilsExtras.
Import Text TextOps TextFacts ClassifierSpec ClassifierFacts UtilsMore TextMoreFacts.

(** X21. [formatTimestamp] on a timestamp that is a valid date (at most
    8.64e15 ms from the epoch) picks the unit by its age: anything younger
    than a minute, a date in the future included, reads 'just now';
    otherwise the number shown is the whole number of minutes (1 to 59),
    hours (1 to 23) or days (1 or more) elapsed, rounded down. On NaN and
    on a timestamp beyond that range the text is 'NaNd ago'. *)
Theorem formatTimestamp_units timestamp now :
  match timestamp with
  | Finite t =>
      if Z.abs t >? 8640000000000000
      then formatTimestamp timestamp now = "NaNd ago"%string
      else
        (now - t < 60000 → formatTimestamp timestamp now = "just now"%string)
        ∧ (60000 ≤ now - t < 3600000 →
           ∃ minutes, formatTimestamp timestamp now = pretty minutes +:+ "m ago"
                      ∧ 1 ≤ minutes ≤ 59
                      ∧ 60000 * minutes ≤ now - t < 60000 * (minutes + 1))
        ∧ (3600000 ≤ now - t < 86400000 →
           ∃ hours, formatTimestamp timestamp now = pretty hours +:+ "h ago"
                    ∧ 1 ≤ hours ≤ 23
                    ∧ 3600000 * hours ≤ now - t < 3600000 * (hours + 1))
        ∧ (86400000 ≤ now - t →
           ∃ days, formatTimestamp timestamp now = pretty days +:+ "d ago"
                   ∧ 1 ≤ days
                   ∧ 86400000 * days ≤ now - t < 86400000 * (days + 1))
  | NaN => formatTimestamp timestamp now = "NaNd ago"%string
  end.
Proof.
  destruct timestamp as [t|]; [| reflexivity].
  unfold formatTimestamp, timeValue.
  destruct (Z.abs t >? 8640000000000000); [reflexivity |].
  cbv zeta. set (diff := now - t).
  assert (∀ unit, 0 < unit →
            unit * (diff / unit) ≤ diff < unit * (diff / unit + 1)) as Hfloor.
  { intros unit Hunit. pose proof (Z.div_mod diff unit ltac:(lia)).
    pose proof (Z.mod_pos_bound diff unit Hunit). lia. }
  repeat split.
  - intros Hyoung. by rewrite (proj2 (Z.ltb_lt _ _) Hyoung).
  - intros [Hlow Hhigh]. exists (diff / 60000).
    rewrite (proj2 (Z.ltb_ge _ _) Hlow), (proj2 (Z.ltb_lt _ _) Hhigh).
    pose proof (Hfloor 60000 ltac:(lia)). split; [done | lia].
  - intros [Hlow Hhigh]. exists (diff / 3600000).
    rewrite (proj2 (Z.ltb_ge diff 60000) ltac:(lia)).
    rewrite (proj2 (Z.ltb_ge _ _) Hlow), (proj2 (Z.ltb_lt _ _) Hhigh).
    pose proof (Hfloor 3600000 ltac:(lia)). split; [done | lia].
  - intros Hlow. exists (diff / 86400000).
    rewrite (proj2 (Z.ltb_ge diff 60000) ltac:(lia)).
    rewrite (proj2 (Z.ltb_ge diff 3600000) ltac:(lia)).
    rewrite (proj2 (Z.ltb_ge _ _) Hlow).
    pose proof (Hfloor 86400000 ltac:(lia)). split; [done | lia].
Qed.

Lemma formatTimestamp_units_witness :
  formatTimestamp (Finite 5000) 1000 = "just now"%string
  ∧ (∃ minutes, formatTimestamp (Finite 0) 119999 = pretty minutes +:+ "m ago"
                ∧ 1 ≤ minutes ≤ 59)
  ∧ (∃ hours, formatTimestamp (Finite 0) 86399999 = pretty hours +:+ "h ago"
              ∧ 1 ≤ hours ≤ 23)
  ∧ (∃ days, formatTimestamp (Finite 0) 86400000 = pretty days +:+ "d ago" ∧ 1 ≤ days)
  ∧ formatTimestamp (Finite 9000000000000000) 1000 = "NaNd ago"%string
  ∧ formatTimestamp NaN 1000 = "NaNd ago"%string.
Proof.
  split; [| split; [| split; [| split; [| split]]]].
  - apply (formatTimestamp_units (Finite 5000) 1000). lia.
  - destruct (formatTimestamp_units (Finite 0) 119999) as (_ & Hminutes & _).
    destruct Hminutes as (minutes & Hshown & Hrange & _); [lia |]. by exists minutes.
  - destruct (formatTimestamp_units (Finite 0) 86399999) as (_ & _ & Hhours & _).
    destruct Hhours as (hours & Hshown & Hrange & _); [lia |]. by exists hours.
  - destruct (formatTimestamp_units (Finite 0) 86400000) as (_ & _ & _ & Hdays).
    destruct Hdays as (days & Hshown & Hrange & _); [lia |]. by exists days.
  - exact (formatTimestamp_units (Finite 9000000000000000) 1000).
  - exact (formatTimestamp_units NaN 1000).
Defined.

(** X22. Round trip of [extractCodeFromMessage]: from a message whose
    first fence is followed by a language tag of word characters, a line
    feed, a source free of backticks and a closing fence, it returns that
    source with the white space at both ends removed, and the tag as
    language, or no language when the tag is empty. Text before the block
    (free of backticks) and any text after it are ignored. *)
Theorem extractCodeFromMessage_reads_fenced_block before tag source after :
  Forall (λ c, c ≠ Router.backtick) before →
  Forall (λ c, isWordChar c = true) tag →
  Forall (λ c, c ≠ Router.backtick) source →
  extractCodeFromMessage (fencedMessage before tag source after)
  = Some {| code := string_of_list_ascii (trim source);
            language := match tag with
                        | [] => None
                        | _ => Some (string_of_list_ascii tag)
                        end |}.
Proof.
  intros Hbefore Htag Hsource. unfold extractCodeFromMessage.
  rewrite lit_fencedMessage.
  rewrite fencedInner_clean by (done || by apply tagged_clean).
  by rewrite stripFences_tag, takeWhile_tag.
Qed.

Lemma extractCodeFromMessage_reads_fenced_block_witness :
  extractCodeFromMessage
    (fencedMessage (lit "see ") (lit "js") (lit "  let x = 1  ") (lit " ok"))
  = Some {| code := "let x = 1"; language := Some "js"%string |}.
Proof.
  apply (extractCodeFromMessage_reads_fenced_block
           (lit "see ") (lit "js") (lit "  let x = 1  ") (lit " ok")).
  - repeat (constructor; [done |]). constructor.
  - repeat (constructor; [reflexivity |]). constructor.
  - repeat (constructor; [done |]). constructor.
Defined.

(** X23. [extractCodeFromMessage] returns null exactly for the messages
    without a fenced block (an opening fence and a later closing fence).
    Whenever it finds code, both request classifiers take the message for
    a code analysis request. *)
Theorem extractCodeFromMessage_null_iff_no_block content :
  (extractCodeFromMessage content = None ↔ ¬ hasFencedBlock (lit content))
  ∧ (∀ extracted, extractCodeFromMessage content = Some extracted →
       Utils.isCodeAnalysisRequest (lit content) = true
       ∧ Router.isCodeAnalysisRequest (lit content) = true).
Proof.
  assert (extractCodeFromMessage content = None ↔ fencedInner (lit content) = None)
    as Hnone.
  { unfold extractCodeFromMessage. by destruct (fencedInner (lit content)). }
  split; [by rewrite Hnone, fencedInner_None |].
  intros extracted Hsome.
  assert (hasFencedBlock (lit content)) as Hblock.
  { destruct (fencedInner (lit content)) as [inner|] eqn:Hinner.
    - apply fencedInner_Some in Hinner as (pre & post & ->). by exists pre, inner, post.
    - rewrite (proj2 Hnone eq_refl) in Hsome. discriminate. }
  split; [apply utils_decides | apply router_decides]; by left.
Qed.

Lemma extractCodeFromMessage_null_iff_no_block_witness :
  Utils.isCodeAnalysisRequest (lit "```a```") = true
  ∧ Router.isCodeAnalysisRequest (lit "```a```") = true.
Proof.
  by apply (proj2 (extractCodeFromMessage_null_iff_no_block "```a```")
              {| code := EmptyString; language := Some "a"%string |}).
Defined.

(** X24. The agents' code extraction: of a message without a fenced
    block, also one whose fence is never closed, the whole text is taken
    as the code; of a message with a tagged block, exactly the source
    between the line feed after the tag and the closing fence is taken,
    white space included. *)
Theorem extractCode_takes_block_or_everything :
  (∀ content, ¬ hasFencedBlock (lit content) → extractCode content = content)
  ∧ (∀ before tag source after,
       Forall (λ c, c ≠ Router.backtick) before →
       Forall (λ c, isWordChar c = true) tag →
       Forall (λ c, c ≠ Router.backtick) source →
       extractCode (fencedMessage before tag source after)
       = string_of_list_ascii source).
Proof.
  split.
  - intros content Hno. apply fencedInner_None in Hno.
    unfold extractCode. by rewrite Hno.
  - intros before tag source after Hbefore Htag Hsource. unfold extractCode.
    rewrite lit_fencedMessage.
    rewrite fencedInner_clean by (done || by apply tagged_clean).
    by rewrite stripFences_tag.
Qed.

Lemma extractCode_takes_block_or_everything_witness :
  extractCode "```js x" = "```js x"%string
  ∧ extractCode (fencedMessage (lit "see ") (lit "js") (lit " x ") (lit " ok"))
    = " x "%string.
Proof.
  destruct extractCode_takes_block_or_everything as [Hwhole Hblock]. split.
  - apply Hwhole. by apply fencedInner_None.
  - apply (Hblock (lit "see ") (lit "js") (lit " x ") (lit " ok")).
    + repeat (constructor; [done |]). constructor.
    + repeat (constructor; [reflexivity |]). constructor.
    + repeat (constructor; [done |]). constructor.
Defined.

(** X25. [throttle]: whatever the times of the calls, two successive runs
    of the wrapped function are at least [delay] apart, the first one at
    least [delay] after the initial [lastCall]; and it runs only at times
    at which it was called, in their order. *)
Theorem throttle_spaces_runs delay lastCall calls :
  spacedBy delay lastCall (throttleRuns delay lastCall calls)
  ∧ throttleRuns delay lastCall calls `sublist_of` calls.
Proof.
  revert lastCall. induction calls as [|now later IH]; intros lastCall; [done |].
  simpl. unfold throttled.
  destruct (now - lastCall >=? delay)%Z eqn:Hgap; destruct (IH now) as [Hran Hsub1];
    destruct (IH lastCall) as [Hheld Hsub2].
  - split; [| by apply sublist_skip]. simpl. split; [lia | done].
  - split; [done | by apply sublist_cons].
Qed.

(** X26. Both request classifiers are closed under extension: a text
    taken for a code analysis request is still taken for one with any
    text put before and after it. *)
Theorem classifiers_accept_extensions pre s post :
  (Router.isCodeAnalysisRequest s = true →
   Router.isCodeAnalysisRequest (pre ++ s ++ post) = true)
  ∧ (Utils.isCodeAnalysisRequest s = true →
     Utils.isCodeAnalysisRequest (pre ++ s ++ post) = true).
Proof.
  split; intros Hs.
  - apply router_decides, routerRule_extends. by apply router_decides.
  - apply utils_decides, utilsRule_extends. by apply utils_decides.
Qed.

Lemma classifiers_accept_extensions_witness :
  Router.isCodeAnalysisRequest (lit "we " ++ lit "check" ++ lit " it") = true
  ∧ Utils.isCodeAnalysisRequest (lit "a " ++ lit "bug" ++ lit "!") = true.
Proof.
  split.
  - by apply (classifiers_accept_extensions (lit "we ") (lit "check") (lit " it")).
  - by apply (classifiers_accept_extensions (lit "a ") (lit "bug") (lit "!")).
Defined.

End UtilsExtras.

Module WorkerExtras.
Import Text ClassifierSpec ClassifierFacts Agent Worker WorkerViews WorkerFacts.

(** X27. The Worker answers every request: no error leaves [fetch],
    whatever the method, the path, the body and the behaviour of the
    model; every response carries [Access-Control-Allow-Origin: *], and
    its status is 200, 400, 404 or 500. *)
Theorem worker_fetch_always_answers host isoNow request st :
  ∃ response st',
    fetch host isoNow request st = (Return response, st')
    ∧ allowOrigin ∈ headers response
    ∧ status response ∈ [200; 400; 404; 500].
Proof.
  change (∃ response st',
            fetch host isoNow request st = (Return response, st') ∧ readable response).
  unfold fetch.
  destruct (String.eqb (method request) "OPTIONS").
  { eexists _, _. split; [reflexivity |]. apply readable_intro; set_solver. }
  destruct (startsWith (lit "/agents/") (lit (pathname request)));
    [| apply otherRoutes_run].
  unfold bind.
  destruct (agentsRoute_run host request st) as (answered & st1 & -> & Hreadable).
  destruct answered as [response|]; [| apply otherRoutes_run].
  exists response, st1. split; [done |]. by apply Hreadable.
Qed.

(** X28. [POST /api/analyze] with a non-empty [code] is always answered
    200 with the message 'Analysis completed', also when the analysis did
    not take place: without the AI binding, or when the model call fails,
    the analysis text is the fallback guidance naming the error; when the
    model replies without text, a fixed sentence. The session store is not
    touched. *)
Theorem analyze_endpoint_reports_completion host isoNow request st source :
  pathname request = "/api/analyze"%string →
  method request = "POST"%string →
  suppliedCode (body request) = Some source →
  ∃ st',
    fetch host isoNow request st
    = (Return {| status := 200; headers := [jsonType; allowOrigin];
                 payload :=
                   AnalysisJson "Analysis completed"
                     (analysisText
                        (nextAnswer host st analysisSystemPrompt
                           (analysisPrompt source
                              (suppliedLanguage (body request))))) |}, st')
    ∧ durable st' = durable st.
Proof.
  intros Hpath Hmethod Hcode. rewrite fetch_analyzeRequest by done.
  unfold analyzeRoute, tryCatch, bind, requestJson.
  destruct (body request) as [| |messages [given|] language]; try discriminate.
  unfold ret at 1. cbv beta iota. simpl in Hcode.
  destruct (QualityAnalysisState.isEmptyString given); [discriminate |].
  injection Hcode as ->.
  destruct (performCodeAnalysis_run host (analysisPrompt source language) st)
    as (st' & -> & Hdurable & _).
  by exists st'.
Qed.

(** Without the AI binding the caller is still told 'Analysis completed',
    with the fallback guidance as analysis. *)
Lemma analyze_endpoint_reports_completion_witness :
  ∃ st',
    fetch unboundAgent "now"
      (analyzeRequest (ObjectBody None (Some "x = 1"%string) None)) initialState
    = (Return {| status := 200; headers := [jsonType; allowOrigin];
                 payload :=
                   AnalysisJson "Analysis completed"
                     (analysisFallback "Workers AI binding not available") |}, st').
Proof.
  destruct (analyze_endpoint_reports_completion unboundAgent "now"
              (analyzeRequest (ObjectBody None (Some "x = 1"%string) None))
              initialState "x = 1")
    as (st' & Hrun & _); [reflexivity | reflexivity | reflexivity |].
  exists st'. rewrite Hrun. reflexivity.
Defined.

(** X29. [POST /api/analyze] without usable code is answered 400 and
    nothing else happens: no model call, no log line, no change of state.
    The error is 'Code is required' for an object whose [code] is missing
    or empty, and 'Invalid JSON' for a body that is not JSON and also for
    the valid JSON value null. *)
Theorem analyze_endpoint_rejects_missing_code host isoNow request st :
  pathname request = "/api/analyze"%string →
  method request = "POST"%string →
  suppliedCode (body request) = None →
  fetch host isoNow request st
  = (Return {| status := 400; headers := [jsonType; allowOrigin];
               payload := ErrorJson (rejection (body request)) |}, st).
Proof.
  intros Hpath Hmethod Hcode. rewrite fetch_analyzeRequest by done.
  unfold analyzeRoute, tryCatch, bind, requestJson.
  destruct (body request) as [| |messages [given|] language]; try reflexivity.
  unfold ret at 1. cbv beta iota. simpl in Hcode.
  by destruct (QualityAnalysisState.isEmptyString given).
Qed.

Lemma analyze_endpoint_rejects_missing_code_witness :
  fetch Samples.flakyAgent "now" (analyzeRequest NullBody) initialState
  = (Return {| status := 400; headers := [jsonType; allowOrigin];
               payload := ErrorJson "Invalid JSON" |}, initialState).
Proof.
  by apply (analyze_endpoint_rejects_missing_code Samples.flakyAgent "now"
              (analyzeRequest NullBody) initialState).
Defined.

(** X30. The chat route, [POST /agents/simple-code-agent]: only the
    last message of the body decides. If there is one, the answer is 200
    and carries the text of the code analysis when the classifier of
    src/index.ts takes the content of that message for an analysis
    request, and the text of the general chat otherwise. An object without
    messages is answered 400; a body that is not JSON, or null, is
    answered 500 with the error text. *)
Theorem chat_endpoint_answers_last_message host isoNow request st :
  isChatPath (pathname request) →
  method request = "POST"%string →
  match lastMessage (body request), body request with
  | Some message, _ =>
      ∃ text st',
        fetch host isoNow request st
        = (Return {| status := 200; headers := chatHeaders;
                     payload := ChoicesJson text |}, st')
        ∧ (routerRule (lit (content message)) →
           performCodeAnalysis host (content message) st = (Return text, st'))
        ∧ (¬ routerRule (lit (content message)) →
           performGeneralChat host (content message) st = (Return text, st'))
  | None, ObjectBody _ _ _ =>
      fetch host isoNow request st
      = (Return {| status := 400; headers := [jsonType; allowOrigin];
                   payload := ErrorJson "No messages provided" |}, st)
  | None, _ =>
      ∃ error st',
        fetch host isoNow request st
        = (Return {| status := 500; headers := [allowOrigin];
                     payload := PlainText ("Agent Error: " +:+ error) |}, st')
  end.
Proof.
  intros [Hprefix Hagent] Hmethod. unfold fetch, agentsRoute.
  rewrite Hmethod, Hprefix, Hagent, bool_decide_eq_true_2 by done.
  change (String.eqb "POST" "OPTIONS") with false.
  change (String.eqb "POST" "POST") with true. cbv iota.
  unfold requestJson.
  destruct (body request) as [| |messages source language]; cbn [lastMessage].
  - eexists _, _. reflexivity.
  - eexists _, _. reflexivity.
  - unfold bind, tryCatch, ret. cbv beta iota.
    destruct (last (default [] messages)) as [message|]; [| reflexivity].
    destruct (Router.isCodeAnalysisRequest (lit (content message))) eqn:Hrule.
    + destruct (performCodeAnalysis_run host (content message) st)
        as (st' & Hrun & _).
      rewrite Hrun. eexists _, st'. split; [reflexivity |].
      split; [done |]. intros Hno. destruct Hno. by apply router_decides.
    + destruct (performGeneralChat_run host (content message) st)
        as (text & st' & Hrun & _).
      rewrite Hrun. exists text, st'. split; [reflexivity |].
      split; [| done]. intros Hyes. apply router_decides in Hyes. congruence.
Qed.

(** Two messages of which only the last holds code: it is analysed. *)
Lemma chat_endpoint_answers_last_message_witness :
  ∃ text st',
    fetch unboundAgent "now"
      (chatRequest
         (ObjectBody (Some [ {| role := "user"; content := "hello" |};
                             {| role := "user"; content := "check x" |} ])
            None None)) initialState
    = (Return {| status := 200; headers := chatHeaders;
                 payload := ChoicesJson text |}, st')
    ∧ text = analysisFallback "Workers AI binding not available".
Proof.
  pose proof (chat_endpoint_answers_last_message unboundAgent "now"
                (chatRequest
                   (ObjectBody (Some [ {| role := "user"; content := "hello" |};
                                       {| role := "user"; content := "check x" |} ])
                      None None)) initialState) as Hchat.
  destruct Hchat as (text & st' & Hrun & Hcode & _); [by split | reflexivity |].
  exists text, st'. split; [exact Hrun |].
  assert (routerRule (lit "check x")) as Hrule by (by apply router_decides).
  specialize (Hcode Hrule). by injection Hcode as <- _.
Defined.

End WorkerExtras.
